(** * Sitemap generator: a shallow embedding of [lib/sitemap.js] and
    [lib/generate.js], and the properties of its specification.

    The JavaScript sources are embedded as Rocq functions:
    - thrown [Error]s and errors handed to a callback become the [Throw]
      case of [result];
    - JavaScript values the code inspects with [typeof], [!value] or
      [instanceof] are the inductive [jsval];
    - numbers are IEEE-754 binary64 values ([spec_float]);
    - strings are sequences of 8-bit code units ([string]);
    - a [Date] is its time value (milliseconds since the epoch, or NaN);
    - the file system and the functions of the host the code calls but
      does not define ([htmlparser.parseDOM], [Number::toString],
      [Date.prototype.toString], the local time zone) are the fields of
      the classes [FileSystem] and [Host]. *)

From Stdlib Require Import ZArith List String Ascii Bool Lia.
From Stdlib Require Import Floats.SpecFloat.
Import ListNotations.

Local Open Scope string_scope.
Local Open Scope list_scope.
Local Open Scope Z_scope.

Set Implicit Arguments.
Set Warnings "-register-all".

(* ================================================================== *)
(** * Errors and results *)

(** The errors the code throws, with the names the specification gives
    them; [message] recovers the text of the source. [TypeError] is the
    engine's error for a property read on [null] or [undefined];
    [IOError] is whatever [fs] reports. *)
Inductive error : Type :=
| InvalidSitemapContents
| InvalidLastModifiedType
| InvalidPriority
| InvalidDateFormat (str : string)
| TypeError
| IOError (code : string).

Definition message (e : error) : string :=
  match e with
  | InvalidSitemapContents => "Invalid sitemap contents, expected array or string"
  | InvalidLastModifiedType =>
      "Invalid lastModified value type, should be number, string or date"
  | InvalidPriority => "Invalid priority value: NaN"
  | InvalidDateFormat str => "Unknown date format: " ++ str
  | TypeError => "TypeError"
  | IOError code => code
  end.

Inductive result (A : Type) : Type :=
| Ok (a : A)
| Throw (e : error).
Arguments Ok {A} a.
Arguments Throw {A} e.

Definition bind {A B : Type} (r : result A) (k : A -> result B) : result B :=
  match r with
  | Ok a => k a
  | Throw e => Throw e
  end.

Declare Scope result_scope.
Delimit Scope result_scope with result.
Notation "x <- r ;; k" := (bind r (fun x => k))
  (at level 61, r at next level, right associativity) : result_scope.
Local Open Scope result_scope.

(** [Array.prototype.map]/[forEach] with a callback that may throw: the
    first exception aborts the traversal. *)
Fixpoint mapM {A B : Type} (f : A -> result B) (l : list A) : result (list B) :=
  match l with
  | [] => Ok []
  | a :: l' => b <- f a ;; bs <- mapM f l' ;; Ok (b :: bs)
  end.

Fixpoint foldM {A S : Type} (f : S -> A -> result S) (l : list A) (s : S)
  : result S :=
  match l with
  | [] => Ok s
  | a :: l' => s' <- f s a ;; foldM f l' s'
  end.

(* ================================================================== *)
(** * Strings *)

Definition is_digit (c : ascii) : bool :=
  (48 <=? nat_of_ascii c)%nat && (nat_of_ascii c <=? 57)%nat.

(** [\w] of a JavaScript regular expression: [A-Za-z0-9_]. *)
Definition is_word (c : ascii) : bool :=
  let n := nat_of_ascii c in
  is_digit c
  || ((65 <=? n)%nat && (n <=? 90)%nat)
  || ((97 <=? n)%nat && (n <=? 122)%nat)
  || (n =? 95)%nat.

Definition digit_val (c : ascii) : Z := Z.of_nat (nat_of_ascii c) - 48.

Definition digit_char (d : Z) : ascii := ascii_of_nat (Z.to_nat (48 + d)).

(** Value of a string of decimal digits: what unary [+] returns on the
    digit groups of the date patterns. *)
Fixpoint digits_value_from (acc : Z) (s : string) : Z :=
  match s with
  | EmptyString => acc
  | String c s' => digits_value_from (10 * acc + digit_val c) s'
  end.

Definition toNumberDigits (s : string) : Z := digits_value_from 0 s.

Fixpoint decimal_digits (fuel : nat) (n : Z) (acc : string) : string :=
  match fuel with
  | O => acc
  | S fuel' =>
      let acc' := String (digit_char (n mod 10)) acc in
      if n <? 10 then acc' else decimal_digits fuel' (n / 10) acc'
  end.

(** [Number::toString] on an integer of small magnitude (no exponent
    form): the decimal digits, with a minus sign when negative. *)
Definition intToString (z : Z) : string :=
  if z <? 0
  then "-" ++ decimal_digits (S (Z.to_nat (Z.log2 (- z)))) (- z) ""
  else decimal_digits (S (Z.to_nat (Z.log2 z))) z "".

Fixpoint last_char (s : string) : option ascii :=
  match s with
  | EmptyString => None
  | String c EmptyString => Some c
  | String _ s' => last_char s'
  end.

Definition first_char (s : string) : option ascii :=
  match s with
  | EmptyString => None
  | String c _ => Some c
  end.

Definition is_char (a : ascii) (o : option ascii) : bool :=
  match o with
  | Some c => Ascii.eqb c a
  | None => false
  end.

(** [!s] on a string. *)
Definition is_empty (s : string) : bool :=
  match s with
  | EmptyString => true
  | _ => false
  end.

(** [s.slice(1)]. *)
Definition slice1 (s : string) : string :=
  match s with
  | EmptyString => EmptyString
  | String _ s' => s'
  end.

(** [Array.prototype.indexOf(x) !== -1] on an array of strings. *)
Definition contains (l : list string) (x : string) : bool :=
  existsb (String.eqb x) l.

(* ================================================================== *)
(** * Numbers *)

Module Number.

Definition number := spec_float.

Definition prec : Z := 53.
Definition emax : Z := 1024.

Definition NaN : number := S754_nan.

Definition isNaN (x : number) : bool :=
  match x with
  | S754_nan => true
  | _ => false
  end.

(** [!x] on a number: [+0], [-0] and [NaN] are falsy. *)
Definition falsy (x : number) : bool :=
  match x with
  | S754_zero _ | S754_nan => true
  | _ => false
  end.

(** [x === y] on numbers. *)
Definition strict_eq (x y : number) : bool := SFeqb x y.

(** The binary64 value nearest to [m * 10^e10] ([m >= 0]), ties to
    even, with the sign [neg]. *)
Definition of_decimal (neg : bool) (m : Z) (e10 : Z) : number :=
  match m with
  | Zpos p =>
      if 0 <=? e10
      then
        let x := binary_normalize prec emax (m * 10 ^ e10) 0 false in
        if neg then SFopp x else x
      else
        let '(q, e, l) :=
          SFdiv_core_binary prec emax m 0 (10 ^ (- e10)) 0 in
        binary_round_aux prec emax neg q e l
  | _ => S754_zero neg
  end.

(** White space that [parseFloat] skips, among 8-bit code units: TAB,
    LF, VT, FF, CR, SP and NBSP. *)
Definition is_space (c : ascii) : bool :=
  let n := nat_of_ascii c in
  ((9 <=? n)%nat && (n <=? 13)%nat) || (n =? 32)%nat || (n =? 160)%nat.

Fixpoint trim_left (s : string) : string :=
  match s with
  | String c s' => if is_space c then trim_left s' else s
  | EmptyString => s
  end.

(** The longest prefix of decimal digits, and what follows it. *)
Fixpoint take_digits (s : string) : string * string :=
  match s with
  | String c s' =>
      if is_digit c
      then let '(d, r) := take_digits s' in (String c d, r)
      else (EmptyString, s)
  | EmptyString => (EmptyString, s)
  end.

Definition take_sign (s : string) : bool * string :=
  match s with
  | String "-" r => (true, r)
  | String "+" r => (false, r)
  | _ => (false, s)
  end.

(** The exponent part [e[+-]digits] of a decimal literal; it is only
    read when at least one digit follows. *)
Definition take_exponent (s : string) : Z :=
  match s with
  | String ("e" | "E") r =>
      let '(neg, r') := take_sign r in
      let '(ed, _) := take_digits r' in
      if is_empty ed then 0
      else if neg then - toNumberDigits ed else toNumberDigits ed
  | _ => 0
  end.

(** The global [parseFloat] on a string: skip leading white space, read
    the longest prefix that is a decimal literal ([Infinity], or digits
    with an optional fraction and exponent, optionally signed) and
    return the nearest binary64 value; [NaN] when there is no such
    prefix. *)
Definition parseFloat (s : string) : number :=
  let '(neg, s0) := take_sign (trim_left s) in
  if String.prefix "Infinity" s0 then S754_infinity neg
  else
    let '(ip, s1) := take_digits s0 in
    let '(fp, s2) :=
      match s1 with
      | String "." r => take_digits r
      | _ => (EmptyString, s1)
      end in
    if is_empty ip && is_empty fp then NaN
    else
      of_decimal neg (toNumberDigits (ip ++ fp))
        (take_exponent s2 - Z.of_nat (String.length fp)).

(** [x * y] on numbers. *)
Definition mul (x y : number) : number := SFmul prec emax x y.

Definition of_Z (z : Z) : number := binary_normalize prec emax z 0 false.

(** [ToIntegerOrInfinity] on a finite number: truncation toward zero;
    [None] for [NaN] and the infinities. *)
Definition truncate (x : number) : option Z :=
  match x with
  | S754_zero _ => Some 0
  | S754_finite s m e =>
      let a := if 0 <=? e then Zpos m * 2 ^ e else Zpos m / 2 ^ (- e) in
      Some (if s then - a else a)
  | _ => None
  end.

End Number.

Import Number.

(** [DEFAULT_PRIORITY = 0.5]. *)
Definition DEFAULT_PRIORITY : number :=
  Eval vm_compute in of_decimal false 5 (-1).

(* ================================================================== *)
(** * Values *)

(** A [Date] object is its time value: milliseconds since the epoch, or
    [None] for the invalid date (time value NaN). *)
Inductive Date : Type :=
| MkDate (tv : option Z).

Definition timeValue (d : Date) : option Z :=
  let 'MkDate tv := d in tv.

(** The JavaScript values that reach the setters of an entry and the
    options of the generator. [VObject repr] is any other object, with
    the string [ToString] gives for it. *)
Inductive jsval : Type :=
| VUndefined
| VNull
| VBool (b : bool)
| VNum (n : number)
| VStr (s : string)
| VDate (d : Date)
| VObject (repr : string).

(** [!!v]. *)
Definition truthy (v : jsval) : bool :=
  match v with
  | VUndefined | VNull => false
  | VBool b => b
  | VNum n => negb (falsy n)
  | VStr s => negb (is_empty s)
  | VDate _ | VObject _ => true
  end.

(* ================================================================== *)
(** * Regular expressions *)

(** The fragment of JavaScript regular expressions the sources use. Every
    pattern of the sources starts with [^], so matching is only ever
    attempted at the start of the subject. The matcher enumerates the
    ways a pattern can match in the order a backtracking engine tries
    them (greedy quantifiers, left alternative first); the first one is
    the match. *)
Module RegExp.

Inductive regex : Type :=
| Eps                                   (* the empty pattern *)
| Chr (c : ascii)                       (* a literal character *)
| Class (p : ascii -> bool)             (* \d, \w, [+-] *)
| Seq (r1 r2 : regex)                   (* r1 r2 *)
| Alt (r1 r2 : regex)                   (* r1|r2 *)
| Opt (r : regex)                       (* r? *)
| PlusClass (p : ascii -> bool)         (* c+ for a class c *)
| Repeat (n : nat) (r : regex)          (* r{n} *)
| Group (i : nat) (r : regex)           (* the i-th capturing group *)
| Eol.                                  (* $ (no multiline flag) *)

(** Captures: the most recent binding of a group comes first. *)
Definition captures := list (nat * string).

(** A way to match: the text matched, what remains of the subject, and
    the captures. *)
Definition match_state : Type := string * string * captures.

Definition matched (m : match_state) : string := fst (fst m).
Definition remaining (m : match_state) : string := snd (fst m).
Definition captured (m : match_state) : captures := snd m.

(** Put [w] in front of the text matched. *)
Definition after (w : string) (m : match_state) : match_state :=
  ((w ++ matched m)%string, remaining m, captured m).

Fixpoint plus_class (p : ascii -> bool) (s : string) (c : captures)
  : list match_state :=
  match s with
  | String a s' =>
      if p a
      then map (after (String a EmptyString)) (plus_class p s' c)
           ++ [(String a EmptyString, s', c)]
      else []
  | EmptyString => []
  end.

Fixpoint run (r : regex) (s : string) (c : captures) : list match_state :=
  match r with
  | Eps => [(EmptyString, s, c)]
  | Chr a =>
      match s with
      | String b s' =>
          if Ascii.eqb a b then [(String b EmptyString, s', c)] else []
      | EmptyString => []
      end
  | Class p =>
      match s with
      | String b s' => if p b then [(String b EmptyString, s', c)] else []
      | EmptyString => []
      end
  | Seq r1 r2 =>
      flat_map
        (fun m => map (after (matched m)) (run r2 (remaining m) (captured m)))
        (run r1 s c)
  | Alt r1 r2 => run r1 s c ++ run r2 s c
  | Opt r1 => run r1 s c ++ [(EmptyString, s, c)]
  | PlusClass p => plus_class p s c
  | Repeat n r1 =>
      (fix rep (n : nat) (s : string) (c : captures) : list match_state :=
         match n with
         | O => [(EmptyString, s, c)]
         | S n' =>
             flat_map
               (fun m =>
                  map (after (matched m))
                      (rep n' (remaining m) (captured m)))
               (run r1 s c)
         end) n s c
  | Group i r1 =>
      map (fun m => (matched m, remaining m, (i, matched m) :: captured m))
          (run r1 s c)
  | Eol =>
      match s with
      | EmptyString => [(EmptyString, s, c)]
      | _ => []
      end
  end.

(** [m[i]] of a match object: [None] is [undefined]. *)
Fixpoint group (c : captures) (i : nat) : option string :=
  match c with
  | [] => None
  | (j, v) :: c' => if Nat.eqb i j then Some v else group c' i
  end.

(** [str.match(re)] for a pattern without the [g] flag that starts with
    [^]: the groups of the first match, group 0 being the whole match;
    [None] is [null]. *)
Definition exec (r : regex) (s : string) : option captures :=
  match run r s [] with
  | m :: _ => Some ((O, matched m) :: captured m)
  | [] => None
  end.

(** [re.test(str)]. *)
Definition test (r : regex) (s : string) : bool :=
  match exec r s with
  | Some _ => true
  | None => false
  end.

Definition cat (l : list regex) : regex := fold_right Seq Eps l.

Definition d : regex := Class is_digit.

End RegExp.

Import RegExp.

(* ================================================================== *)
(** * Time values *)

(** The abstract operations of ECMAScript on time values, on which [Date.UTC],
    the [Date] constructor and the [getUTC...] methods are defined. *)
Module Time.

Definition msPerSecond : Z := 1000.
Definition msPerMinute : Z := 60000.
Definition msPerHour : Z := 3600000.
Definition msPerDay : Z := 86400000.

Definition Day (t : Z) : Z := t / msPerDay.
Definition TimeWithinDay (t : Z) : Z := t mod msPerDay.

Definition DaysInYear (y : Z) : Z :=
  if negb (y mod 4 =? 0) then 365
  else if negb (y mod 100 =? 0) then 366
  else if negb (y mod 400 =? 0) then 365
  else 366.

Definition DayFromYear (y : Z) : Z :=
  365 * (y - 1970) + (y - 1969) / 4 - (y - 1901) / 100 + (y - 1601) / 400.

Definition TimeFromYear (y : Z) : Z := msPerDay * DayFromYear y.

(** The year [y] with [DayFromYear y <= day < DayFromYear (y + 1)]: an
    estimate from the mean length of a year, corrected by one. *)
Definition YearFromDay (day : Z) : Z :=
  let y := 1970 + (400 * day) / 146097 in
  if DayFromYear (y + 1) <=? day then y + 1
  else if day <? DayFromYear y then y - 1
  else y.

Definition YearFromTime (t : Z) : Z := YearFromDay (Day t).

Definition InLeapYear (t : Z) : Z :=
  if DaysInYear (YearFromTime t) =? 366 then 1 else 0.

Definition DayWithinYear (t : Z) : Z :=
  Day t - DayFromYear (YearFromTime t).

(** The day of the year on which month [m] (0 to 11) starts;
    [leap] is 1 in a leap year and 0 otherwise. *)
Definition MonthStart (m leap : Z) : Z :=
  match m with
  | 0 => 0
  | 1 => 31
  | 2 => 59 + leap
  | 3 => 90 + leap
  | 4 => 120 + leap
  | 5 => 151 + leap
  | 6 => 181 + leap
  | 7 => 212 + leap
  | 8 => 243 + leap
  | 9 => 273 + leap
  | 10 => 304 + leap
  | _ => 334 + leap
  end.

Definition MonthFromDay (d leap : Z) : Z :=
  if d <? 31 then 0
  else if d <? 59 + leap then 1
  else if d <? 90 + leap then 2
  else if d <? 120 + leap then 3
  else if d <? 151 + leap then 4
  else if d <? 181 + leap then 5
  else if d <? 212 + leap then 6
  else if d <? 243 + leap then 7
  else if d <? 273 + leap then 8
  else if d <? 304 + leap then 9
  else if d <? 334 + leap then 10
  else 11.

Definition MonthFromTime (t : Z) : Z :=
  MonthFromDay (DayWithinYear t) (InLeapYear t).

Definition DateFromTime (t : Z) : Z :=
  DayWithinYear t - MonthStart (MonthFromTime t) (InLeapYear t) + 1.

Definition HourFromTime (t : Z) : Z := (t / msPerHour) mod 24.
Definition MinFromTime (t : Z) : Z := (t / msPerMinute) mod 60.
Definition SecFromTime (t : Z) : Z := (t / msPerSecond) mod 60.

Definition MakeTime (hour min sec ms : Z) : Z :=
  hour * msPerHour + min * msPerMinute + sec * msPerSecond + ms.

(** [MakeDay]: the day number of the first day of month [month mod 12]
    of year [year + month / 12], plus [date - 1]. *)
Definition MakeDay (year month date : Z) : Z :=
  let ym := year + month / 12 in
  let mn := month mod 12 in
  let leap := if DaysInYear ym =? 366 then 1 else 0 in
  DayFromYear ym + MonthStart mn leap + date - 1.

Definition MakeDate (day time : Z) : Z := day * msPerDay + time.

(** [None] is NaN. *)
Definition TimeClip (time : Z) : option Z :=
  if 8640000000000000 <? Z.abs time then None else Some time.

(** A year given as 0..99 to [Date.UTC] or to the [Date] constructor
    means 1900..1999. *)
Definition FullYear (y : Z) : Z :=
  if (0 <=? y) && (y <=? 99) then 1900 + y else y.

(** [Date.UTC(year, month, date, hours, minutes, seconds, ms)] on
    integers. *)
Definition UTC (year month date hours minutes seconds ms : Z) : option Z :=
  TimeClip (MakeDate (MakeDay (FullYear year) month date)
                     (MakeTime hours minutes seconds ms)).

End Time.

Import Time.

(* ================================================================== *)
(** * The host *)

(** A node of the tree [htmlparser.parseDOM] returns: its [type]
    (['tag'], ['text'], ['directive'], ...), its [name] (absent on text
    nodes), its [data] and its [children] (empty when absent). *)
Inductive node : Type :=
| Node (type : string) (name : option string) (data : string)
       (children : list node).

Definition type (n : node) : string :=
  let 'Node t _ _ _ := n in t.
Definition name (n : node) : option string :=
  let 'Node _ nm _ _ := n in nm.
Definition data (n : node) : string :=
  let 'Node _ _ dt _ := n in dt.
Definition children (n : node) : list node :=
  let 'Node _ _ _ ch := n in ch.

(** What the code takes from its host and does not define:
    - [LocalTZA t]: the offset of local time from UTC, in milliseconds,
      at local time [t];
    - [parseDOM]: [htmlparser.parseDOM(contents, {xmlMode: true})];
    - [numberToString]: [Number::toString];
    - [dateToString]: [Date.prototype.toString]. *)
Class Host : Type := {
  LocalTZA : Z -> Z;
  parseDOM : string -> list node;
  numberToString : number -> string;
  dateToString : Date -> string
}.

(** What the code takes from [fs]: the names in a directory in listing
    order, the type and modification time of a path, the text of a
    file. *)
Record Stats : Type := {
  isFile : bool;
  isDirectory : bool;
  mtime : Date
}.

Class FileSystem : Type := {
  readdir : string -> result (list string);
  stat : string -> result Stats;
  readFile : string -> result string
}.

(** [ToString(v)]. *)
Definition ToString {host : Host} (v : jsval) : string :=
  match v with
  | VUndefined => "undefined"
  | VNull => "null"
  | VBool true => "true"
  | VBool false => "false"
  | VNum n => numberToString n
  | VStr s => s
  | VDate d => dateToString d
  | VObject repr => repr
  end.

Definition nl : string := String (ascii_of_nat 10) EmptyString.
Definition dq : string := String (ascii_of_nat 34) EmptyString.

(* ================================================================== *)
(** * Date codec ([parseDate], [formatDate], [pad]) *)

(** [new Date(year, month, date)]: the fields are local time. *)
Definition newDateLocal {host : Host} (year month date : Z) : Date :=
  let t := MakeDate (MakeDay (FullYear year) month date) 0 in
  MkDate (TimeClip (t - LocalTZA t)).

(** [new Date(time)] on a time value; [None] is NaN. *)
Definition newDate (time : option Z) : Date :=
  MkDate (match time with
          | Some t => TimeClip t
          | None => None
          end).

(** [new Date(value)] on a number. *)
Definition newDateOfNumber (value : number) : Date :=
  newDate (truncate value).

(** [/^\d{4}$/] *)
Definition re_YYYY : regex := cat [Repeat 4 d; Eol].

(** [/^(\d{4})-(\d{2})$/] *)
Definition re_YYYY_MM : regex :=
  cat [Group 1 (Repeat 4 d); Chr "-"; Group 2 (Repeat 2 d); Eol].

(** [/^(\d{4})-(\d{2})-(\d{2})$/] *)
Definition re_YYYY_MM_DD : regex :=
  cat [Group 1 (Repeat 4 d); Chr "-"; Group 2 (Repeat 2 d); Chr "-";
       Group 3 (Repeat 2 d); Eol].

Definition is_sign (c : ascii) : bool := Ascii.eqb c "+" || Ascii.eqb c "-".

(** [(?::(\d{2})(\.\d+)?)?] *)
Definition re_seconds : regex :=
  Opt (cat [Chr ":"; Group 6 (Repeat 2 d);
            Opt (Group 7 (cat [Chr "."; PlusClass is_digit]))]).

(** [(Z|[+-]\d{2}:\d{2})] *)
Definition re_zone : regex :=
  Group 8 (Alt (Chr "Z")
               (cat [Class is_sign; Repeat 2 d; Chr ":"; Repeat 2 d])).

(** [/^(\d{4})-(\d{2})-(\d{2})T(\d{2}):(\d{2})(?::(\d{2})(\.\d+)?)?(Z|[+-]\d{2}:\d{2})$/] *)
Definition re_datetime : regex :=
  cat [Group 1 (Repeat 4 d); Chr "-"; Group 2 (Repeat 2 d); Chr "-";
       Group 3 (Repeat 2 d); Chr "T"; Group 4 (Repeat 2 d); Chr ":";
       Group 5 (Repeat 2 d); re_seconds; re_zone; Eol].

(** [/^([+-])(\d{2}):(\d{2})$/] *)
Definition re_offset : regex :=
  cat [Group 1 (Class is_sign); Group 2 (Repeat 2 d); Chr ":";
       Group 3 (Repeat 2 d); Eol].

(** [m[i] === v]. *)
Definition group_is (m : captures) (i : nat) (v : string) : bool :=
  match group m i with
  | Some w => String.eqb w v
  | None => false
  end.

(** [+m[i]] for a group that took part in the match. *)
Definition num (m : captures) (i : nat) : Z :=
  match group m i with
  | Some v => toNumberDigits v
  | None => 0
  end.

(** The argument [ms] of [Date.UTC] in [parseDate]:
    [parseFloat(m[7] || '0') * 1000], as the integer [Date.UTC] makes of
    it. *)
Definition fraction_ms (m7 : option string) : option Z :=
  let text := match m7 with
              | Some v => if is_empty v then "0" else v
              | None => "0"
              end in
  truncate (mul (parseFloat text) (of_Z 1000)).

Definition parseDate {host : Host} (str : string) : result Date :=
  match exec re_YYYY str with
  | Some m => Ok (newDateLocal (num m 0) 0 1)
  | None =>
  match exec re_YYYY_MM str with
  | Some m => Ok (newDateLocal (num m 1) (num m 2 - 1) 1)
  | None =>
  match exec re_YYYY_MM_DD str with
  | Some m => Ok (newDateLocal (num m 1) (num m 2 - 1) (num m 3))
  | None =>
  (* the source tests the YYYY-MM-DD pattern a second time *)
  match exec re_YYYY_MM_DD str with
  | Some m => Ok (newDateLocal (num m 1) (num m 2 - 1) (num m 3))
  | None =>
  match exec re_datetime str with
  | Some m =>
      let time :=
        match fraction_ms (group m 7) with
        | Some ms =>
            UTC (num m 1) (num m 2 - 1) (num m 3) (num m 4) (num m 5)
                (match group m 6 with Some _ => num m 6 | None => 0 end) ms
        | None => None
        end in
      match group m 8 with
      | Some m8 =>
          if String.eqb m8 "Z" then Ok (newDate time)
          else
            match exec re_offset m8 with
            | Some offset =>
                let sign := if group_is offset 1 "-" then 1 else -1 in
                let delta :=
                  sign * (num offset 2 * 60 + num offset 3) * 60 * 1000 in
                Ok (newDate (option_map (fun t => t + delta) time))
            | None => Throw TypeError
            end
      | None => Throw TypeError
      end
  | None => Throw (InvalidDateFormat str)
  end end end end end.

(** A number that is an integer or NaN ([None]), as the [getUTC...]
    methods return, converted to a string. *)
Definition numStr (n : option Z) : string :=
  match n with
  | Some z => intToString z
  | None => "NaN"
  end.

Definition pad (n : option Z) : string :=
  (match n with
   | Some z => if z <? 10 then "0" else ""
   | None => ""
   end) ++ numStr n.

Definition getUTCFullYear (date : Date) : option Z :=
  option_map YearFromTime (timeValue date).
Definition getUTCMonth (date : Date) : option Z :=
  option_map MonthFromTime (timeValue date).
Definition getUTCDate (date : Date) : option Z :=
  option_map DateFromTime (timeValue date).
Definition getUTCHours (date : Date) : option Z :=
  option_map HourFromTime (timeValue date).
Definition getUTCMinutes (date : Date) : option Z :=
  option_map MinFromTime (timeValue date).
Definition getUTCSeconds (date : Date) : option Z :=
  option_map SecFromTime (timeValue date).

Definition formatDate (date : Date) : string :=
  let dt := (numStr (getUTCFullYear date) ++ "-"
             ++ pad (option_map (fun m => m + 1) (getUTCMonth date)) ++ "-"
             ++ pad (getUTCDate date))%string in
  let time := (pad (getUTCHours date) ++ ":" ++ pad (getUTCMinutes date)
               ++ ":" ++ pad (getUTCSeconds date))%string in
  (dt ++ "T" ++ time ++ "Z")%string.

(* ================================================================== *)
(** * Entries ([SitemapEntry]) *)

(** The fields of a [SitemapEntry]: [url] is [null] ([None]) or a
    string; [changeFrequency] is assigned without a setter and holds any
    value; [_lastModified] is [null] ([None]) or a [Date]; [_priority]
    is whatever the setter stored. *)
Record SitemapEntry : Type := {
  url : option string;
  changeFrequency : jsval;
  _lastModified : option Date;
  _priority : jsval
}.

(** [new SitemapEntry()]. *)
Definition newSitemapEntry : SitemapEntry :=
  {| url := None;
     changeFrequency := VNull;
     _lastModified := None;
     _priority := VNum DEFAULT_PRIORITY |}.

Definition set_url (e : SitemapEntry) (v : string) : SitemapEntry :=
  {| url := Some v;
     changeFrequency := changeFrequency e;
     _lastModified := _lastModified e;
     _priority := _priority e |}.

Definition set_changeFrequency (e : SitemapEntry) (v : jsval) : SitemapEntry :=
  {| url := url e;
     changeFrequency := v;
     _lastModified := _lastModified e;
     _priority := _priority e |}.

Definition store_lastModified (e : SitemapEntry) (d : Date) : SitemapEntry :=
  {| url := url e;
     changeFrequency := changeFrequency e;
     _lastModified := Some d;
     _priority := _priority e |}.

Definition store_priority (e : SitemapEntry) (v : jsval) : SitemapEntry :=
  {| url := url e;
     changeFrequency := changeFrequency e;
     _lastModified := _lastModified e;
     _priority := v |}.

(** The getters. *)
Definition lastModified (e : SitemapEntry) : option Date := _lastModified e.
Definition priority (e : SitemapEntry) : jsval := _priority e.

(** The setter of [lastModified]. *)
Definition set_lastModified {host : Host} (e : SitemapEntry) (value : jsval)
  : result SitemapEntry :=
  match value with
  | VUndefined => Ok e
  | _ =>
      value' <- match value with
                | VNum n => Ok (VDate (newDateOfNumber n))
                | VStr s => d <- parseDate s ;; Ok (VDate d)
                | _ => Ok value
                end ;;
      match value' with
      | VDate d => Ok (store_lastModified e d)
      | _ => Throw InvalidLastModifiedType
      end
  end.

(** The setter of [priority]. *)
Definition set_priority {host : Host} (e : SitemapEntry) (value : jsval)
  : result SitemapEntry :=
  if negb (truthy value) then Ok e
  else
    value' <- match value with
              | VNum _ => Ok value
              | _ =>
                  let n := parseFloat (ToString value) in
                  if isNaN n then Throw InvalidPriority else Ok (VNum n)
              end ;;
    Ok (store_priority e value').

(** [innerText]. *)
Fixpoint innerText (n : node) : string :=
  let 'Node type _ data children := n in
  if String.eqb type "text" then data
  else if String.eqb type "tag" then String.concat "" (map innerText children)
  else "".

(** The fields [nodeMapping] names. *)
Inductive field : Type :=
| f_url
| f_lastModified
| f_changeFrequency
| f_priority.

Definition nodeMapping (name : string) : option field :=
  if String.eqb name "loc" then Some f_url
  else if String.eqb name "lastmod" then Some f_lastModified
  else if String.eqb name "changefreq" then Some f_changeFrequency
  else if String.eqb name "priority" then Some f_priority
  else None.

(** [this[field] = text]. *)
Definition assign {host : Host} (e : SitemapEntry) (f : field) (text : string)
  : result SitemapEntry :=
  match f with
  | f_url => Ok (set_url e text)
  | f_lastModified => set_lastModified e (VStr text)
  | f_changeFrequency => Ok (set_changeFrequency e (VStr text))
  | f_priority => set_priority e (VStr text)
  end.

(** [SitemapEntry.prototype.readNode]. A child whose name is a property
    [nodeMapping] only inherits ([toString], ...) sets none of the four
    fields. *)
Definition readNode {host : Host} (e : SitemapEntry) (n : node)
  : result SitemapEntry :=
  foldM (fun e child =>
           match name child with
           | Some nm =>
               if is_empty nm then Ok e
               else match nodeMapping nm with
                    | Some f => assign e f (innerText child)
                    | None => Ok e
                    end
           | None => Ok e
           end)
        (children n) e.

(** [new SitemapEntry(node)]; [None] is a call without a node. *)
Definition SitemapEntry_new {host : Host} (n : option node) : result SitemapEntry :=
  match n with
  | Some n => readNode newSitemapEntry n
  | None => Ok newSitemapEntry
  end.

Definition ToString_url (u : option string) : string :=
  match u with
  | Some s => s
  | None => "null"
  end.

(** [this.priority && this.priority !== DEFAULT_PRIORITY]. *)
Definition priority_is_emitted (p : jsval) : bool :=
  truthy p
  && negb (match p with
           | VNum n => strict_eq n DEFAULT_PRIORITY
           | _ => false
           end).

(** [indent ? indent + '  ' : '']. *)
Definition innerIndentOf (indent : string) : string :=
  if is_empty indent then "" else (indent ++ "  ")%string.

(** [SitemapEntry.prototype.toXml]; an omitted [indent] is [""]. *)
Definition toXml {host : Host} (e : SitemapEntry) (indent : string) : string :=
  let innerIndent := innerIndentOf indent in
  let out := (indent ++ "<url>" ++ nl)%string in
  let out := (out ++ innerIndent ++ "<loc>" ++ ToString_url (url e)
                  ++ "</loc>" ++ nl)%string in
  let out :=
    if truthy (changeFrequency e)
    then (out ++ innerIndent ++ "<changefreq>"
              ++ ToString (changeFrequency e) ++ "</changefreq>" ++ nl)%string
    else out in
  let out :=
    if priority_is_emitted (priority e)
    then (out ++ innerIndent ++ "<priority>" ++ ToString (priority e)
              ++ "</priority>" ++ nl)%string
    else out in
  let out :=
    match lastModified e with
    | Some date =>
        (out ++ innerIndent ++ "<lastmod>" ++ formatDate date
             ++ "</lastmod>" ++ nl)%string
    | None => out
    end in
  (out ++ indent ++ "</url>")%string.

(* ================================================================== *)
(** * Documents ([Sitemap]) *)

(** An element of the item list: an entry, or the marker object
    [GENERATE_MAP]. *)
Inductive item : Type :=
| Entry (e : SitemapEntry)
| GENERATE_MAP.

Record Sitemap : Type := {
  items : list item
}.

(** The argument of the constructor: an array of items, or any other
    value. *)
Inductive contents : Type :=
| CArray (its : list item)
| CValue (v : jsval).

(** [n.name === v]. *)
Definition name_is (n : node) (v : string) : bool :=
  match name n with
  | Some nm => String.eqb nm v
  | None => false
  end.

(** [parseUrlsetNode]. *)
Definition parseUrlsetNode {host : Host} (n : node) : result (list item) :=
  foldM (fun out child =>
           if name_is child "url"
           then e <- SitemapEntry_new (Some child) ;; Ok (out ++ [Entry e])
           else if String.eqb (type n) "pi"
           then Ok (out ++ [GENERATE_MAP])
           else Ok out)
        (children n) [].

(** [parseSitemap]. *)
Definition parseSitemap {host : Host} (text : string) : result (list item) :=
  let dom := parseDOM text in
  foldM (fun result n =>
           if name_is n "urlset"
           then its <- parseUrlsetNode n ;; Ok (result ++ its)
           else Ok result)
        dom [].

(** [new Sitemap(contents)]. *)
Definition Sitemap_new {host : Host} (c : contents) : result Sitemap :=
  (* contents = contents || [] *)
  let c := match c with
           | CValue v => if truthy v then c else CArray []
           | CArray _ => c
           end in
  (* a string is parsed *)
  c <- match c with
       | CValue (VStr s) => its <- parseSitemap s ;; Ok (CArray its)
       | _ => Ok c
       end ;;
  match c with
  | CArray its => Ok {| items := its |}
  | CValue _ => Throw InvalidSitemapContents
  end.

(** [Sitemap.prototype.toXml]; the marker object has no [toXml]. *)
Definition Sitemap_toXml {host : Host} (sm : Sitemap) : result string :=
  lines <- mapM (fun it => match it with
                           | Entry e => Ok (toXml e "  ")
                           | GENERATE_MAP => Throw TypeError
                           end) (items sm) ;;
  Ok ("<?xml version=" ++ dq ++ "1.0" ++ dq ++ " encoding=" ++ dq ++ "UTF-8"
        ++ dq ++ "?>" ++ nl
        ++ "<urlset xmlns=" ++ dq
        ++ "http://www.sitemaps.org/schemas/sitemap/0.9" ++ dq ++ ">" ++ nl
        ++ String.concat nl lines
        ++ nl ++ "</urlset>" ++ nl)%string.

(** [Sitemap.fromFile]. *)
Definition fromFile {host : Host} {fs : FileSystem} (file : string) : result Sitemap :=
  text <- readFile file ;; Sitemap_new (CValue (VStr text)).

(* ================================================================== *)
(** * Paths (the POSIX [path] module) *)

Module Path.

(** [s.split('/')]. *)
Fixpoint split (s : string) : list string :=
  match s with
  | EmptyString => [EmptyString]
  | String c s' =>
      if Ascii.eqb c "/" then EmptyString :: split s'
      else match split s' with
           | h :: t => String c h :: t
           | [] => [String c EmptyString]
           end
  end.

Definition dots (n : nat) : list string := repeat ".." n.

(** [normalizeArray]: resolve [.] and [..] segments from the right;
    [up] counts the [..] segments still to be applied. *)
Definition normalizeArray (parts : list string) (allowAboveRoot : bool)
  : list string :=
  let '(kept, up) :=
    fold_right
      (fun part acc =>
         let '(kept, up) := acc in
         if String.eqb part "." then (kept, up)
         else if String.eqb part ".." then (kept, S up)
         else match up with
              | S up' => (kept, up')
              | O => (part :: kept, O)
              end)
      ([], O) parts in
  if allowAboveRoot then dots up ++ kept else kept.

(** [path.normalize]. *)
Definition normalize (p : string) : string :=
  let isAbsolute := is_char "/" (first_char p) in
  let trailingSlash := is_char "/" (last_char p) in
  let parts := filter (fun x => negb (is_empty x)) (split p) in
  let p := String.concat "/" (normalizeArray parts (negb isAbsolute)) in
  let p := if is_empty p && negb isAbsolute then "." else p in
  let p := if negb (is_empty p) && trailingSlash then (p ++ "/")%string
           else p in
  ((if isAbsolute then "/" else "") ++ p)%string.

(** [path.join(a, b)]. *)
Definition join (a b : string) : string :=
  normalize
    (String.concat "/" (filter (fun x => negb (is_empty x)) [a; b])).

(** The suffix of [s] that starts at its last dot. *)
Fixpoint from_last_dot (s : string) : option string :=
  match s with
  | EmptyString => None
  | String c s' =>
      match from_last_dot s' with
      | Some e => Some e
      | None => if Ascii.eqb c "." then Some s else None
      end
  end.

(** [path.extname] on a name without [/]: from the last dot on, unless
    that dot is the first character or the name is [..]. *)
Definition extname (entry : string) : string :=
  if String.eqb entry ".." then ""
  else match entry with
       | String _ rest =>
           match from_last_dot rest with
           | Some e => e
           | None => ""
           end
       | EmptyString => ""
       end.

End Path.

(* ================================================================== *)
(** * The generator ([lib/generate.js]) *)

(** [options.ext]: an array of extensions, or a predicate called with
    the entry and its index. *)
Inductive extFilter : Type :=
| ExtList (exts : list string)
| ExtFn (f : string -> nat -> bool).

(** [options.lastModified], [options.changeFrequency],
    [options.priority]: a value, or a function called with the URL, the
    stats and the entry. *)
Inductive setting : Type :=
| Literal (v : jsval)
| Callback (f : string -> Stats -> string -> jsval).

(** The options object the scanner reads. A property that is absent
    reads as [undefined]: [Literal VUndefined], [VUndefined], [None]. *)
Record options : Type := {
  opt_ext : extFilter;
  opt_index : option (list string);
  opt_lastModified : setting;
  opt_changeFrequency : setting;
  opt_priority : setting;
  opt_includeSitemap : jsval;
  opt_prefix : option string
}.

(** An object literal given to [extend]: [None] is a property the object
    does not have. *)
Record config : Type := {
  cfg_ext : option extFilter;
  cfg_index : option (option (list string));
  cfg_lastModified : option setting;
  cfg_changeFrequency : option setting;
  cfg_priority : option setting;
  cfg_includeSitemap : option jsval;
  cfg_prefix : option (option string)
}.

(** [{}] *)
Definition emptyConfig : config :=
  {| cfg_ext := None; cfg_index := None; cfg_lastModified := None;
     cfg_changeFrequency := None; cfg_priority := None;
     cfg_includeSitemap := None; cfg_prefix := None |}.

Definition override {A : Type} (base : A) (o : option A) : A :=
  match o with
  | Some a => a
  | None => base
  end.

(** [extend(options, c)] of [xtend]: a new object with the properties of
    [options], overridden by those [c] has. *)
Definition extend (o : options) (c : config) : options :=
  {| opt_ext := override (opt_ext o) (cfg_ext c);
     opt_index := override (opt_index o) (cfg_index c);
     opt_lastModified := override (opt_lastModified o) (cfg_lastModified c);
     opt_changeFrequency :=
       override (opt_changeFrequency o) (cfg_changeFrequency c);
     opt_priority := override (opt_priority o) (cfg_priority c);
     opt_includeSitemap :=
       override (opt_includeSitemap o) (cfg_includeSitemap c);
     opt_prefix := override (opt_prefix o) (cfg_prefix c) |}.

Definition defaultOptions : options :=
  {| opt_ext := ExtList [".html"; ".htm"];
     opt_index := Some ["index.html"; "index.htm"];
     opt_lastModified := Literal (VBool true);
     opt_changeFrequency := Literal VUndefined;
     opt_priority := Literal VUndefined;
     opt_includeSitemap := VBool true;
     opt_prefix := None |}.

(** [createUrl]. *)
Definition createUrl (entry : string) (prefix : option string)
  (ensureFinalSlash : bool) : string :=
  let entry := if is_char "/" (first_char entry) then slice1 entry
               else entry in
  let entry := match prefix with
               | Some p =>
                   if is_empty p then entry
                   else Path.normalize (Path.join p entry)
               | None => entry
               end in
  let entry := if is_char "/" (first_char entry) then entry
               else ("/" ++ entry)%string in
  if ensureFinalSlash && negb (is_char "/" (last_char entry))
  then (entry ++ "/")%string
  else entry.

(** [callIfFn(fn, [url, stats, entry], options)]. *)
Definition callIfFn (fn : setting) (url : string) (stats : Stats)
  (entry : string) : jsval :=
  match fn with
  | Callback f => f url stats entry
  | Literal v => v
  end.

(** [createSitemapEntry]. *)
Definition createSitemapEntry {host : Host} (entry : string) (o : options)
  (stats : Stats) (isFile : bool) : result SitemapEntry :=
  let sme := newSitemapEntry in
  let url := createUrl entry (opt_prefix o) isFile in
  let sme := set_url sme url in
  let sme :=
    set_changeFrequency sme (callIfFn (opt_changeFrequency o) url stats entry) in
  sme <- set_priority sme (callIfFn (opt_priority o) url stats entry) ;;
  match opt_lastModified o with
  | Literal (VBool true) => set_lastModified sme (VDate (mtime stats))
  | fn => set_lastModified sme (callIfFn fn url stats entry)
  end.

Fixpoint filter_indexed (f : string -> nat -> bool) (l : list string)
  (ix : nat) : list string :=
  match l with
  | [] => []
  | x :: l' =>
      if f x ix then x :: filter_indexed f l' (S ix)
      else filter_indexed f l' (S ix)
  end.

(** [filterEntries]. *)
Definition filterEntries (entries : list string) (ext : extFilter)
  (keepSitemap : jsval) : list string :=
  let filter :=
    match ext with
    | ExtFn f => f
    | ExtList exts =>
        fun entry _ =>
          let ext := Path.extname entry in
          is_empty ext || contains exts ext
    end in
  filter_indexed
    (fun entry ix =>
       if truthy keepSitemap && String.eqb entry "sitemap.xml" then true
       else filter entry ix)
    entries O.

(** [/^\w+:/] *)
Definition reProto : regex := cat [PlusClass is_word; Chr ":"].

(** The callback of [sitemap.items.map] in [getEmbeddedSitemap]. The
    [url] of an entry without one is [null] and that of the marker
    object is [undefined]; [createUrl] reads [entry[0]] of it. *)
Definition inheritPrefix (o : options) (it : item) : result item :=
  match it with
  | Entry e =>
      match url e with
      | Some u =>
          if test reProto u then Ok it
          else Ok (Entry (set_url e (createUrl u (opt_prefix o) false)))
      | None => if test reProto "null" then Ok it else Throw TypeError
      end
  | GENERATE_MAP =>
      if test reProto "undefined" then Ok it else Throw TypeError
  end.

(** [getEmbeddedSitemap]. *)
Definition getEmbeddedSitemap {host : Host} {fs : FileSystem} (file : string)
  (o : options) : result (list item) :=
  text <- readFile file ;;
  sitemap <- Sitemap_new (CValue (VStr text)) ;;
  mapM (inheritPrefix o) (items sitemap).

Definition prefixConfig (p : string) : config :=
  {| cfg_ext := None; cfg_index := None; cfg_lastModified := None;
     cfg_changeFrequency := None; cfg_priority := None;
     cfg_includeSitemap := None; cfg_prefix := Some (Some p) |}.

(** What a scan hands to its callback: the items, or the error. *)
Definition items_or_error : Type := result (list item).

(** [scanDir]. The recursion follows the directory tree, which the file
    system only gives through [readdir] and [stat]: [fuel] bounds the
    depth, and [None] is a scan that did not end within it. *)
Fixpoint scanDir {host : Host} {fs : FileSystem} (fuel : nat) (dir : string)
  (o : options) : option (result (list item)) :=
  match fuel with
  | O => None
  | S fuel' =>
      match readdir dir with
      | Throw err => Some (Throw err)
      | Ok entries =>
          let entries :=
            filterEntries entries (opt_ext o) (opt_includeSitemap o) in
          if truthy (opt_includeSitemap o) && contains entries "sitemap.xml"
          then Some (getEmbeddedSitemap (Path.join dir "sitemap.xml") o)
          else
            (fix next (entries : list string) (result : list item)
               : option items_or_error :=
               match entries with
               | [] => Some (Ok result)
               | entry :: entries' =>
                   let absEntry := Path.join dir entry in
                   match stat absEntry with
                   | Throw err => Some (Throw err)
                   | Ok stats =>
                       if isFile stats then
                         let isIndex :=
                           match opt_index o with
                           | Some ix => contains ix entry
                           | None => false
                           end in
                         match (if isIndex
                                then createSitemapEntry "" o stats true
                                else createSitemapEntry entry o stats false)
                         with
                         | Throw err => Some (Throw err)
                         | Ok sme => next entries' (result ++ [Entry sme])
                         end
                       else if isDirectory stats then
                         match
                           scanDir fuel' absEntry
                             (extend o
                                (prefixConfig
                                   (createUrl entry (opt_prefix o) true)))
                         with
                         | None => None
                         | Some (Throw err) => Some (Throw err)
                         | Some (Ok data) => next entries' (result ++ data)
                         end
                       else next entries' result
                   end
               end) entries []
      end
  end.

(** [module.exports] of [generate.js]; [None] for [cfg] is a call without
    options. *)
Definition generate {host : Host} {fs : FileSystem} (fuel : nat) (dir : string)
  (cfg : option config) : option (result Sitemap) :=
  let o := extend defaultOptions (override emptyConfig cfg) in
  match scanDir fuel dir o with
  | None => None
  | Some (Throw err) => Some (Throw err)
  | Some (Ok its) => Some (Sitemap_new (CArray its))
  end.

(* ================================================================== *)
(** * The arguments of the constructor, as the specification words them *)

(** An omitted argument ([undefined]) or an empty one ([null], the empty
    string). *)
Definition omitted_or_empty (v : jsval) : Prop :=
  v = VUndefined \/ v = VNull \/ v = VStr "".

(* ================================================================== *)
(** * Sequences of assignments to [priority] *)

(** A number that is not NaN. *)
Definition is_number (v : jsval) : Prop :=
  exists n, v = VNum n /\ isNaN n = false.

(** An assignment [e.priority = v]; an assignment that throws leaves the
    entry as it was. *)
Definition assign_priority {host : Host} (e : SitemapEntry) (v : jsval)
  : SitemapEntry :=
  match set_priority e v with
  | Ok e' => e'
  | Throw _ => e
  end.

(* ================================================================== *)
(** * An example host and directory tree *)

(** The tree of the test "generate with processing instruction": an
    embedded sitemap under [about/embedded-pi] that lists [/foo/] and
    holds a processing instruction, next to a directory [a] to scan. *)
Definition example_xml : string :=
  "<urlset><url><loc>/foo/</loc></url><?sitemap-generate?></urlset>".

(** The tree [htmlparser.parseDOM] builds for [example_xml] in XML mode:
    the processing instruction is a node of type ['directive']. *)
Definition example_urlset : node :=
  Node "tag" (Some "urlset") ""
    [Node "tag" (Some "url") ""
       [Node "tag" (Some "loc") "" [Node "text" None "/foo/" []]];
     Node "directive" (Some "?sitemap-generate") "?sitemap-generate?" []].

(** A host in the UTC zone whose parser knows [example_xml]; numbers
    print as the integer they are. *)
Definition exampleHost : Host :=
  {| LocalTZA := fun _ => 0;
     parseDOM := fun text =>
       if String.eqb text example_xml then [example_urlset] else [];
     numberToString := fun n =>
       match truncate n with
       | Some z => intToString z
       | None => "NaN"
       end;
     dateToString := fun date =>
       match timeValue date with
       | Some _ => "Thu Feb 29 2024 12:30:15 GMT+0000 (UTC)"
       | None => "Invalid Date"
       end |}.

Definition example_mtime : Date := MkDate (Some 1709209815000).

Definition example_dirs : list (string * list string) :=
  [("site-pi", ["about"]);
   ("site-pi/about", ["embedded-pi"; "index.html"]);
   ("site-pi/about/embedded-pi", ["a"; "sitemap.xml"]);
   ("site-pi/about/embedded-pi/a", ["include-it"; "index.html"]);
   ("site-pi/about/embedded-pi/a/include-it", ["index.html"])].

Definition example_files : list (string * string) :=
  [("site-pi/about/index.html", "<html></html>");
   ("site-pi/about/embedded-pi/sitemap.xml", example_xml);
   ("site-pi/about/embedded-pi/a/index.html", "<html></html>");
   ("site-pi/about/embedded-pi/a/include-it/index.html", "<html></html>")].

Fixpoint lookup {A : Type} (l : list (string * A)) (key : string) : option A :=
  match l with
  | [] => None
  | (k, v) :: l' => if String.eqb k key then Some v else lookup l' key
  end.

Definition exampleFS : FileSystem :=
  {| readdir := fun dir =>
       match lookup example_dirs dir with
       | Some names => Ok names
       | None => Throw (IOError "ENOENT")
       end;
     stat := fun file =>
       match lookup example_dirs file, lookup example_files file with
       | Some _, _ =>
           Ok {| isFile := false; isDirectory := true;
                 mtime := example_mtime |}
       | None, Some _ =>
           Ok {| isFile := true; isDirectory := false;
                 mtime := example_mtime |}
       | None, None => Throw (IOError "ENOENT")
       end;
     readFile := fun file =>
       match lookup example_files file with
       | Some text => Ok text
       | None => Throw (IOError "ENOENT")
       end |}.

(** [item.url]: [None] is [null] or [undefined]. *)
Definition item_url (it : item) : option string :=
  match it with
  | Entry e => url e
  | GENERATE_MAP => None
  end.

(** [{includeSitemap: v}] *)
Definition includeSitemapConfig (v : bool) : config :=
  {| cfg_ext := None; cfg_index := None; cfg_lastModified := None;
     cfg_changeFrequency := None; cfg_priority := None;
     cfg_includeSitemap := Some (VBool v); cfg_prefix := None |}.

(* ================================================================== *)
(** * Absolute URLs and inherited prefixes, as the specification words
      them *)

Fixpoint all_word (s : string) : bool :=
  match s with
  | EmptyString => true
  | String c s' => is_word c && all_word s'
  end.

(** A URL with a [scheme:] prefix. *)
Definition has_scheme (u : string) : Prop :=
  exists scheme rest,
    u = (scheme ++ ":" ++ rest)%string /\ scheme <> "" /\ all_word scheme = true.

(** An item of an embedded document, as the scan contributes it under
    the prefix of [o]: its URL inherits the prefix unless it has a
    scheme. *)
Definition contributed (o : options) (it : item) : item :=
  match it with
  | Entry e =>
      match url e with
      | Some u =>
          if test reProto u then it
          else Entry (set_url e (createUrl u (opt_prefix o) false))
      | None => it
      end
  | GENERATE_MAP => it
  end.

Definition has_url (it : item) : Prop := item_url it <> None.

(** A path segment "as a directory listing gives it": not empty, without
    [/], and neither [.] nor [..]. *)
Fixpoint slash_free (s : string) : bool :=
  match s with
  | EmptyString => true
  | String c s' => negb (Ascii.eqb c "/") && slash_free s'
  end.

Definition plain (s : string) : bool :=
  negb (is_empty s) && slash_free s
  && negb (String.eqb s ".") && negb (String.eqb s "..").

(** The URL of the directory reached by the segments [ps] from the root:
    [/], [/a/], [/a/b/]. *)
Definition dir_url (ps : list string) : string :=
  ("/" ++ String.concat "/" (ps ++ [""]))%string.

(** The segment after a final slash. *)
Definition tail_of (trailing : bool) : list string :=
  if trailing then [""] else [].

(** The relative path of the segments [us], with a final slash when
    [trailing]. *)
Definition rel_path (us : list string) (trailing : bool) : string :=
  String.concat "/" (us ++ tail_of trailing).

Definition not_empty (s : string) : bool := negb (is_empty s).

(* ================================================================== *)
(** * The accepted date forms, as the specification words them *)

Fixpoint all_digits (s : string) : bool :=
  match s with
  | EmptyString => true
  | String c s' => is_digit c && all_digits s'
  end.

(** A group of exactly [n] decimal digits. *)
Definition digits (n : nat) (w : string) : Prop :=
  String.length w = n /\ all_digits w = true.

(** [[:ss[.fraction]]] *)
Inductive seconds_part : string -> Prop :=
| no_seconds : seconds_part ""
| whole_seconds (ss : string) :
    digits 2 ss -> seconds_part (":" ++ ss)
| fractional_seconds (ss fraction : string) :
    digits 2 ss -> fraction <> "" -> all_digits fraction = true ->
    seconds_part (":" ++ ss ++ "." ++ fraction).

(** [±hh:mm] *)
Inductive offset_part : string -> Prop :=
| offset_form (sign hh mm : string) :
    sign = "+" \/ sign = "-" -> digits 2 hh -> digits 2 mm ->
    offset_part (sign ++ hh ++ ":" ++ mm).

(** [YYYY-MM-DDThh:mm[:ss[.fraction]]], without the zone. *)
Inductive datetime_part : string -> Prop :=
| datetime_form (YYYY MM DD hh mm sec : string) :
    digits 4 YYYY -> digits 2 MM -> digits 2 DD -> digits 2 hh ->
    digits 2 mm -> seconds_part sec ->
    datetime_part (YYYY ++ "-" ++ MM ++ "-" ++ DD ++ "T" ++ hh ++ ":" ++ mm
                        ++ sec).

(** The five accepted forms. *)
Inductive accepted_form : string -> Prop :=
| form_YYYY (YYYY : string) :
    digits 4 YYYY -> accepted_form YYYY
| form_YYYY_MM (YYYY MM : string) :
    digits 4 YYYY -> digits 2 MM -> accepted_form (YYYY ++ "-" ++ MM)
| form_YYYY_MM_DD (YYYY MM DD : string) :
    digits 4 YYYY -> digits 2 MM -> digits 2 DD ->
    accepted_form (YYYY ++ "-" ++ MM ++ "-" ++ DD)
| form_datetime_Z (dt : string) :
    datetime_part dt -> accepted_form (dt ++ "Z")
| form_datetime_offset (dt off : string) :
    datetime_part dt -> offset_part off -> accepted_form (dt ++ off).

(** What it means for a pattern to match the text [w] when [rest]
    follows it in the subject, whatever the order in which a matcher
    tries the alternatives. *)
Inductive matches : regex -> string -> string -> Prop :=
| M_Eps rest : matches Eps "" rest
| M_Chr a rest : matches (Chr a) (String a "") rest
| M_Class (p : ascii -> bool) b rest :
    p b = true -> matches (Class p) (String b "") rest
| M_Seq r1 r2 w1 w2 rest :
    matches r1 w1 (w2 ++ rest) -> matches r2 w2 rest ->
    matches (Seq r1 r2) (w1 ++ w2) rest
| M_AltL r1 r2 w rest : matches r1 w rest -> matches (Alt r1 r2) w rest
| M_AltR r1 r2 w rest : matches r2 w rest -> matches (Alt r1 r2) w rest
| M_OptSome r w rest : matches r w rest -> matches (Opt r) w rest
| M_OptNone r rest : matches (Opt r) "" rest
| M_PlusOne (p : ascii -> bool) b rest :
    p b = true -> matches (PlusClass p) (String b "") rest
| M_PlusMore (p : ascii -> bool) b w rest :
    p b = true -> matches (PlusClass p) w rest ->
    matches (PlusClass p) (String b w) rest
| M_Repeat0 r rest : matches (Repeat 0 r) "" rest
| M_RepeatS n r w1 w2 rest :
    matches r w1 (w2 ++ rest) -> matches (Repeat n r) w2 rest ->
    matches (Repeat (S n) r) (w1 ++ w2) rest
| M_Group i r w rest : matches r w rest -> matches (Group i r) w rest
| M_Eol : matches Eol "" "".

(** Strings of two and of four given characters, and the patterns of the
    date part and of the date and time part followed by any pattern [k]:
    [re_YYYY_MM_DD] is [date_fields Eol] and [re_datetime] is
    [datetime_fields] of its seconds, zone and [$]. *)
Definition str2 (a b : ascii) : string := String a (String b "").
Definition str4 (a b c e : ascii) : string :=
  String a (String b (String c (String e ""))).

Definition datetime_fields (k : regex) : regex :=
  Seq (Group 1 (Repeat 4 d)) (Seq (Chr "-")
  (Seq (Group 2 (Repeat 2 d)) (Seq (Chr "-")
  (Seq (Group 3 (Repeat 2 d)) (Seq (Chr "T")
  (Seq (Group 4 (Repeat 2 d)) (Seq (Chr ":")
  (Seq (Group 5 (Repeat 2 d)) k)))))))).

(** The offset [±hh:mm] of a zone, in milliseconds east of UTC. *)
Definition offset_ms (off : string) : Z :=
  match off with
  | String sign (String h1 (String h2 (String _ (String m1 (String m2 _))))) =>
      (if Ascii.eqb sign "-" then -1 else 1)
      * ((toNumberDigits (str2 h1 h2) * 60 + toNumberDigits (str2 m1 m2))
         * 60 * 1000)
  | _ => 0
  end.

(** [Z] or [±hh:mm]. *)
Inductive zone_part : string -> Prop :=
| zone_Z : zone_part "Z"
| zone_offset off : offset_part off -> zone_part off.

(** The groups 6 and 7 of the date and time pattern, given the text of
    the seconds part [[:ss[.fraction]]]. *)
Definition seconds_captures (sec : string) : captures :=
  match sec with
  | String _ (String a (String b EmptyString)) => [(6%nat, str2 a b)]
  | String _ (String a (String b fraction)) =>
      [(7%nat, fraction); (6%nat, str2 a b)]
  | _ => []
  end.

(** The seconds and the milliseconds a seconds part [[:ss[.fraction]]]
    stands for. *)
Definition seconds_of (sec : string) : Z :=
  match sec with
  | String _ (String a (String b _)) => toNumberDigits (str2 a b)
  | _ => 0
  end.

Definition fraction_of (sec : string) : option string :=
  match sec with
  | String _ (String _ (String _ (String dot fraction))) =>
      Some (String dot fraction)
  | _ => None
  end.

(** The time value of the fields [YYYY-MM-DDThh:mm[:ss[.fraction]]]
    taken as UTC. *)
Definition datetime_utc (YYYY MM DD hh mm sec : string) : option Z :=
  match fraction_ms (fraction_of sec) with
  | Some ms =>
      UTC (toNumberDigits YYYY) (toNumberDigits MM - 1) (toNumberDigits DD)
          (toNumberDigits hh) (toNumberDigits mm) (seconds_of sec) ms
  | None => None
  end.

(** The instant of a time value read in a zone: as it is for [Z], minus
    the offset of the zone otherwise. *)
Definition in_zone (zone : string) (time : option Z) : option Z :=
  if String.eqb zone "Z" then time
  else option_map (fun t => t - offset_ms zone) time.

(** Checks used to settle, by evaluation, what [pad] and [intToString]
    produce on the ranges of the date fields. *)
Definition check_pad (n : Z) : bool :=
  match pad (Some n) with
  | String a (String b EmptyString) =>
      is_digit a && is_digit b
      && (toNumberDigits (String a (String b EmptyString)) =? n)
  | _ => false
  end.

Definition check_year (n : Z) : bool :=
  match intToString n with
  | String a (String b (String c (String e EmptyString))) =>
      is_digit a && is_digit b && is_digit c && is_digit e
      && (toNumberDigits (String a (String b (String c (String e EmptyString))))
          =? n)
  | _ => false
  end.

Definition range (lo len : Z) : list Z :=
  map (fun k => lo + Z.of_nat k) (seq 0 (Z.to_nat len)).

(* ================================================================== *)
(** * Notions used to state further properties of the code *)

(** [{lastModified: s}] *)
Definition lastModifiedConfig (s : setting) : config :=
  {| cfg_ext := None; cfg_index := None; cfg_lastModified := Some s;
     cfg_changeFrequency := None; cfg_priority := None;
     cfg_includeSitemap := None; cfg_prefix := None |}.

(** The [Stats] of a regular file of the example tree. *)
Definition example_stats : Stats :=
  {| isFile := true; isDirectory := false; mtime := example_mtime |}.

(** What [readNode] does with one child of a [url] element: the
    callback of its [forEach]. *)
Definition readChild {host : Host} (e : SitemapEntry) (child : node)
  : result SitemapEntry :=
  match name child with
  | Some nm =>
      if is_empty nm then Ok e
      else match nodeMapping nm with
           | Some f => assign e f (innerText child)
           | None => Ok e
           end
  | None => Ok e
  end.

(** The last of the nodes [cs] whose name is [nm]. *)
Fixpoint last_named (nm : string) (cs : list node) : option node :=
  match cs with
  | [] => None
  | c :: cs' =>
      match last_named nm cs' with
      | Some c' => Some c'
      | None => if name_is c nm then Some c else None
      end
  end.

(** The item a [url] element stands for. *)
Definition url_item {host : Host} (c : node) : result item :=
  e <- SitemapEntry_new (Some c) ;; Ok (Entry e).

Definition is_url (c : node) : bool := name_is c "url".
Definition is_urlset (n : node) : bool := name_is n "urlset".

(** A host in the UTC zone whose parser returns the tree [dom] for every
    text. *)
Definition hostParsing (dom : list node) : Host :=
  {| LocalTZA := fun _ => 0;
     parseDOM := fun _ => dom;
     numberToString := numberToString (Host := exampleHost);
     dateToString := dateToString (Host := exampleHost) |}.

(** An element with a text in it. *)
Definition element (nm text : string) : node :=
  Node "tag" (Some nm) "" [Node "text" None text []].

(** The entries among the items of a document. *)
Fixpoint entries_of (its : list item) : list SitemapEntry :=
  match its with
  | [] => []
  | Entry e :: its' => e :: entries_of its'
  | GENERATE_MAP :: its' => entries_of its'
  end.

(** The text of a document whose [url] elements are [lines]. *)
Definition document_of (lines : list string) : string :=
  ("<?xml version=" ++ dq ++ "1.0" ++ dq ++ " encoding=" ++ dq ++ "UTF-8"
     ++ dq ++ "?>" ++ nl
     ++ "<urlset xmlns=" ++ dq
     ++ "http://www.sitemaps.org/schemas/sitemap/0.9" ++ dq ++ ">" ++ nl
     ++ String.concat nl lines
     ++ nl ++ "</urlset>" ++ nl)%string.

(** A sitemap index: a document whose root is not a [urlset]. *)
Definition example_index : list node :=
  [Node "directive" (Some "?xml") "?xml version='1.0'?" [];
   Node "tag" (Some "sitemapindex") ""
     [Node "tag" (Some "sitemap") "" [element "loc" "/sitemap1.xml"];
      Node "tag" (Some "urlset") ""
        [Node "tag" (Some "url") "" [element "loc" "/nested/"]]]].

(** A document with two [url] elements, the second with the date
    [text]. *)
Definition example_dated (text : string) : list node :=
  [Node "tag" (Some "urlset") ""
     [Node "tag" (Some "url") "" [element "loc" "/a/"];
      Node "tag" (Some "url") ""
        [element "loc" "/b/"; element "lastmod" text]]].

(** The loop [next] of [scanDir] over the entries of the directory
    [dir] that are left, [result] being the items found so far; [scan]
    is the scan of a subdirectory. *)
Definition scan_entries {host : Host} {fs : FileSystem}
  (scan : string -> options -> option items_or_error) (dir : string)
  (o : options) : list string -> list item -> option items_or_error :=
  fix next (entries : list string) (result : list item)
    : option items_or_error :=
    match entries with
    | [] => Some (Ok result)
    | entry :: entries' =>
        let absEntry := Path.join dir entry in
        match stat absEntry with
        | Throw err => Some (Throw err)
        | Ok stats =>
            if isFile stats then
              let isIndex :=
                match opt_index o with
                | Some ix => contains ix entry
                | None => false
                end in
              match (if isIndex
                     then createSitemapEntry "" o stats true
                     else createSitemapEntry entry o stats false)
              with
              | Throw err => Some (Throw err)
              | Ok sme => next entries' (result ++ [Entry sme])
              end
            else if isDirectory stats then
              match
                scan absEntry
                  (extend o
                     (prefixConfig (createUrl entry (opt_prefix o) true)))
              with
              | None => None
              | Some (Throw err) => Some (Throw err)
              | Some (Ok data) => next entries' (result ++ data)
              end
            else next entries' result
        end
    end.

(** [options.index && options.index.indexOf(entry) !== -1] *)
Definition is_index (o : options) (entry : string) : bool :=
  match opt_index o with
  | Some ix => contains ix entry
  | None => false
  end.

(** What one entry of the directory [dir] adds to the items of the
    scan: an entry for a file, the scan of a directory, nothing for
    anything else. *)
Definition contribution {host : Host} {fs : FileSystem}
  (scan : string -> options -> option items_or_error) (dir : string)
  (o : options) (entry : string) : option items_or_error :=
  match stat (Path.join dir entry) with
  | Throw err => Some (Throw err)
  | Ok stats =>
      if isFile stats then
        Some (sme <- (if is_index o entry
                      then createSitemapEntry "" o stats true
                      else createSitemapEntry entry o stats false) ;;
              Ok [Entry sme])
      else if isDirectory stats then
        scan (Path.join dir entry)
          (extend o (prefixConfig (createUrl entry (opt_prefix o) true)))
      else Some (Ok [])
  end.

(** Contributions put one after the other: the first one that is not a
    list of items is the outcome. *)
Fixpoint collect (cs : list (option items_or_error)) : option items_or_error :=
  match cs with
  | [] => Some (Ok [])
  | None :: _ => None
  | Some (Throw err) :: _ => Some (Throw err)
  | Some (Ok its) :: cs' =>
      match collect cs' with
      | None => None
      | Some (Throw err) => Some (Throw err)
      | Some (Ok rest) => Some (Ok (its ++ rest))
      end
  end.

(** An item a scan may return: an entry whose URL starts with a slash
    or has a scheme. *)
Definition rooted (it : item) : Prop :=
  exists e u,
    it = Entry e /\ url e = Some u
    /\ (first_char u = Some "/"%char \/ has_scheme u).

(** The prefix of the options is the URL of the directory reached by
    the segments [ps] from the root of the scan; at the root there may
    be no prefix at all. *)
Definition prefix_is (o : options) (ps : list string) : Prop :=
  opt_prefix o = Some (dir_url ps) \/ (ps = [] /\ opt_prefix o = None).

(** A name without a dot. *)
Fixpoint no_dot (s : string) : bool :=
  match s with
  | EmptyString => true
  | String c s' => negb (Ascii.eqb c ".") && no_dot s'
  end.

(** What the filter of [filterEntries] keeps, for a list of
    extensions. *)
Definition kept_by (exts : list string) (keepSitemap : jsval)
  (entry : string) : bool :=
  (truthy keepSitemap && String.eqb entry "sitemap.xml")
  || is_empty (Path.extname entry)
  || contains exts (Path.extname entry).

(** A measure of the example tree that decreases from a directory to
    the directories in it. *)
Definition example_depth (dir : string) : nat :=
  100 - String.length dir.

(** An embedded document whose second [url] element has no [loc]. *)
Definition example_unlocated : list node :=
  [Node "tag" (Some "urlset") ""
     [Node "tag" (Some "url") "" [element "loc" "/a/"];
      Node "tag" (Some "url") "" [element "priority" "0.8"]]].

(** A host three hours east of UTC. *)
Definition hostEast : Host :=
  {| LocalTZA := fun _ => 10800000;
     parseDOM := parseDOM (Host := exampleHost);
     numberToString := numberToString (Host := exampleHost);
     dateToString := dateToString (Host := exampleHost) |}.

(** The data of the text nodes that are reached from a node through
    nodes of type ['tag'] only, in document order. *)
Fixpoint text_leaves (n : node) : list string :=
  let 'Node type _ data children := n in
  if String.eqb type "text" then [data]
  else if String.eqb type "tag" then flat_map text_leaves children
  else [].

(** A CDATA section, as the parser gives it in XML mode: a node of type
    ['cdata'] around a text node. *)
Definition cdata (text : string) : node :=
  Node "cdata" None "" [Node "text" None text []].

(** A URL under a base URL. *)
Definition under_url (base u : string) : Prop :=
  exists rest, u = (base ++ rest)%string.

(** An entry whose URL lies under [base]. *)
Definition item_under (base : string) (it : item) : Prop :=
  exists e u, it = Entry e /\ url e = Some u /\ under_url base u.

(** The entry the generator makes, with the default options, of a file
    of the example tree. *)
Definition example_entry (u : string) : SitemapEntry :=
  {| url := Some u; changeFrequency := VUndefined;
     _lastModified := Some example_mtime;
     _priority := VNum DEFAULT_PRIORITY |}.


(* ================================================================== *)
(** * Properties of time values *)

Lemma DayFromYear_succ (y : Z) :
  DayFromYear (y + 1) = DayFromYear y + DaysInYear y.
Proof.
  unfold DayFromYear, DaysInYear.
  destruct (Z.eqb_spec (y mod 4) 0), (Z.eqb_spec (y mod 100) 0),
    (Z.eqb_spec (y mod 400) 0); cbn [negb];
    Z.div_mod_to_equations; lia.
Qed.

Lemma YearFromDay_spec (day : Z) :
  DayFromYear (YearFromDay day) <= day < DayFromYear (YearFromDay day + 1).
Proof.
  unfold YearFromDay.
  destruct (Z.leb_spec (DayFromYear (1970 + 400 * day / 146097 + 1)) day);
    [| destruct (Z.ltb_spec day (DayFromYear (1970 + 400 * day / 146097)))];
    unfold DayFromYear in *; Z.div_mod_to_equations; lia.
Qed.

Lemma DaysInYear_cases (y : Z) : DaysInYear y = 365 \/ DaysInYear y = 366.
Proof.
  unfold DaysInYear.
  destruct (y mod 4 =? 0), (y mod 100 =? 0), (y mod 400 =? 0); cbn; auto.
Qed.

Lemma DayWithinYear_range (t : Z) :
  0 <= DayWithinYear t < 365 + InLeapYear t.
Proof.
  unfold DayWithinYear, InLeapYear, YearFromTime.
  pose proof (YearFromDay_spec (Day t)) as H.
  rewrite DayFromYear_succ in H.
  destruct (DaysInYear_cases (YearFromDay (Day t))) as [E | E];
    rewrite E in *; cbn; lia.
Qed.

Lemma InLeapYear_cases (t : Z) : InLeapYear t = 0 \/ InLeapYear t = 1.
Proof.
  unfold InLeapYear. destruct (_ =? _); auto.
Qed.

Lemma MonthFromTime_range (t : Z) : 0 <= MonthFromTime t <= 11.
Proof.
  unfold MonthFromTime, MonthFromDay.
  repeat match goal with
         | |- context [?a <? ?b] => destruct (a <? b)
         end; lia.
Qed.

Lemma DateFromTime_range (t : Z) : 1 <= DateFromTime t <= 31.
Proof.
  unfold DateFromTime, MonthFromTime, MonthFromDay.
  pose proof (DayWithinYear_range t) as H.
  destruct (InLeapYear_cases t) as [E | E]; rewrite E in *;
    repeat match goal with
           | |- context [?a <? ?b] => destruct (Z.ltb_spec a b)
           end; cbn [MonthStart]; lia.
Qed.

Lemma HourFromTime_range (t : Z) : 0 <= HourFromTime t <= 23.
Proof. unfold HourFromTime. Z.div_mod_to_equations; lia. Qed.

Lemma MinFromTime_range (t : Z) : 0 <= MinFromTime t <= 59.
Proof. unfold MinFromTime. Z.div_mod_to_equations; lia. Qed.

Lemma SecFromTime_range (t : Z) : 0 <= SecFromTime t <= 59.
Proof. unfold SecFromTime. Z.div_mod_to_equations; lia. Qed.

(** The day number is recovered from the year, month and date it
    splits into. *)
Lemma MakeDay_fields (t : Z) :
  MakeDay (YearFromTime t) (MonthFromTime t) (DateFromTime t) = Day t.
Proof.
  pose proof (MonthFromTime_range t) as Hm.
  unfold MakeDay.
  replace (MonthFromTime t / 12) with 0 by (Z.div_mod_to_equations; lia).
  replace (MonthFromTime t mod 12) with (MonthFromTime t)
    by (Z.div_mod_to_equations; lia).
  rewrite Z.add_0_r.
  unfold DateFromTime, DayWithinYear.
  fold (InLeapYear t). lia.
Qed.

(** The time within the day is recovered from hours, minutes and
    seconds, up to the milliseconds. *)
Lemma MakeTime_fields (t : Z) :
  MakeTime (HourFromTime t) (MinFromTime t) (SecFromTime t) 0
  = TimeWithinDay t - t mod 1000.
Proof.
  unfold MakeTime, HourFromTime, MinFromTime, SecFromTime, TimeWithinDay,
    msPerHour, msPerMinute, msPerSecond, msPerDay.
  Z.div_mod_to_equations; lia.
Qed.

Lemma MakeDate_fields (t : Z) :
  MakeDate (MakeDay (YearFromTime t) (MonthFromTime t) (DateFromTime t))
           (MakeTime (HourFromTime t) (MinFromTime t) (SecFromTime t) 0)
  = t - t mod 1000.
Proof.
  rewrite MakeDay_fields, MakeTime_fields.
  unfold MakeDate, Day, TimeWithinDay, msPerDay.
  Z.div_mod_to_equations; lia.
Qed.

(** Dropping the milliseconds changes none of the fields. *)
Lemma fields_of_whole_seconds (t : Z) :
  Day (t - t mod 1000) = Day t
  /\ HourFromTime (t - t mod 1000) = HourFromTime t
  /\ MinFromTime (t - t mod 1000) = MinFromTime t
  /\ SecFromTime (t - t mod 1000) = SecFromTime t.
Proof.
  unfold Day, HourFromTime, MinFromTime, SecFromTime,
    msPerHour, msPerMinute, msPerSecond, msPerDay.
  repeat split; Z.div_mod_to_equations; lia.
Qed.

Lemma DayFromYear_mono (a b : Z) : a <= b -> DayFromYear a <= DayFromYear b.
Proof. intros H. unfold DayFromYear. Z.div_mod_to_equations. lia. Qed.

(** [YearFromTime t] is the largest year that starts at or before [t]. *)
Lemma YearFromTime_spec (t : Z) :
  TimeFromYear (YearFromTime t) <= t
  /\ forall y, TimeFromYear y <= t -> y <= YearFromTime t.
Proof.
  pose proof (YearFromDay_spec (Day t)) as [L U].
  fold (YearFromTime t) in L, U. split.
  - unfold TimeFromYear, Day, msPerDay in *. Z.div_mod_to_equations. lia.
  - intros y Hy.
    destruct (Z.le_gt_cases y (YearFromTime t)) as [|G]; [assumption |].
    pose proof (@DayFromYear_mono (YearFromTime t + 1) y ltac:(lia)) as M.
    unfold TimeFromYear, Day, msPerDay in *. Z.div_mod_to_equations. lia.
Qed.

Lemma YearFromDay_unique (y day : Z) :
  DayFromYear y <= day < DayFromYear (y + 1) -> YearFromDay day = y.
Proof.
  intros [L U]. pose proof (YearFromDay_spec day) as [L' U'].
  destruct (Z.lt_trichotomy (YearFromDay day) y) as [Lt | [E | Gt]];
    [| exact E |].
  - pose proof (@DayFromYear_mono (YearFromDay day + 1) y ltac:(lia)). lia.
  - pose proof (@DayFromYear_mono (y + 1) (YearFromDay day) ltac:(lia)). lia.
Qed.

(** [MakeDay year month 1] is the day number of a time value in that
    year and month, of date 1: the day ECMAScript defines as
    [MakeDay]'s. *)
Lemma MakeDay_first_of_month (year month : Z) :
  0 <= month <= 11 ->
  let t := MakeDay year month 1 * msPerDay in
  YearFromTime t = year /\ MonthFromTime t = month /\ DateFromTime t = 1.
Proof.
  intros Hm t.
  assert (D : Day t = MakeDay year month 1).
  { unfold t, Day, msPerDay. Z.div_mod_to_equations. lia. }
  assert (M : MakeDay year month 1
              = DayFromYear year
                + MonthStart month (if DaysInYear year =? 366 then 1 else 0)).
  { unfold MakeDay.
    replace (month / 12) with 0 by (Z.div_mod_to_equations; lia).
    replace (month mod 12) with month by (Z.div_mod_to_equations; lia).
    rewrite Z.add_0_r. lia. }
  assert (S : 0 <= MonthStart month (if DaysInYear year =? 366 then 1 else 0)
              < DaysInYear year).
  { destruct (DaysInYear_cases year) as [E | E]; rewrite E; cbn [Z.eqb Pos.eqb];
      assert (C : month = 0 \/ month = 1 \/ month = 2 \/ month = 3
                  \/ month = 4 \/ month = 5 \/ month = 6 \/ month = 7
                  \/ month = 8 \/ month = 9 \/ month = 10 \/ month = 11)
        by lia;
      repeat (destruct C as [-> | C]; [cbn; lia |]); rewrite C; cbn; lia. }
  assert (Y : YearFromTime t = year).
  { unfold YearFromTime. rewrite D, M. apply YearFromDay_unique.
    rewrite DayFromYear_succ. lia. }
  assert (L : InLeapYear t = if DaysInYear year =? 366 then 1 else 0)
    by (unfold InLeapYear; now rewrite Y).
  assert (W : DayWithinYear t
              = MonthStart month (if DaysInYear year =? 366 then 1 else 0))
    by (unfold DayWithinYear; rewrite D, Y, M; lia).
  assert (Mo : MonthFromTime t = month).
  { unfold MonthFromTime. rewrite W, L.
    assert (C : month = 0 \/ month = 1 \/ month = 2 \/ month = 3
                \/ month = 4 \/ month = 5 \/ month = 6 \/ month = 7
                \/ month = 8 \/ month = 9 \/ month = 10 \/ month = 11)
      by lia.
    destruct (DaysInYear year =? 366);
      repeat (destruct C as [-> | C]; [reflexivity |]); rewrite C;
      reflexivity. }
  repeat split; [exact Y | exact Mo |].
  unfold DateFromTime. rewrite W, Mo, L. lia.
Qed.

(* ================================================================== *)
(** * Properties of the date codec *)

Lemma in_range (lo len n : Z) :
  lo <= n < lo + len -> In n (range lo len).
Proof.
  intros H. unfold range.
  apply in_map_iff. exists (Z.to_nat (n - lo)). split; [lia |].
  apply in_seq. lia.
Qed.

Lemma pad_two_digits (n : Z) :
  0 <= n <= 99 ->
  exists a b,
    pad (Some n) = String a (String b EmptyString)
    /\ is_digit a = true /\ is_digit b = true
    /\ toNumberDigits (String a (String b EmptyString)) = n.
Proof.
  intros H.
  assert (All : forallb check_pad (range 0 100) = true) by (vm_compute; reflexivity).
  rewrite forallb_forall in All.
  specialize (All n (@in_range 0 100 n ltac:(lia))).
  unfold check_pad in All.
  destruct (pad (Some n)) as [| a [| b [| ? ?]]]; try discriminate.
  apply andb_prop in All as [All E]. apply andb_prop in All as [Ha Hb].
  exists a, b. rewrite Z.eqb_eq in E. auto.
Qed.

Lemma year_four_digits (n : Z) :
  1000 <= n <= 9999 ->
  exists a b c e,
    intToString n = String a (String b (String c (String e EmptyString)))
    /\ is_digit a = true /\ is_digit b = true /\ is_digit c = true
    /\ is_digit e = true
    /\ toNumberDigits (String a (String b (String c (String e EmptyString))))
       = n.
Proof.
  intros H.
  assert (All : forallb check_year (range 1000 9000) = true)
    by (vm_compute; reflexivity).
  rewrite forallb_forall in All.
  specialize (All n (@in_range 1000 9000 n ltac:(lia))).
  unfold check_year in All.
  destruct (intToString n) as [| a [| b [| c [| e [| ? ?]]]]]; try discriminate.
  apply andb_prop in All as [All E]. apply andb_prop in All as [All He].
  apply andb_prop in All as [All Hc]. apply andb_prop in All as [Ha Hb].
  exists a, b, c, e. rewrite Z.eqb_eq in E. auto 10.
Qed.

(* ================================================================== *)
(** * Properties of the matcher *)

Lemma append_assoc (a b c : string) : ((a ++ b) ++ c = a ++ (b ++ c))%string.
Proof. induction a; cbn; congruence. Qed.

Lemma append_nil_r (a : string) : (a ++ "")%string = a.
Proof. induction a; cbn; congruence. Qed.

Lemma plus_class_sound (p : ascii -> bool) (s : string) (c : captures)
  (m : match_state) :
  In m (plus_class p s c) ->
  s = (matched m ++ remaining m)%string
  /\ matches (PlusClass p) (matched m) (remaining m).
Proof.
  revert m. induction s as [| a s IH]; intros m Hin; cbn in Hin; [easy |].
  destruct (p a) eqn:Hp; [| easy].
  apply in_app_or in Hin as [Hin | [<- | []]].
  - apply in_map_iff in Hin as [m' [<- Hin]].
    destruct (IH _ Hin) as [E M]. cbn. split.
    + now f_equal.
    + now apply M_PlusMore.
  - cbn. split; [reflexivity | now apply M_PlusOne].
Qed.

(** Every way the matcher finds is a match in the sense of [matches],
    and splits the subject into the text matched and the rest. *)
Lemma run_sound (r : regex) :
  forall (s : string) (c : captures) (m : match_state),
    In m (run r s c) ->
    s = (matched m ++ remaining m)%string
    /\ matches r (matched m) (remaining m).
Proof.
  induction r as [| a | p | r1 IH1 r2 IH2 | r1 IH1 r2 IH2 | r1 IH1 | p
                 | n r1 IH1 | i r1 IH1 |]; intros s c m Hin.
  - destruct Hin as [<- | []]. cbn. split; [reflexivity | constructor].
  - cbn in Hin. destruct s as [| b s]; [easy |].
    destruct (Ascii.eqb_spec a b) as [-> | _]; [| easy].
    destruct Hin as [<- | []]. cbn. split; [reflexivity | constructor].
  - cbn in Hin. destruct s as [| b s]; [easy |].
    destruct (p b) eqn:Hp; [| easy].
    destruct Hin as [<- | []]. cbn. split; [reflexivity | now constructor].
  - cbn in Hin. apply in_flat_map in Hin as [m1 [H1 Hin]].
    apply in_map_iff in Hin as [m2 [<- H2]].
    destruct (IH1 _ _ _ H1) as [E1 M1], (IH2 _ _ _ H2) as [E2 M2].
    cbn. split.
    + rewrite append_assoc, <- E2. exact E1.
    + apply M_Seq; [now rewrite <- E2 | exact M2].
  - cbn in Hin. apply in_app_or in Hin as [Hin | Hin].
    + destruct (IH1 _ _ _ Hin). split; [| apply M_AltL]; assumption.
    + destruct (IH2 _ _ _ Hin). split; [| apply M_AltR]; assumption.
  - cbn in Hin. apply in_app_or in Hin as [Hin | [<- | []]].
    + destruct (IH1 _ _ _ Hin). split; [| apply M_OptSome]; assumption.
    + cbn. split; [reflexivity | apply M_OptNone].
  - now apply plus_class_sound with (c := c).
  - revert s c m Hin. induction n as [| n IHn]; intros s c m Hin.
    + destruct Hin as [<- | []]. cbn. split; [reflexivity | constructor].
    + cbn in Hin. apply in_flat_map in Hin as [m1 [H1 Hin]].
      apply in_map_iff in Hin as [m2 [<- H2]].
      destruct (IH1 _ _ _ H1) as [E1 M1], (IHn _ _ _ H2) as [E2 M2].
      cbn. split.
      * rewrite append_assoc, <- E2. exact E1.
      * apply M_RepeatS; [now rewrite <- E2 | exact M2].
  - cbn in Hin. apply in_map_iff in Hin as [m1 [<- H1]].
    destruct (IH1 _ _ _ H1). cbn. split; [| apply M_Group]; assumption.
  - cbn in Hin. destruct s; [| easy].
    destruct Hin as [<- | []]. cbn. split; [reflexivity | constructor].
Qed.

(** A successful [exec] matched the whole subject when the pattern ends
    with [$]. *)
Lemma exec_sound (r : regex) (s : string) (m : captures) :
  exec r s = Some m ->
  exists w rest, s = (w ++ rest)%string /\ matches r w rest.
Proof.
  unfold exec. destruct (run r s []) as [| m0 l] eqn:E; [easy |].
  intros _. exists (matched m0), (remaining m0).
  apply run_sound with (c := []). rewrite E. now left.
Qed.

Lemma digits_2 (w : string) :
  digits 2 w ->
  exists a b, w = str2 a b /\ is_digit a = true /\ is_digit b = true.
Proof.
  intros [L D]. destruct w as [| a [| b [| ? ?]]]; try discriminate.
  cbn in D. rewrite !andb_true_iff in D. exists a, b. tauto.
Qed.

Lemma digits_4 (w : string) :
  digits 4 w ->
  exists a b c e, w = str4 a b c e /\ is_digit a = true /\ is_digit b = true
                  /\ is_digit c = true /\ is_digit e = true.
Proof.
  intros [L D]. destruct w as [| a [| b [| c [| e [| ? ?]]]]]; try discriminate.
  cbn in D. rewrite !andb_true_iff in D. exists a, b, c, e. tauto.
Qed.

(** The greedy [\d+] takes all the digits in front of a character that is
    not a digit. *)
Lemma plus_class_digits (fraction : string) (z : ascii) (zs : string)
  (c : captures) :
  all_digits fraction = true -> fraction <> "" -> is_digit z = false ->
  exists tl,
    plus_class is_digit (fraction ++ String z zs)%string c
    = (fraction, String z zs, c) :: tl.
Proof.
  induction fraction as [| a fr IH]; [easy |]. intros D _ Hz.
  cbn in D. apply andb_prop in D as [Ha D].
  cbn [append plus_class]. rewrite Ha.
  destruct fr as [| b fr].
  - cbn. rewrite Hz. cbn. eauto.
  - destruct (IH D ltac:(easy) Hz) as [tl ->]. cbn. eauto.
Qed.

(** Evaluate the matcher on a text whose characters are known, or known
    to be digits. *)
Ltac crunch :=
  repeat (progress (
    cbn -[is_digit toNumberDigits Z.mul Z.add Z.sub Z.opp UTC fraction_ms
          newDate newDateLocal offset_ms];
    repeat match goal with
           | E : is_digit ?a = _ |- context [is_digit ?a] => rewrite E
           end)).

Lemma run_seconds_zone (sec zone : string) (c : captures) :
  seconds_part sec -> zone_part zone ->
  exists tl,
    run (cat [re_seconds; re_zone; Eol]) (sec ++ zone)%string c
    = ((sec ++ zone)%string, "", (8%nat, zone) :: seconds_captures sec ++ c)
        :: tl.
Proof.
  intros Hsec Hzone.
  assert (Z : exists z zs, zone = String z zs /\ is_digit z = false).
  { destruct Hzone as [| off [sign hh mm [-> | ->] _ _]]; cbn; eauto. }
  destruct Z as (z & zs & Ez & Hz).
  unfold re_seconds, re_zone, cat, d.
  destruct Hsec as [| ss Hss | ss fr Hss Hne Hfr];
    try (apply digits_2 in Hss as (s1 & s2 & -> & ? & ?)).
  3: destruct (@plus_class_digits fr z zs ((6%nat, str2 s1 s2) :: c) Hfr Hne Hz)
       as [tl E]; rewrite <- Ez in E; unfold str2 in E;
     cbn [append str2]; crunch; rewrite E; clear E.
  all: destruct Hzone as [| off [sign hh mm Hs Hh Hm]];
    try (apply digits_2 in Hh as (h1 & h2 & -> & ? & ?);
         apply digits_2 in Hm as (m1 & m2 & -> & ? & ?);
         destruct Hs as [-> | ->]).
  all: crunch; eauto.
  all: eexists; apply (f_equal2 cons); [| reflexivity].
  all: cbn; rewrite !append_nil_r; reflexivity.
Qed.

Lemma re_datetime_fields :
  re_datetime = datetime_fields (cat [re_seconds; re_zone; Eol]).
Proof. reflexivity. Qed.

Section DateTimeText.

Variables y1 y2 y3 y4 m1 m2 d1 d2 h1 h2 i1 i2 : ascii.
Hypothesis Hy1 : is_digit y1 = true.
Hypothesis Hy2 : is_digit y2 = true.
Hypothesis Hy3 : is_digit y3 = true.
Hypothesis Hy4 : is_digit y4 = true.
Hypothesis Hm1 : is_digit m1 = true.
Hypothesis Hm2 : is_digit m2 = true.
Hypothesis Hd1 : is_digit d1 = true.
Hypothesis Hd2 : is_digit d2 = true.
Hypothesis Hh1 : is_digit h1 = true.
Hypothesis Hh2 : is_digit h2 = true.
Hypothesis Hi1 : is_digit i1 = true.
Hypothesis Hi2 : is_digit i2 = true.

(** [YYYY-MM-DDThh:mm] followed by [tail]. *)
Let text (tail : string) : string :=
  (str4 y1 y2 y3 y4 ++ "-" ++ str2 m1 m2 ++ "-" ++ str2 d1 d2 ++ "T"
     ++ str2 h1 h2 ++ ":" ++ str2 i1 i2 ++ tail)%string.

Let fields : captures :=
  [(5%nat, str2 i1 i2); (4%nat, str2 h1 h2); (3%nat, str2 d1 d2);
   (2%nat, str2 m1 m2); (1%nat, str4 y1 y2 y3 y4)].

Lemma run_datetime_fields (k : regex) (tail : string) :
  run (datetime_fields k) (text tail) []
  = map (after (text "")) (run k tail fields).
Proof using All.
  unfold datetime_fields, d, text, fields. crunch.
  rewrite !app_nil_r, !map_map. apply map_ext. now intros [[w r] c].
Qed.

Lemma exec_datetime (sec zone : string) :
  seconds_part sec -> zone_part zone ->
  exec re_datetime (text (sec ++ zone))
  = Some ((O, text (sec ++ zone)) :: (8%nat, zone)
            :: seconds_captures sec ++ fields).
Proof using All.
  intros Hsec Hzone. rewrite re_datetime_fields. unfold exec.
  rewrite run_datetime_fields.
  destruct (run_seconds_zone fields Hsec Hzone) as [tl ->].
  reflexivity.
Qed.

Lemma exec_YYYY_datetime (tail : string) : exec re_YYYY (text tail) = None.
Proof using All. unfold exec, re_YYYY, cat, d, text. now crunch. Qed.

Lemma exec_YYYY_MM_datetime (tail : string) :
  exec re_YYYY_MM (text tail) = None.
Proof using All. unfold exec, re_YYYY_MM, cat, d, text. now crunch. Qed.

Lemma exec_YYYY_MM_DD_datetime (tail : string) :
  exec re_YYYY_MM_DD (text tail) = None.
Proof using All. unfold exec, re_YYYY_MM_DD, cat, d, text. now crunch. Qed.

Lemma parseDate_datetime {host : Host} (sec zone : string) :
  seconds_part sec -> zone_part zone ->
  parseDate (text (sec ++ zone))
  = Ok (newDate (in_zone zone
          (datetime_utc (str4 y1 y2 y3 y4) (str2 m1 m2) (str2 d1 d2)
                        (str2 h1 h2) (str2 i1 i2) sec))).
Proof using All.
  intros Hsec Hzone. unfold parseDate.
  rewrite exec_YYYY_datetime, exec_YYYY_MM_datetime,
    exec_YYYY_MM_DD_datetime, (exec_datetime Hsec Hzone).
  generalize (text (sec ++ zone)). intros whole.
  unfold in_zone, datetime_utc, fields, group_is, num.
  destruct Hsec as [| ss Hss | ss fr Hss Hne Hfr];
    try (apply digits_2 in Hss as (s1 & s2 & -> & ? & ?)).
  3: destruct fr as [| f fr]; [easy |].
  all: destruct Hzone as [| off [sign hh mm Hs Hh Hm]];
    try (apply digits_2 in Hh as (a1 & a2 & -> & ? & ?);
         apply digits_2 in Hm as (b1 & b2 & -> & ? & ?);
         destruct Hs as [-> | ->]).
  all: cbn -[fraction_ms UTC newDate toNumberDigits is_digit exec offset_ms
             Z.mul Z.add Z.sub Z.opp].
  all: try reflexivity.
  all: unfold exec, re_offset, cat, d; crunch.
  all: match goal with
       | |- Ok (newDate (option_map _ ?x)) = _ => destruct x
       end; cbn [option_map]; [do 3 f_equal | reflexivity].
  all: unfold offset_ms, str2;
    cbn -[toNumberDigits Z.mul Z.add Z.sub Z.opp]; lia.
Qed.
End DateTimeText.

Lemma parseDate_YYYY {host : Host} (y1 y2 y3 y4 : ascii) :
  is_digit y1 = true -> is_digit y2 = true -> is_digit y3 = true ->
  is_digit y4 = true ->
  parseDate (str4 y1 y2 y3 y4)
  = Ok (newDateLocal (toNumberDigits (str4 y1 y2 y3 y4)) 0 1).
Proof.
  intros. unfold parseDate, exec, re_YYYY, cat, d, num. now crunch.
Qed.

Lemma parseDate_YYYY_MM {host : Host} (y1 y2 y3 y4 m1 m2 : ascii) :
  is_digit y1 = true -> is_digit y2 = true -> is_digit y3 = true ->
  is_digit y4 = true -> is_digit m1 = true -> is_digit m2 = true ->
  parseDate (str4 y1 y2 y3 y4 ++ "-" ++ str2 m1 m2)
  = Ok (newDateLocal (toNumberDigits (str4 y1 y2 y3 y4))
                     (toNumberDigits (str2 m1 m2) - 1) 1).
Proof.
  intros. unfold parseDate, exec, re_YYYY, re_YYYY_MM, cat, d, num.
  now crunch.
Qed.

Lemma parseDate_YYYY_MM_DD {host : Host} (y1 y2 y3 y4 m1 m2 d1 d2 : ascii) :
  is_digit y1 = true -> is_digit y2 = true -> is_digit y3 = true ->
  is_digit y4 = true -> is_digit m1 = true -> is_digit m2 = true ->
  is_digit d1 = true -> is_digit d2 = true ->
  parseDate (str4 y1 y2 y3 y4 ++ "-" ++ str2 m1 m2 ++ "-" ++ str2 d1 d2)
  = Ok (newDateLocal (toNumberDigits (str4 y1 y2 y3 y4))
                     (toNumberDigits (str2 m1 m2) - 1)
                     (toNumberDigits (str2 d1 d2))).
Proof.
  intros.
  unfold parseDate, exec, re_YYYY, re_YYYY_MM, re_YYYY_MM_DD, cat, d, num.
  now crunch.
Qed.

(** A date and time text parses in every zone, to the instant its
    fields denote in that zone. *)
Lemma parseDate_datetime_part {host : Host} (dt : string) :
  datetime_part dt ->
  exists time,
    forall zone, zone_part zone ->
      parseDate (dt ++ zone) = Ok (newDate (in_zone zone time)).
Proof.
  intros [Y M D h mi sec HY HM HD Hh Hmi Hsec].
  apply digits_4 in HY as (y1 & y2 & y3 & y4 & -> & ? & ? & ? & ?).
  apply digits_2 in HM as (m1 & m2 & -> & ? & ?).
  apply digits_2 in HD as (d1 & d2 & -> & ? & ?).
  apply digits_2 in Hh as (h1 & h2 & -> & ? & ?).
  apply digits_2 in Hmi as (i1 & i2 & -> & ? & ?).
  eexists. intros zone Hzone.
  now apply (@parseDate_datetime y1 y2 y3 y4 m1 m2 d1 d2 h1 h2 i1 i2).
Qed.

(** Every accepted form parses. *)
Lemma parseDate_accepted {host : Host} (s : string) :
  accepted_form s -> exists date, parseDate s = Ok date.
Proof.
  intros [Y HY | Y M HY HM | Y M D HY HM HD | dt Hdt | dt off Hdt Hoff].
  - apply digits_4 in HY as (y1 & y2 & y3 & y4 & -> & ? & ? & ? & ?).
    rewrite parseDate_YYYY by assumption. eauto.
  - apply digits_4 in HY as (y1 & y2 & y3 & y4 & -> & ? & ? & ? & ?).
    apply digits_2 in HM as (m1 & m2 & -> & ? & ?).
    rewrite parseDate_YYYY_MM by assumption. eauto.
  - apply digits_4 in HY as (y1 & y2 & y3 & y4 & -> & ? & ? & ? & ?).
    apply digits_2 in HM as (m1 & m2 & -> & ? & ?).
    apply digits_2 in HD as (d1 & d2 & -> & ? & ?).
    rewrite parseDate_YYYY_MM_DD by assumption. eauto.
  - destruct (parseDate_datetime_part Hdt) as [time Ht].
    rewrite (Ht "Z" zone_Z). eauto.
  - destruct (parseDate_datetime_part Hdt) as [time Ht].
    rewrite (Ht off (zone_offset Hoff)). eauto.
Qed.

(** ** From a match to the accepted forms *)

Lemma matches_digit (w rest : string) :
  matches d w rest -> exists a, w = String a "" /\ is_digit a = true.
Proof. inversion 1; subst. eauto. Qed.

Lemma matches_digits_2 (w rest : string) :
  matches (Repeat 2 d) w rest -> digits 2 w.
Proof.
  intros M.
  inversion M as [| | | | | | | | | | | n r w1 w2 r0 M1 M2 |  |]; subst.
  inversion M2 as [| | | | | | | | | | | n r w3 w4 r0 M3 M4 |  |]; subst.
  inversion M4; subst.
  apply matches_digit in M1 as (a & -> & Ha), M3 as (b & -> & Hb).
  split; cbn; [reflexivity | now rewrite Ha, Hb].
Qed.

Lemma matches_digits_4 (w rest : string) :
  matches (Repeat 4 d) w rest -> digits 4 w.
Proof.
  intros M.
  inversion M as [| | | | | | | | | | | n r w1 w2 r0 M1 M2 |  |]; subst.
  inversion M2 as [| | | | | | | | | | | n r w3 w4 r0 M3 M4 |  |]; subst.
  inversion M4 as [| | | | | | | | | | | n r w5 w6 r0 M5 M6 |  |]; subst.
  inversion M6 as [| | | | | | | | | | | n r w7 w8 r0 M7 M8 |  |]; subst.
  inversion M8; subst.
  apply matches_digit in M1 as (a & -> & Ha), M3 as (b & -> & Hb),
    M5 as (c & -> & Hc), M7 as (e & -> & He).
  split; cbn; [reflexivity | now rewrite Ha, Hb, Hc, He].
Qed.

Lemma matches_plus_digits (w rest : string) :
  matches (PlusClass is_digit) w rest -> w <> "" /\ all_digits w = true.
Proof.
  remember (PlusClass is_digit) as r eqn:E.
  induction 1; try discriminate; injection E as ->.
  - cbn. now rewrite H.
  - destruct (IHmatches eq_refl) as [_ D]. cbn. now rewrite H, D.
Qed.

(** Invert a match of a sequence, a group or a character. *)
Ltac invert_matches :=
  repeat match goal with
         | M : matches (Seq _ _) _ _ |- _ => inversion M; subst; clear M
         | M : matches (Group _ _) _ _ |- _ => inversion M; subst; clear M
         | M : matches (Chr _) _ _ |- _ => inversion M; subst; clear M
         | M : matches Eps _ _ |- _ => inversion M; subst; clear M
         | M : matches Eol _ _ |- _ => inversion M; subst; clear M
         | M : matches (Repeat 2 d) _ _ |- _ => apply matches_digits_2 in M
         | M : matches (Repeat 4 d) _ _ |- _ => apply matches_digits_4 in M
         end.

Lemma matches_seconds (w rest : string) :
  matches re_seconds w rest -> seconds_part w.
Proof.
  unfold re_seconds, cat, fold_right. intros M.
  inversion M; subst; clear M; [| apply no_seconds].
  invert_matches.
  match goal with
  | M : matches (Opt _) _ _ |- _ => inversion M; subst; clear M
  end.
  - invert_matches.
    match goal with
    | M : matches (PlusClass _) _ _ |- _ =>
        apply matches_plus_digits in M as [Hne Hfr]
    end.
    rewrite !append_nil_r. now apply fractional_seconds.
  - rewrite !append_nil_r. now apply whole_seconds.
Qed.

Lemma matches_zone (w rest : string) :
  matches re_zone w rest -> zone_part w.
Proof.
  unfold re_zone, cat, fold_right. intros M. invert_matches.
  match goal with
  | M : matches (Alt _ _) _ _ |- _ => inversion M; subst; clear M
  end; invert_matches.
  - apply zone_Z.
  - match goal with
    | M : matches (Class is_sign) _ _ |- _ => inversion M; subst; clear M
    end.
    rewrite !append_nil_r. apply zone_offset.
    apply offset_form; try assumption.
    match goal with
    | Hb : is_sign _ = true |- _ =>
        unfold is_sign in Hb; apply orb_prop in Hb as [Hb | Hb];
        apply Ascii.eqb_eq in Hb; subst; auto
    end.
Qed.

Ltac tidy_text :=
  cbn [append] in *; subst; rewrite ?append_nil_r.

Lemma exec_YYYY_accepted (s : string) (m : captures) :
  exec re_YYYY s = Some m -> accepted_form s.
Proof.
  intros E. apply exec_sound in E as (w & rest & -> & M).
  unfold re_YYYY, cat, fold_right in M. invert_matches. tidy_text.
  now apply form_YYYY.
Qed.

Lemma exec_YYYY_MM_accepted (s : string) (m : captures) :
  exec re_YYYY_MM s = Some m -> accepted_form s.
Proof.
  intros E. apply exec_sound in E as (w & rest & -> & M).
  unfold re_YYYY_MM, cat, fold_right in M. invert_matches. tidy_text.
  now apply form_YYYY_MM.
Qed.

Lemma exec_YYYY_MM_DD_accepted (s : string) (m : captures) :
  exec re_YYYY_MM_DD s = Some m -> accepted_form s.
Proof.
  intros E. apply exec_sound in E as (w & rest & -> & M).
  unfold re_YYYY_MM_DD, cat, fold_right in M. invert_matches. tidy_text.
  now apply form_YYYY_MM_DD.
Qed.

Lemma datetime_text_assoc (Y M D h mi sec zone : string) :
  (Y ++ "-" ++ M ++ "-" ++ D ++ "T" ++ h ++ ":" ++ mi ++ sec ++ zone
   = (Y ++ "-" ++ M ++ "-" ++ D ++ "T" ++ h ++ ":" ++ mi ++ sec) ++ zone)%string.
Proof.
  repeat (rewrite append_assoc; cbn [append]). reflexivity.
Qed.

Lemma exec_datetime_accepted (s : string) (m : captures) :
  exec re_datetime s = Some m -> accepted_form s.
Proof.
  intros E. apply exec_sound in E as (w & rest & -> & M).
  unfold re_datetime, cat, fold_right in M. invert_matches. tidy_text.
  repeat match goal with
         | M : matches re_seconds _ _ |- _ => apply matches_seconds in M
         | M : matches re_zone _ _ |- _ => apply matches_zone in M
         end.
  match goal with
  | |- accepted_form
         (?Y ++ String _ (?M ++ String _ (?D ++ String _
            (?h ++ String _ (?mi ++ ?sec ++ ?zone)))))%string =>
      change (accepted_form
                (Y ++ "-" ++ M ++ "-" ++ D ++ "T" ++ h ++ ":" ++ mi ++ sec
                   ++ zone));
      rewrite (datetime_text_assoc Y M D h mi sec zone);
      assert (Hdt : datetime_part
                (Y ++ "-" ++ M ++ "-" ++ D ++ "T" ++ h ++ ":" ++ mi ++ sec))
        by (now apply datetime_form)
  end.
  match goal with
  | Z : zone_part _ |- _ => destruct Z as [| off Hoff]
  end.
  - now apply form_datetime_Z.
  - now apply form_datetime_offset.
Qed.

(** [parseDate] fails, with [InvalidDateFormat], on anything but the
    accepted forms. *)
Lemma parseDate_not_accepted {host : Host} (s : string) :
  ~ accepted_form s -> parseDate s = Throw (InvalidDateFormat s).
Proof.
  intros N. unfold parseDate.
  destruct (exec re_YYYY s) eqn:E1;
    [now apply exec_YYYY_accepted in E1 |].
  destruct (exec re_YYYY_MM s) eqn:E2;
    [now apply exec_YYYY_MM_accepted in E2 |].
  destruct (exec re_YYYY_MM_DD s) eqn:E3;
    [now apply exec_YYYY_MM_DD_accepted in E3 |].
  destruct (exec re_datetime s) eqn:E4;
    [now apply exec_datetime_accepted in E4 |].
  reflexivity.
Qed.

(** ** Formatting, and parsing what was formatted *)

Lemma date_fields_of_day (t u : Z) :
  Day t = Day u ->
  YearFromTime t = YearFromTime u /\ MonthFromTime t = MonthFromTime u
  /\ DateFromTime t = DateFromTime u.
Proof.
  intros E.
  assert (Y : YearFromTime t = YearFromTime u)
    by (unfold YearFromTime; now rewrite E).
  assert (L : InLeapYear t = InLeapYear u)
    by (unfold InLeapYear; now rewrite Y).
  assert (W : DayWithinYear t = DayWithinYear u)
    by (unfold DayWithinYear; now rewrite E, Y).
  assert (M : MonthFromTime t = MonthFromTime u)
    by (unfold MonthFromTime; now rewrite W, L).
  repeat split; try assumption.
  unfold DateFromTime. now rewrite W, M, L.
Qed.

(** Formatting ignores the milliseconds. *)
Lemma formatDate_whole_seconds (t : Z) :
  formatDate (MkDate (Some (t - t mod 1000))) = formatDate (MkDate (Some t)).
Proof.
  destruct (fields_of_whole_seconds t) as (D & Hh & Hm & Hs).
  destruct (@date_fields_of_day _ _ D) as (Y & M & Dt).
  unfold formatDate, getUTCFullYear, getUTCMonth, getUTCDate, getUTCHours,
    getUTCMinutes, getUTCSeconds. cbn [timeValue option_map].
  now rewrite Y, M, Dt, Hh, Hm, Hs.
Qed.

Lemma year_range_time (t : Z) :
  1000 <= YearFromTime t <= 9999 ->
  -8640000000000000 <= t - t mod 1000 <= 8640000000000000.
Proof.
  intros Hy. pose proof (YearFromDay_spec (Day t)) as S.
  fold (YearFromTime t) in S.
  assert (DayFromYear 1000 <= DayFromYear (YearFromTime t))
    by (unfold DayFromYear; Z.div_mod_to_equations; lia).
  assert (DayFromYear (YearFromTime t + 1) <= DayFromYear 10000)
    by (unfold DayFromYear; Z.div_mod_to_equations; lia).
  assert (DayFromYear 1000 = -354285) by reflexivity.
  assert (DayFromYear 10000 = 2932897) by reflexivity.
  unfold Day, msPerDay in S. Z.div_mod_to_equations. lia.
Qed.

Lemma TimeClip_in_range (x : Z) :
  -8640000000000000 <= x <= 8640000000000000 -> TimeClip x = Some x.
Proof.
  intros R. unfold TimeClip.
  destruct (Z.ltb_spec 8640000000000000 (Z.abs x)); [lia | reflexivity].
Qed.

Lemma fraction_ms_absent : fraction_ms None = Some 0.
Proof. vm_compute. reflexivity. Qed.

(** The text [formatDate] gives for a time value in the years 1000 to
    9999 parses back to the same instant, less its milliseconds. *)
Lemma parseDate_formatDate {host : Host} (t : Z) :
  1000 <= YearFromTime t <= 9999 ->
  parseDate (formatDate (MkDate (Some t)))
  = Ok (MkDate (Some (t - t mod 1000))).
Proof.
  intros Hy.
  destruct (@year_four_digits (YearFromTime t) Hy)
    as (y1 & y2 & y3 & y4 & EY & Hy1 & Hy2 & Hy3 & Hy4 & VY).
  pose proof (MonthFromTime_range t) as RM.
  pose proof (DateFromTime_range t) as RD.
  pose proof (HourFromTime_range t) as Rh.
  pose proof (MinFromTime_range t) as Ri.
  pose proof (SecFromTime_range t) as Rs.
  destruct (@pad_two_digits (MonthFromTime t + 1) ltac:(lia))
    as (m1 & m2 & EM & Hm1 & Hm2 & VM).
  destruct (@pad_two_digits (DateFromTime t) ltac:(lia))
    as (d1 & d2 & ED & Hd1 & Hd2 & VD).
  destruct (@pad_two_digits (HourFromTime t) ltac:(lia))
    as (h1 & h2 & Eh & Hh1 & Hh2 & Vh).
  destruct (@pad_two_digits (MinFromTime t) ltac:(lia))
    as (i1 & i2 & Ei & Hi1 & Hi2 & Vi).
  destruct (@pad_two_digits (SecFromTime t) ltac:(lia))
    as (s1 & s2 & Es & Hs1 & Hs2 & Vs).
  unfold formatDate, getUTCFullYear, getUTCMonth, getUTCDate, getUTCHours,
    getUTCMinutes, getUTCSeconds. cbn [timeValue option_map numStr].
  rewrite EY, EM, ED, Eh, Ei, Es.
  assert (Hsec : seconds_part (":" ++ str2 s1 s2)).
  { apply whole_seconds. split; cbn; [reflexivity | now rewrite Hs1, Hs2]. }
  pose proof (@parseDate_datetime y1 y2 y3 y4 m1 m2 d1 d2 h1 h2 i1 i2
                Hy1 Hy2 Hy3 Hy4 Hm1 Hm2 Hd1 Hd2 Hh1 Hh2 Hi1 Hi2
                _ (":" ++ str2 s1 s2) "Z" Hsec zone_Z) as P.
  cbn [append str2 str4] in P |- *. rewrite P. clear P.
  unfold in_zone, datetime_utc, str2, str4.
  cbn [String.eqb Ascii.eqb Bool.eqb fraction_of seconds_of append].
  rewrite fraction_ms_absent. unfold str2.
  rewrite VY, VM, VD, Vh, Vi, Vs.
  replace (MonthFromTime t + 1 - 1) with (MonthFromTime t) by lia.
  unfold UTC, FullYear.
  replace ((0 <=? YearFromTime t) && (YearFromTime t <=? 99)) with false
    by (symmetry; apply andb_false_iff; right; apply Z.leb_gt; lia).
  rewrite MakeDate_fields.
  pose proof (@year_range_time t Hy) as R.
  unfold newDate. now rewrite !(TimeClip_in_range R).
Qed.


(* ================================================================== *)
(** * Claims about the date codec *)

(** The text [formatDate] gives for a time value in the years 1000 to
    9999: the UTC fields of the time value, each at its width. *)
Lemma formatDate_shape (t : Z) :
  1000 <= YearFromTime t <= 9999 ->
  exists YYYY MM DD hh mm ss,
    formatDate (MkDate (Some t))
    = (YYYY ++ "-" ++ MM ++ "-" ++ DD ++ "T" ++ hh ++ ":" ++ mm ++ ":" ++ ss
            ++ "Z")%string
    /\ (digits 4 YYYY /\ toNumberDigits YYYY = YearFromTime t)
    /\ (digits 2 MM /\ toNumberDigits MM = MonthFromTime t + 1)
    /\ (digits 2 DD /\ toNumberDigits DD = DateFromTime t)
    /\ (digits 2 hh /\ toNumberDigits hh = HourFromTime t)
    /\ (digits 2 mm /\ toNumberDigits mm = MinFromTime t)
    /\ (digits 2 ss /\ toNumberDigits ss = SecFromTime t).
Proof.
  intros Hy.
  destruct (@year_four_digits (YearFromTime t) Hy)
    as (y1 & y2 & y3 & y4 & EY & Hy1 & Hy2 & Hy3 & Hy4 & VY).
  pose proof (MonthFromTime_range t) as RM.
  pose proof (DateFromTime_range t) as RD.
  pose proof (HourFromTime_range t) as Rh.
  pose proof (MinFromTime_range t) as Ri.
  pose proof (SecFromTime_range t) as Rs.
  destruct (@pad_two_digits (MonthFromTime t + 1) ltac:(lia))
    as (m1 & m2 & EM & Hm1 & Hm2 & VM).
  destruct (@pad_two_digits (DateFromTime t) ltac:(lia))
    as (d1 & d2 & ED & Hd1 & Hd2 & VD).
  destruct (@pad_two_digits (HourFromTime t) ltac:(lia))
    as (h1 & h2 & Eh & Hh1 & Hh2 & Vh).
  destruct (@pad_two_digits (MinFromTime t) ltac:(lia))
    as (i1 & i2 & Ei & Hi1 & Hi2 & Vi).
  destruct (@pad_two_digits (SecFromTime t) ltac:(lia))
    as (s1 & s2 & Es & Hs1 & Hs2 & Vs).
  exists (str4 y1 y2 y3 y4), (str2 m1 m2), (str2 d1 d2), (str2 h1 h2),
    (str2 i1 i2), (str2 s1 s2).
  split.
  - unfold formatDate, getUTCFullYear, getUTCMonth, getUTCDate, getUTCHours,
      getUTCMinutes, getUTCSeconds. cbn [timeValue option_map numStr].
    now rewrite EY, EM, ED, Eh, Ei, Es.
  - unfold digits, str2, str4. cbn [String.length all_digits].
    rewrite Hy1, Hy2, Hy3, Hy4, Hm1, Hm2, Hd1, Hd2, Hh1, Hh2, Hi1, Hi2,
      Hs1, Hs2.
    repeat split; assumption.
Qed.

(** C7 (as the code has it). For every time value [t] whose UTC year has
    four digits (1000 to 9999), [formatDate] emits
    [YYYY-MM-DDThh:mm:ssZ] with the UTC fields of [t], [parseDate] reads
    that text back as the same instant at whole-second precision,
    [t - t mod 1000], and formatting the instant read gives the same
    text again: [format (parse (format t)) = format t]. *)
Theorem format_parse_format {host : Host} (t : Z) :
  1000 <= YearFromTime t <= 9999 ->
  (exists YYYY MM DD hh mm ss,
     formatDate (MkDate (Some t))
     = (YYYY ++ "-" ++ MM ++ "-" ++ DD ++ "T" ++ hh ++ ":" ++ mm ++ ":" ++ ss
             ++ "Z")%string
     /\ (digits 4 YYYY /\ toNumberDigits YYYY = YearFromTime t)
     /\ (digits 2 MM /\ toNumberDigits MM = MonthFromTime t + 1)
     /\ (digits 2 DD /\ toNumberDigits DD = DateFromTime t)
     /\ (digits 2 hh /\ toNumberDigits hh = HourFromTime t)
     /\ (digits 2 mm /\ toNumberDigits mm = MinFromTime t)
     /\ (digits 2 ss /\ toNumberDigits ss = SecFromTime t))
  /\ parseDate (formatDate (MkDate (Some t)))
     = Ok (MkDate (Some (t - t mod 1000)))
  /\ (date <- parseDate (formatDate (MkDate (Some t))) ;; Ok (formatDate date))
     = Ok (formatDate (MkDate (Some t))).
Proof.
  intros Hy. split; [now apply formatDate_shape |].
  rewrite (@parseDate_formatDate _ t Hy). split; [reflexivity |].
  cbn [bind]. now rewrite formatDate_whole_seconds.
Qed.

Lemma format_parse_format_witness :
  1000 <= YearFromTime 1709209815999 <= 9999
  /\ parseDate (host := exampleHost) (formatDate (MkDate (Some 1709209815999)))
     = Ok (MkDate (Some 1709209815000))
  /\ formatDate (MkDate (Some 1709209815999)) = "2024-02-29T12:30:15Z".
Proof.
  assert (Hy : 1000 <= YearFromTime 1709209815999 <= 9999)
    by (vm_compute; split; discriminate).
  split; [exact Hy |].
  split; [| reflexivity].
  exact (proj1 (proj2 (@format_parse_format exampleHost 1709209815999 Hy))).
Defined.

(** C7 as stated fails for a time value whose year has five digits:
    the first instant of the year 10000 is formatted as
    [10000-01-01T00:00:00Z], which [parseDate] rejects. *)
Lemma format_parse_format_counterexample :
  formatDate (MkDate (Some 253402300800000)) = "10000-01-01T00:00:00Z"
  /\ parseDate (host := exampleHost) (formatDate (MkDate (Some 253402300800000)))
     = Throw (InvalidDateFormat "10000-01-01T00:00:00Z")
  /\ (date <- parseDate (host := exampleHost)
                (formatDate (MkDate (Some 253402300800000))) ;;
      Ok (formatDate date))
     <> Ok (formatDate (MkDate (Some 253402300800000))).
Proof.
  repeat split; try (vm_compute; reflexivity).
  vm_compute. discriminate.
Qed.

Lemma offset_is_not_Z (off : string) :
  offset_part off -> String.eqb off "Z" = false.
Proof. intros [sign hh mm [-> | ->] _ _]; reflexivity. Qed.

(** C8. [parseDate] succeeds on every text of one of the five accepted
    forms and fails with [InvalidDateFormat] on every other text; a date
    and time with [Z] is the time value of its fields taken as UTC, and
    with an offset [±hh:mm] it is that time value minus the offset. *)
Theorem parseDate_accepts_exactly_the_forms {host : Host} :
  (forall s, accepted_form s -> exists date, parseDate s = Ok date)
  /\ (forall s, ~ accepted_form s -> parseDate s = Throw (InvalidDateFormat s))
  /\ (forall YYYY MM DD hh mm sec,
        digits 4 YYYY -> digits 2 MM -> digits 2 DD -> digits 2 hh ->
        digits 2 mm -> seconds_part sec ->
        let text :=
          (YYYY ++ "-" ++ MM ++ "-" ++ DD ++ "T" ++ hh ++ ":" ++ mm ++ sec)%string
        in
        let utc := datetime_utc YYYY MM DD hh mm sec in
        parseDate (text ++ "Z") = Ok (newDate utc)
        /\ forall off, offset_part off ->
             parseDate (text ++ off)
             = Ok (newDate (option_map (fun t => t - offset_ms off) utc))).
Proof.
  split; [exact parseDate_accepted |].
  split; [exact parseDate_not_accepted |].
  intros Y M D h mi sec HY HM HD Hh Hmi Hsec text utc. subst text utc.
  apply digits_4 in HY as (y1 & y2 & y3 & y4 & -> & Hy1 & Hy2 & Hy3 & Hy4).
  apply digits_2 in HM as (m1 & m2 & -> & Hm1 & Hm2).
  apply digits_2 in HD as (d1 & d2 & -> & Hd1 & Hd2).
  apply digits_2 in Hh as (h1 & h2 & -> & Hh1 & Hh2).
  apply digits_2 in Hmi as (i1 & i2 & -> & Hi1 & Hi2).
  pose proof (fun zone => @parseDate_datetime y1 y2 y3 y4 m1 m2 d1 d2 h1 h2 i1 i2
                Hy1 Hy2 Hy3 Hy4 Hm1 Hm2 Hd1 Hd2 Hh1 Hh2 Hi1 Hi2
                _ sec zone Hsec) as P.
  split.
  - rewrite <- datetime_text_assoc. exact (P "Z" zone_Z).
  - intros off Hoff. rewrite <- datetime_text_assoc.
    rewrite (P off (zone_offset Hoff)). unfold in_zone.
    now rewrite (offset_is_not_Z Hoff).
Qed.

Lemma digits_intro (n : nat) (w : string) :
  (String.length w =? n)%nat && all_digits w = true -> digits n w.
Proof.
  intros E. apply andb_prop in E as [L D]. apply Nat.eqb_eq in L. now split.
Qed.

Lemma parseDate_accepts_exactly_the_forms_witness :
  (exists date, parseDate (host := exampleHost) "2024-02" = Ok date)
  /\ parseDate (host := exampleHost) "29/02/2024"
     = Throw (InvalidDateFormat "29/02/2024")
  /\ parseDate (host := exampleHost) "2024-02-29T12:30:15.5+01:00"
     = Ok (MkDate (Some 1709206215500)).
Proof.
  destruct (@parseDate_accepts_exactly_the_forms exampleHost)
    as (Accepts & Rejects & Zones).
  split; [| split].
  - apply Accepts.
    apply (@form_YYYY_MM "2024" "02"); apply digits_intro; reflexivity.
  - apply Rejects. intros A. apply (@parseDate_accepted exampleHost) in A.
    destruct A as [date E]. vm_compute in E. discriminate.
  - assert (Hoff : offset_part "+01:00").
    { apply (@offset_form "+" "01" "00"); [now left | |];
        apply digits_intro; reflexivity. }
    assert (Hsec : seconds_part ":15.5").
    { apply (@fractional_seconds "15" "5");
        [apply digits_intro; reflexivity | discriminate | reflexivity]. }
    pose proof (proj2 (@Zones "2024" "02" "29" "12" "30" ":15.5"
              ltac:(apply digits_intro; reflexivity)
              ltac:(apply digits_intro; reflexivity)
              ltac:(apply digits_intro; reflexivity)
              ltac:(apply digits_intro; reflexivity)
              ltac:(apply digits_intro; reflexivity) Hsec) "+01:00" Hoff) as E.
    cbn [append] in E. rewrite E. vm_compute. reflexivity.
Defined.

(* ================================================================== *)
(** * Claims about entries *)

Lemma truthy_string (s : string) : truthy (VStr s) = true <-> s <> "".
Proof. destruct s; cbn; split; congruence. Qed.

(** C6 (as the code has it). Assigning a falsy value ([undefined],
    [null], [false], [0], [NaN], the empty string) to [priority] keeps
    the current value; a string that is not empty and that [parseFloat]
    does not read as a number fails with [InvalidPriority]; a string
    that [parseFloat] reads as a number stores that number; a truthy
    number is stored as it is; and before any assignment the priority is
    0.5. *)
Theorem set_priority_cases {host : Host} (e : SitemapEntry) :
  (forall v, truthy v = false -> set_priority e v = Ok e)
  /\ (forall s, s <> "" -> isNaN (parseFloat s) = true ->
        set_priority e (VStr s) = Throw InvalidPriority)
  /\ (forall s, s <> "" -> isNaN (parseFloat s) = false ->
        set_priority e (VStr s) = Ok (store_priority e (VNum (parseFloat s))))
  /\ (forall n, truthy (VNum n) = true ->
        set_priority e (VNum n) = Ok (store_priority e (VNum n)))
  /\ priority newSitemapEntry = VNum DEFAULT_PRIORITY
  /\ DEFAULT_PRIORITY = parseFloat "0.5".
Proof.
  repeat split.
  - intros v F. unfold set_priority. now rewrite F.
  - intros s Hs N. apply truthy_string in Hs. unfold set_priority.
    rewrite Hs. cbn [negb ToString bind]. now rewrite N.
  - intros s Hs N. apply truthy_string in Hs. unfold set_priority.
    rewrite Hs. cbn [negb ToString bind]. now rewrite N.
  - intros n T. unfold set_priority. now rewrite T.
Qed.

Lemma set_priority_cases_witness :
  set_priority (host := exampleHost) newSitemapEntry (VNum (S754_zero false))
  = Ok newSitemapEntry
  /\ set_priority (host := exampleHost) newSitemapEntry (VStr "high")
     = Throw InvalidPriority
  /\ set_priority (host := exampleHost) newSitemapEntry (VStr "1")
     = Ok (store_priority newSitemapEntry (VNum (parseFloat "1")))
  /\ set_priority (host := exampleHost) newSitemapEntry (VNum (parseFloat "1"))
     = Ok (store_priority newSitemapEntry (VNum (parseFloat "1"))).
Proof.
  destruct (@set_priority_cases exampleHost newSitemapEntry)
    as (Falsy & Invalid & Numeric & Number & _).
  split; [| split; [| split]].
  - apply Falsy. reflexivity.
  - apply Invalid; [discriminate | reflexivity].
  - apply Numeric; [discriminate | reflexivity].
  - apply Number. reflexivity.
Defined.

(** C6 as stated fails: the priority can be set to 0 through the setter,
    by assigning the string ["0"], which is truthy and which [parseFloat]
    reads as the number 0. *)
Lemma set_priority_counterexample :
  truthy (VStr "0") = true
  /\ parseFloat "0" = S754_zero false
  /\ set_priority (host := exampleHost) newSitemapEntry (VStr "0")
     = Ok (store_priority newSitemapEntry (VNum (S754_zero false)))
  /\ priority (store_priority newSitemapEntry (VNum (S754_zero false)))
     = VNum (S754_zero false).
Proof. repeat split. Qed.

Lemma set_priority_keeps_number {host : Host} (e e' : SitemapEntry) (v : jsval) :
  is_number (priority e) -> set_priority e v = Ok e' ->
  is_number (priority e').
Proof.
  intros I. unfold set_priority.
  destruct (truthy v) eqn:T; cbn [negb]; [| now intros [= <-]].
  destruct v as [| | b | n | s | dt | r]; try discriminate T; cbn [bind].
  2: { intros [= <-]. exists n. split; [reflexivity |].
       destruct n; try reflexivity; discriminate T. }
  all: destruct (isNaN (parseFloat _)) eqn:N; [discriminate |];
    cbn [bind]; intros [= <-]; eexists; split; [reflexivity | exact N].
Qed.

Lemma set_lastModified_priority {host : Host} (e e' : SitemapEntry) (v : jsval) :
  set_lastModified e v = Ok e' -> priority e' = priority e.
Proof.
  unfold set_lastModified.
  destruct v as [| | b | n | s | dt | r]; cbn [bind];
    try discriminate; try (now intros [= <-]).
  destruct (parseDate s); cbn [bind]; [now intros [= <-] | discriminate].
Qed.

Lemma readNode_keeps_number {host : Host} (n : node) (e e' : SitemapEntry) :
  is_number (priority e) -> readNode e n = Ok e' -> is_number (priority e').
Proof.
  unfold readNode. generalize (children n) as l.
  intros l. revert e. induction l as [| child l IH]; intros e I.
  - now intros [= <-].
  - cbn [foldM].
    match goal with
    | |- bind ?step _ = _ -> _ => destruct step as [e1 |] eqn:E
    end; [| discriminate].
    cbn [bind]. apply IH.
    destruct (name child) as [nm |]; [| now injection E as <-].
    destruct (is_empty nm); [now injection E as <- |].
    destruct (nodeMapping nm) as [[| | |] |]; cbn [assign] in E.
    + now injection E as <-.
    + apply set_lastModified_priority in E. unfold priority in *.
      now rewrite E.
    + now injection E as <-.
    + exact (@set_priority_keeps_number _ e e1 _ I E).
    + now injection E as <-.
Qed.

(** C10. The priority of an entry is always a number other than NaN: it
    is 0.5 in a new entry, assigning NaN changes nothing, every
    assignment that succeeds leaves a number other than NaN, and so does
    every sequence of assignments, failed ones included; the entries the
    parser reads from a node and those the generator creates have such a
    priority too. *)
Theorem priority_is_always_a_number {host : Host} :
  is_number (priority newSitemapEntry)
  /\ (forall e, set_priority e (VNum NaN) = Ok e)
  /\ (forall e v e',
        is_number (priority e) -> set_priority e v = Ok e' ->
        is_number (priority e'))
  /\ (forall vs,
        is_number (priority (fold_left assign_priority vs newSitemapEntry)))
  /\ (forall n e, SitemapEntry_new n = Ok e -> is_number (priority e))
  /\ (forall entry o stats isFile e,
        createSitemapEntry entry o stats isFile = Ok e ->
        is_number (priority e)).
Proof.
  assert (I0 : is_number (priority newSitemapEntry))
    by (exists DEFAULT_PRIORITY; split; reflexivity).
  split; [exact I0 |]. split; [reflexivity |].
  split; [intros e v e'; apply set_priority_keeps_number |].
  split; [| split].
  - intros vs. revert I0. generalize newSitemapEntry.
    induction vs as [| v vs IH]; intros e I; [exact I |].
    cbn [fold_left]. apply IH. unfold assign_priority.
    destruct (set_priority e v) as [e' |] eqn:E; [| exact I].
    exact (@set_priority_keeps_number _ e e' v I E).
  - intros [n |] e; cbn [SitemapEntry_new].
    + now apply readNode_keeps_number.
    + now intros [= <-].
  - intros entry o stats isFile e. unfold createSitemapEntry.
    match goal with
    | |- bind ?step _ = _ -> _ => destruct step as [e1 |] eqn:E
    end; [| discriminate].
    cbn [bind]. apply set_priority_keeps_number in E; [| exact I0].
    intros L.
    assert (P : priority e = priority e1).
    { destruct (opt_lastModified o) as [[| | [|] | | | |] |];
        exact (set_lastModified_priority _ _ L). }
    unfold priority in *. now rewrite P.
Qed.

Lemma priority_is_always_a_number_witness :
  is_number (priority (store_priority newSitemapEntry (VNum (parseFloat "1"))))
  /\ is_number
       (priority
          (fold_left (assign_priority (host := exampleHost))
             [VStr "0.8"; VNum NaN; VStr "high"; VNull; VStr "0"]
             newSitemapEntry)).
Proof.
  destruct (@priority_is_always_a_number exampleHost)
    as (New & _ & Step & Sequences & _).
  split.
  - apply (Step newSitemapEntry (VStr "1")); [exact New | reflexivity].
  - apply Sequences.
Defined.

(* ================================================================== *)
(** * Claims about serialization and documents *)

(** C9 (as the code has it). [toXml] writes, between [<url>] and
    [</url>] at the indent given, the elements [loc], [changefreq],
    [priority] and [lastmod] in that order, each on a line of its own:
    [loc] always; [changefreq] when [changeFrequency] is truthy and only
    then; [priority] only when the priority differs from the default
    0.5; [lastmod], formatted by [formatDate], when [lastModified] is
    present and only then. The elements are indented two spaces more
    than [<url>] when the indent is not empty, as in a document, where
    it is two spaces; with an empty indent they are not indented. *)
Theorem toXml_elements {host : Host} (e : SitemapEntry) (indent : string) :
  let inner := innerIndentOf indent in
  let line (tag text : string) : string :=
    (inner ++ "<" ++ tag ++ ">" ++ text ++ "</" ++ tag ++ ">" ++ nl)%string in
  exists changefreq priority_line lastmod,
    toXml e indent
    = (indent ++ "<url>" ++ nl
        ++ line "loc" (ToString_url (url e))
        ++ changefreq ++ priority_line ++ lastmod
        ++ indent ++ "</url>")%string
    /\ changefreq
       = (if truthy (changeFrequency e)
          then line "changefreq" (ToString (changeFrequency e)) else "")
    /\ priority_line
       = (if priority_is_emitted (priority e)
          then line "priority" (ToString (priority e)) else "")
    /\ (priority_is_emitted (priority e) = true ->
        forall n, priority e = VNum n -> strict_eq n DEFAULT_PRIORITY = false)
    /\ lastmod
       = match lastModified e with
         | Some date => line "lastmod" (formatDate date)
         | None => ""
         end
    /\ (indent <> "" -> inner = (indent ++ "  ")%string)
    /\ (indent = "" -> inner = "")
    /\ innerIndentOf "  " = "    ".
Proof.
  intros inner line.
  exists (if truthy (changeFrequency e)
          then line "changefreq" (ToString (changeFrequency e)) else ""),
    (if priority_is_emitted (priority e)
     then line "priority" (ToString (priority e)) else ""),
    (match lastModified e with
     | Some date => line "lastmod" (formatDate date)
     | None => ""
     end).
  split; [| split; [reflexivity | split; [reflexivity |
    split; [| split; [reflexivity | split; [| split]]]]]].
  - unfold toXml. fold inner.
    destruct (truthy (changeFrequency e)),
      (priority_is_emitted (priority e)), (lastModified e);
      subst line; cbn beta;
      repeat (rewrite ?append_assoc; cbn [append]); reflexivity.
  - intros P n E. rewrite E in P.
    unfold priority_is_emitted in P. apply andb_prop in P as [_ P].
    now apply negb_true_iff in P.
  - intros Hne. subst inner. unfold innerIndentOf.
    destruct indent; [easy | reflexivity].
  - now intros ->.
  - reflexivity.
Qed.

Lemma toXml_elements_witness :
  innerIndentOf "  " = "    "
  /\ strict_eq (parseFloat "1") DEFAULT_PRIORITY = false
  /\ toXml (host := exampleHost)
       {| url := Some "/a/"; changeFrequency := VStr "daily";
          _lastModified := Some example_mtime;
          _priority := VNum (parseFloat "1") |} "  "
     = ("  <url>" ++ nl ++ "    <loc>/a/</loc>" ++ nl
        ++ "    <changefreq>daily</changefreq>" ++ nl
        ++ "    <priority>1</priority>" ++ nl
        ++ "    <lastmod>2024-02-29T12:30:15Z</lastmod>" ++ nl
        ++ "  </url>")%string.
Proof.
  pose (e := {| url := Some "/a/"; changeFrequency := VStr "daily";
                _lastModified := Some example_mtime;
                _priority := VNum (parseFloat "1") |}).
  destruct (@toXml_elements exampleHost e "  ")
    as (cf & pr & lm & E & Ecf & Epr & Differs & Elm & Inner & _).
  split; [apply Inner; discriminate |].
  split; [apply (Differs eq_refl (parseFloat "1") eq_refl) |].
  fold e. rewrite E, Ecf, Epr, Elm. reflexivity.
Defined.

(** C9 as stated fails for an empty (or omitted) indent: the elements
    of the entry are then written under [<url>] without any indent. *)
Lemma toXml_elements_counterexample :
  toXml (host := exampleHost) (set_url newSitemapEntry "/a/") ""
  = ("<url>" ++ nl ++ "<loc>/a/</loc>" ++ nl ++ "</url>")%string
  /\ innerIndentOf "" <> ("" ++ "  ")%string.
Proof. split; [reflexivity | discriminate]. Qed.

(** C3 (as the code has it). The constructor of a document: an omitted
    argument, and any falsy one ([null], [false], [0], [NaN], the empty
    string), gives an empty item list; a string that is not empty is
    parsed and the items read are the item list, the parser's failure
    being the constructor's; an array is the item list as it is; any
    other value fails with [InvalidSitemapContents]. *)
Theorem Sitemap_new_cases {host : Host} :
  (forall v, omitted_or_empty v ->
     Sitemap_new (CValue v) = Ok {| items := [] |})
  /\ (forall v, truthy v = false ->
        Sitemap_new (CValue v) = Ok {| items := [] |})
  /\ (forall s, s <> "" ->
        Sitemap_new (CValue (VStr s))
        = (its <- parseSitemap s ;; Ok {| items := its |}))
  /\ (forall its, Sitemap_new (CArray its) = Ok {| items := its |})
  /\ (forall v, truthy v = true -> (forall s, v <> VStr s) ->
        Sitemap_new (CValue v) = Throw InvalidSitemapContents).
Proof.
  split; [now intros v [-> | [-> | ->]] |].
  split; [| split; [| split; [reflexivity |]]].
  - intros v F. unfold Sitemap_new. now rewrite F.
  - intros s Hs. apply truthy_string in Hs. unfold Sitemap_new.
    rewrite Hs. now destruct (parseSitemap s).
  - intros v T N. unfold Sitemap_new. rewrite T.
    destruct v; try reflexivity. now destruct (N s).
Qed.

Lemma Sitemap_new_cases_witness :
  Sitemap_new (host := exampleHost) (CValue VNull) = Ok {| items := [] |}
  /\ Sitemap_new (host := exampleHost) (CValue (VNum NaN))
     = Ok {| items := [] |}
  /\ Sitemap_new (host := exampleHost) (CValue (VStr example_xml))
     = Ok {| items := [Entry (set_url newSitemapEntry "/foo/")] |}
  /\ Sitemap_new (host := exampleHost) (CValue (VObject "[object Object]"))
     = Throw InvalidSitemapContents.
Proof.
  destruct (@Sitemap_new_cases exampleHost)
    as (Empty & Falsy & Text & _ & Other).
  split; [| split; [| split]].
  - apply Empty. right. now left.
  - apply Falsy. reflexivity.
  - rewrite Text by discriminate. reflexivity.
  - apply Other; [reflexivity | discriminate].
Defined.

(** C3 as stated fails for [false], which is neither omitted nor empty,
    nor a string, nor an array: the constructor does not fail but
    builds an empty document, as it does for 0. *)
Lemma Sitemap_new_counterexample :
  ~ omitted_or_empty (VBool false)
  /\ Sitemap_new (host := exampleHost) (CValue (VBool false))
     = Ok {| items := [] |}
  /\ Sitemap_new (host := exampleHost) (CValue (VNum (parseFloat "0")))
     = Ok {| items := [] |}.
Proof.
  split; [| split; reflexivity].
  intros [E | [E | E]]; discriminate E.
Qed.

(** ** The marker of a processing instruction *)

Lemma foldM_invariant {A S : Type} (P : S -> Prop) (f : S -> A -> result S)
  (l : list A) :
  (forall s a s', P s -> f s a = Ok s' -> P s') ->
  forall s s', P s -> foldM f l s = Ok s' -> P s'.
Proof.
  intros Step. induction l as [| a l IH]; intros s s' I; cbn [foldM].
  - now intros [= <-].
  - destruct (f s a) as [s1 |] eqn:E; [| discriminate]. cbn [bind].
    apply IH. exact (Step _ _ _ I E).
Qed.

(** Whatever the types of its children, a node whose own type is not
    ['pi'] gives no marker. *)
Lemma parseUrlsetNode_no_marker {host : Host} (n : node) (its : list item) :
  String.eqb (type n) "pi" = false ->
  parseUrlsetNode n = Ok its -> ~ In GENERATE_MAP its.
Proof.
  intros T. unfold parseUrlsetNode.
  apply (@foldM_invariant _ _ (fun out => ~ In GENERATE_MAP out)); [| easy].
  intros out child out' I. rewrite T.
  destruct (name_is child "url").
  - destruct (SitemapEntry_new (Some child)); [| discriminate].
    cbn [bind]. intros [= <-] In'. apply in_app_or in In' as [? | [? | []]];
      [now apply I | discriminate].
  - now intros [= <-].
Qed.

(** C2, on the code. A [urlset] element (a node of type ['tag']) with a
    [url] child followed by a processing instruction is parsed to the
    one entry: no marker stands for the processing instruction, because
    the parser tests the type of the [urlset] node, not the type of the
    child. A child of type ['pi'] fares no better, and were the [urlset]
    node itself of type ['pi'], any child but a [url], white space
    included, would give a marker. *)
Theorem parseUrlsetNode_drops_processing_instruction :
  type example_urlset = "tag"
  /\ map type (children example_urlset) = ["tag"; "directive"]
  /\ parseUrlsetNode (host := exampleHost) example_urlset
     = Ok [Entry (set_url newSitemapEntry "/foo/")]
  /\ parseUrlsetNode (host := exampleHost)
       (Node "tag" (Some "urlset") ""
          [Node "pi" (Some "?sitemap-generate") "?sitemap-generate?" []])
     = Ok []
  /\ parseUrlsetNode (host := exampleHost)
       (Node "pi" (Some "urlset") "" [Node "text" None " " []])
     = Ok [GENERATE_MAP].
Proof. repeat split. Qed.

(* ================================================================== *)
(** * Claims about the generator *)

(** ** The pattern of a scheme *)

Lemma matches_plus_word (w rest : string) :
  matches (PlusClass is_word) w rest -> w <> "" /\ all_word w = true.
Proof.
  remember (PlusClass is_word) as r eqn:E.
  induction 1; try discriminate; injection E as ->.
  - cbn. now rewrite H.
  - destruct (IHmatches eq_refl) as [_ D]. cbn. now rewrite H, D.
Qed.

Lemma plus_class_word (scheme rest : string) (c : captures) :
  all_word scheme = true -> scheme <> "" ->
  exists tl,
    plus_class is_word (scheme ++ String ":" rest)%string c
    = (scheme, String ":" rest, c) :: tl.
Proof.
  induction scheme as [| a w IH]; [easy |]. intros D _.
  cbn in D. apply andb_prop in D as [Ha D].
  cbn [append plus_class]. rewrite Ha.
  destruct w as [| b w].
  - cbn [append plus_class]. change (is_word ":") with false.
    cbn. eauto.
  - destruct (IH D ltac:(easy)) as [tl ->]. cbn. eauto.
Qed.

(** [reProto] tests for a scheme. *)
Lemma test_reProto (u : string) : test reProto u = true <-> has_scheme u.
Proof.
  unfold test. split.
  - destruct (exec reProto u) as [m |] eqn:E; [intros _ | discriminate].
    apply exec_sound in E as (w & rest & -> & M).
    unfold reProto, cat, fold_right in M. invert_matches.
    match goal with
    | M : matches (PlusClass _) _ _ |- _ =>
        apply matches_plus_word in M as [Hne Hw]
    end.
    rewrite append_nil_r, append_assoc. now eexists _, _.
  - intros (scheme & rest & -> & Hne & Hw).
    change (":" ++ rest)%string with (String ":" rest).
    unfold exec, reProto, cat, fold_right. cbn [run].
    destruct (@plus_class_word scheme rest [] Hw Hne) as [tl ->].
    reflexivity.
Qed.

(** ** The embedded sitemap *)

Lemma filter_indexed_keeps (f : string -> nat -> bool) (x : string)
  (l : list string) (ix : nat) :
  (forall i, f x i = true) -> In x l -> In x (filter_indexed f l ix).
Proof.
  intros Hf. revert ix. induction l as [| y l IH]; intros ix; [easy |].
  intros [-> | Hin]; cbn.
  - rewrite Hf. now left.
  - destruct (f y ix); [right |]; now apply IH.
Qed.

Lemma contains_In (l : list string) (x : string) :
  contains l x = true <-> In x l.
Proof.
  unfold contains. rewrite existsb_exists. split.
  - intros (y & Hin & E). apply String.eqb_eq in E. now subst.
  - intros Hin. exists x. split; [exact Hin | apply String.eqb_refl].
Qed.

(** With [includeSitemap], a listed [sitemap.xml] survives the filter
    whatever the extensions are. *)
Lemma filterEntries_keeps_sitemap (entries : list string) (ext : extFilter)
  (keep : jsval) :
  truthy keep = true -> In "sitemap.xml" entries ->
  contains (filterEntries entries ext keep) "sitemap.xml" = true.
Proof.
  intros T Hin. apply contains_In. unfold filterEntries.
  apply filter_indexed_keeps; [| exact Hin].
  intros i. now rewrite T.
Qed.


Lemma inheritPrefix_contributed (o : options) (it : item) :
  has_url it -> inheritPrefix o it = Ok (contributed o it).
Proof.
  unfold has_url. destruct it as [e |]; cbn [item_url inheritPrefix contributed];
    [| now intros N].
  destruct (url e) as [u |]; [intros _ | now intros N].
  now destruct (test reProto u).
Qed.

Lemma mapM_inheritPrefix (o : options) (its : list item) :
  Forall has_url its ->
  mapM (inheritPrefix o) its = Ok (map (contributed o) its).
Proof.
  induction 1 as [| it its Hit _ IH]; [reflexivity |].
  cbn [mapM map]. now rewrite (@inheritPrefix_contributed o it Hit), IH.
Qed.

(** The marker object has no [url]: rewriting the items of an embedded
    document that holds one throws. *)
Lemma mapM_inheritPrefix_marker (o : options) (its : list item) :
  In GENERATE_MAP its -> mapM (inheritPrefix o) its = Throw TypeError.
Proof.
  induction its as [| it its IH]; [easy |].
  intros [-> | Hin]; [reflexivity |].
  cbn [mapM]. specialize (IH Hin).
  destruct it as [e |]; [| reflexivity].
  cbn [inheritPrefix]. destruct (url e) as [u |]; [| reflexivity].
  destruct (test reProto u); cbn [bind]; now rewrite IH.
Qed.

Import Path.

(** ** Joining a URL to the prefix of a directory *)

Lemma split_slash_free (s : string) : slash_free s = true -> split s = [s].
Proof.
  induction s as [| c s IH]; [reflexivity |]. cbn [slash_free split].
  intros E. apply andb_prop in E as [Hc Hs]. apply negb_true_iff in Hc.
  now rewrite Hc, (IH Hs).
Qed.

Lemma split_append (s t : string) :
  slash_free s = true -> split (s ++ String "/" t) = s :: split t.
Proof.
  induction s as [| c s IH]; cbn [slash_free append split].
  - reflexivity.
  - intros E. apply andb_prop in E as [Hc Hs]. apply negb_true_iff in Hc.
    now rewrite Hc, (IH Hs).
Qed.

(** Splitting at the slashes undoes joining with slashes. *)
Lemma split_concat (l : list string) :
  l <> [] -> forallb slash_free l = true -> split (String.concat "/" l) = l.
Proof.
  induction l as [| s l IH]; [easy |]. intros _ F.
  cbn [forallb] in F. apply andb_prop in F as [Hs Hl].
  destruct l as [| s' l]; [now apply split_slash_free |].
  change (String.concat "/" (s :: s' :: l))
    with (s ++ String "/" (String.concat "/" (s' :: l)))%string.
  rewrite (@split_append s _ Hs). now rewrite IH.
Qed.

Lemma plain_slash_free (s : string) : plain s = true -> slash_free s = true.
Proof.
  unfold plain. intros E. repeat (apply andb_prop in E as [E ?]).
  assumption.
Qed.

Lemma plain_not_empty (s : string) : plain s = true -> is_empty s = false.
Proof.
  unfold plain. intros E. repeat (apply andb_prop in E as [E ?]).
  now apply negb_true_iff in E.
Qed.

(** Plain segments are kept as they are. *)
Lemma normalizeArray_plain (parts : list string) (allowAboveRoot : bool) :
  forallb plain parts = true -> normalizeArray parts allowAboveRoot = parts.
Proof.
  intros F. unfold normalizeArray.
  assert (E : fold_right
            (fun part acc =>
               let '(kept, up) := acc in
               if String.eqb part "." then (kept, up)
               else if String.eqb part ".." then (kept, S up)
               else match up with
                    | S up' => (kept, up')
                    | O => (part :: kept, O)
                    end) ([], O) parts = (parts, O)).
  { induction parts as [| s l IH]; [reflexivity |]. cbn [forallb] in F.
    apply andb_prop in F as [Hs Hl]. cbn [fold_right]. rewrite (IH Hl).
    unfold plain in Hs. repeat (apply andb_prop in Hs as [Hs ?]).
    repeat match goal with
           | H : negb _ = true |- _ => apply negb_true_iff in H; rewrite ?H
           end.
    reflexivity. }
  rewrite E. now destruct allowAboveRoot.
Qed.

Lemma last_char_append (a : string) (c : ascii) (r : string) :
  last_char (a ++ String c r) = last_char (String c r).
Proof.
  induction a as [| x a IH]; [reflexivity |].
  cbn [append]. destruct a; exact IH.
Qed.

Lemma last_char_slash_free (s : string) :
  slash_free s = true -> is_char "/" (last_char s) = false.
Proof.
  induction s as [| c s IH]; [reflexivity |]. cbn [slash_free].
  intros E. apply andb_prop in E as [Hc Hs]. apply negb_true_iff in Hc.
  destruct s; [exact Hc | exact (IH Hs)].
Qed.

(** A joined path ends with a slash when its last segment is empty. *)
Lemma last_char_concat (l : list string) :
  l <> [] -> forallb slash_free l = true ->
  is_char "/" (last_char (String "/" (String.concat "/" l)))
  = is_empty (last l ".").
Proof.
  induction l as [| s l IH]; [easy |]. intros _ F.
  cbn [forallb] in F. apply andb_prop in F as [Hs Hl].
  destruct l as [| s' l].
  - cbn [String.concat last]. destruct s as [| c s]; [reflexivity |].
    exact (@last_char_slash_free _ Hs).
  - change (String.concat "/" (s :: s' :: l))
      with (s ++ String "/" (String.concat "/" (s' :: l)))%string.
    change (String "/" (s ++ String "/" (String.concat "/" (s' :: l))))
      with ((String "/" s) ++ String "/" (String.concat "/" (s' :: l)))%string.
    rewrite last_char_append. now rewrite IH.
Qed.

(** [path.normalize] on an absolute path whose segments, the empty ones
    apart, are plain: the empty segments go, a final slash stays. *)
Lemma normalize_absolute (l : list string) :
  l <> [] -> forallb slash_free l = true ->
  forallb plain (filter not_empty l) = true ->
  normalize (String "/" (String.concat "/" l))
  = let p := String.concat "/" (filter not_empty l) in
    String "/" (if not_empty p && is_empty (last l ".")
                then p ++ "/" else p)%string.
Proof.
  intros Hne F P. unfold normalize.
  rewrite (@last_char_concat l Hne F).
  cbn [first_char is_char split]. rewrite Ascii.eqb_refl.
  rewrite (@split_concat l Hne F). cbn [filter is_empty negb].
  change (fun x : string => negb (is_empty x)) with not_empty.
  rewrite (@normalizeArray_plain _ false P).
  cbn [negb andb]. rewrite andb_false_r. reflexivity.
Qed.

Lemma concat_app (l1 l2 : list string) :
  l1 <> [] -> l2 <> [] ->
  String.concat "/" (l1 ++ l2)
  = (String.concat "/" l1 ++ "/" ++ String.concat "/" l2)%string.
Proof.
  intros H1 H2. induction l1 as [| s l1 IH]; [easy |].
  destruct l1 as [| s' l1].
  - destruct l2; [easy | reflexivity].
  - change (String.concat "/" ((s :: s' :: l1) ++ l2))
      with (s ++ "/" ++ String.concat "/" ((s' :: l1) ++ l2))%string.
    rewrite IH by easy.
    change (String.concat "/" (s :: s' :: l1))
      with (s ++ "/" ++ String.concat "/" (s' :: l1))%string.
    now rewrite !append_assoc.
Qed.

Lemma filter_plain (l : list string) :
  forallb plain l = true -> filter not_empty l = l.
Proof.
  induction l as [| s l IH]; [reflexivity |]. cbn [forallb filter].
  intros E. apply andb_prop in E as [Hs Hl]. unfold not_empty at 1.
  now rewrite (@plain_not_empty s Hs), (IH Hl).
Qed.

Lemma filter_tail_of (tr : bool) : filter not_empty (tail_of tr) = [].
Proof. now destruct tr. Qed.

Lemma forallb_plain_slash_free (l : list string) :
  forallb plain l = true -> forallb slash_free l = true.
Proof.
  induction l as [| s l IH]; [reflexivity |]. cbn [forallb].
  intros E. apply andb_prop in E as [Hs Hl].
  now rewrite (@plain_slash_free s Hs), (IH Hl).
Qed.

Lemma forallb_slash_free_tail (tr : bool) :
  forallb slash_free (tail_of tr) = true.
Proof. now destruct tr. Qed.

Lemma concat_plain_not_empty (l : list string) :
  l <> [] -> forallb plain l = true ->
  exists c r, String.concat "/" l = String c r /\ Ascii.eqb c "/" = false.
Proof.
  destruct l as [| s l]; [easy |]. intros _ E. cbn [forallb] in E.
  apply andb_prop in E as [Hs _].
  pose proof (@plain_not_empty s Hs) as Ne.
  pose proof (@plain_slash_free s Hs) as Sf.
  destruct s as [| c s]; [discriminate |]. cbn [slash_free] in Sf.
  apply andb_prop in Sf as [Hc _]. apply negb_true_iff in Hc.
  exists c. destruct l; cbn; eauto.
Qed.

Lemma last_plain_tail (us : list string) (tr : bool) :
  us <> [] -> forallb plain us = true ->
  is_empty (last (us ++ tail_of tr) ".") = tr.
Proof.
  intros Hne P. destruct tr; cbn [tail_of].
  - now rewrite last_last.
  - rewrite app_nil_r.
    assert (In (last us ".") us).
    { destruct us as [| u us]; [easy |]. clear.
      revert u. induction us as [| v us IH]; intros u; [now left |].
      right. exact (IH v). }
    rewrite forallb_forall in P. now apply plain_not_empty, P.
Qed.

(** [path.normalize] of the path made of the plain segments [segs] from
    the root, with a final slash when [tr]: the path itself, also when
    empty segments stand between the segments. *)
Lemma normalize_segments (l segs : list string) (tr : bool) :
  segs <> [] -> forallb plain segs = true ->
  forallb slash_free l = true -> filter not_empty l = segs ->
  is_empty (last l ".") = tr -> l <> [] ->
  normalize (String "/" (String.concat "/" l))
  = String "/" (String.concat "/" (segs ++ tail_of tr)).
Proof.
  intros Hne P F E L Hl. rewrite (@normalize_absolute l Hl F); rewrite E;
    [| exact P].
  cbn zeta. rewrite L.
  destruct (@concat_plain_not_empty segs Hne P) as (c & r & Ec & _).
  unfold not_empty. rewrite Ec. cbn [is_empty negb andb]. rewrite <- Ec.
  destruct tr; cbn [tail_of].
  - rewrite (@concat_app segs [""] Hne ltac:(easy)). cbn [String.concat].
    reflexivity.
  - now rewrite app_nil_r.
Qed.

Lemma last_app_r (l1 l2 : list string) (d : string) :
  l2 <> [] -> last (l1 ++ l2) d = last l2 d.
Proof.
  intros Hne. induction l1 as [| x l1 IH]; [reflexivity |].
  cbn [app last]. rewrite IH. destruct (l1 ++ l2) eqn:E; [| reflexivity].
  apply app_eq_nil in E as [_ ->]. easy.
Qed.

Lemma rel_path_first (us : list string) (tr : bool) :
  us <> [] -> forallb plain us = true ->
  exists c r, rel_path us tr = String c r /\ Ascii.eqb c "/" = false.
Proof.
  intros Hne Pu. unfold rel_path.
  destruct (@concat_plain_not_empty us Hne Pu) as (c & r & E & Hc).
  destruct tr; cbn [tail_of].
  - rewrite (@concat_app us [""] Hne ltac:(easy)), E. cbn. eauto.
  - rewrite app_nil_r. eauto.
Qed.

(** Joining a relative path of plain segments to the URL of a directory,
    and normalizing the result once more. *)
Lemma join_under (ps us : list string) (tr : bool) :
  forallb plain ps = true -> forallb plain us = true -> us <> [] ->
  join (dir_url ps) (rel_path us tr)
  = String "/" (String.concat "/" ((ps ++ us) ++ tail_of tr))
  /\ normalize (String "/" (String.concat "/" ((ps ++ us) ++ tail_of tr)))
     = String "/" (String.concat "/" ((ps ++ us) ++ tail_of tr)).
Proof.
  intros Pp Pu Hne.
  destruct (@rel_path_first us tr Hne Pu) as (c & r & Eu & Hc).
  assert (Ppu : forallb plain (ps ++ us) = true)
    by (rewrite forallb_app; now rewrite Pp, Pu).
  assert (Hpu : ps ++ us <> []) by (now destruct ps, us).
  assert (Sp := @forallb_plain_slash_free ps Pp).
  assert (Su := @forallb_plain_slash_free us Pu).
  assert (St := forallb_slash_free_tail tr).
  assert (Fp := @filter_plain ps Pp).
  assert (Fu := @filter_plain us Pu).
  assert (Ft := filter_tail_of tr).
  assert (Lt := @last_plain_tail us tr Hne Pu).
  assert (Hut : us ++ tail_of tr <> []) by (now destruct us).
  split.
  - unfold join, dir_url. cbn [filter is_empty negb append]. rewrite Eu.
    cbn [is_empty negb]. rewrite <- Eu. cbn [String.concat append].
    replace (String.concat "/" (ps ++ [""]) ++ String "/" (rel_path us tr))%string
      with (String.concat "/" ((ps ++ [""]) ++ us ++ tail_of tr)).
    2: { rewrite (@concat_app (ps ++ [""]) (us ++ tail_of tr));
           [reflexivity | now destruct ps | now destruct us]. }
    apply normalize_segments; try assumption.
    + now rewrite !forallb_app, Sp, Su, St.
    + rewrite !filter_app, Fp, Fu, Ft. cbn. now rewrite !app_nil_r.
    + now rewrite (@last_app_r _ _ "." Hut).
    + now destruct ps.
  - apply normalize_segments; try assumption.
    + now rewrite !forallb_app, Sp, Su, St.
    + rewrite !filter_app, Fp, Fu, Ft. now rewrite !app_nil_r.
    + rewrite <- app_assoc. now rewrite (@last_app_r _ _ "." Hut).
    + now destruct ps, us.
Qed.

(** The URL [createUrl] makes of the plain segments [us] under the
    directory of the plain segments [ps]: the URL of the directory
    followed by the path of the segments, with a final slash when the
    path has one or when [ensureFinalSlash] asks for it. A slash in
    front of the path makes no difference. *)
Lemma createUrl_under (ps us : list string) (tr lead ensure : bool) :
  forallb plain ps = true -> forallb plain us = true -> us <> [] ->
  createUrl ((if lead then "/" else "") ++ rel_path us tr)
            (Some (dir_url ps)) ensure
  = (dir_url ps ++ rel_path us (tr || ensure))%string.
Proof.
  intros Pp Pu Hne.
  destruct (@rel_path_first us tr Hne Pu) as (c & r & Eu & Hc).
  destruct (@join_under ps us tr Pp Pu Hne) as [J N].
  assert (Hut : us ++ tail_of tr <> []) by (now destruct us).
  assert (Hl : (ps ++ us) ++ tail_of tr <> []) by (now destruct ps, us).
  unfold createUrl.
  replace (if is_char "/" (first_char
                 ((if lead then "/" else "") ++ rel_path us tr))
           then slice1 ((if lead then "/" else "") ++ rel_path us tr)
           else ((if lead then "/" else "") ++ rel_path us tr))%string
    with (rel_path us tr).
  2: { destruct lead; cbn [append first_char is_char slice1];
         [reflexivity |].
       rewrite Eu. cbn [first_char is_char]. now rewrite Hc. }
  change (is_empty (dir_url ps)) with false. cbn iota.
  rewrite J, N. cbn [first_char is_char]. rewrite Ascii.eqb_refl.
  rewrite (@last_char_concat _ Hl).
  2: { rewrite !forallb_app, (@forallb_plain_slash_free ps Pp),
         (@forallb_plain_slash_free us Pu), forallb_slash_free_tail.
       reflexivity. }
  rewrite <- app_assoc, (@last_app_r _ _ "." Hut),
    (@last_plain_tail us tr Hne Pu).
  (* both sides are the segments of [ps] and [us] joined *)
  assert (A : forall t,
             (dir_url ps ++ rel_path us t)%string
             = String "/" (String.concat "/" (ps ++ us ++ tail_of t))).
  { intros t. unfold dir_url, rel_path. cbn [append].
    f_equal. destruct ps as [| p ps]; [reflexivity |].
    rewrite (@concat_app (p :: ps) [""] ltac:(easy) ltac:(easy)).
    rewrite (@concat_app (p :: ps) (us ++ tail_of t)
               ltac:(easy) ltac:(now destruct us)).
    cbn [String.concat]. now rewrite !append_assoc. }
  rewrite A.
  destruct tr, ensure; cbn [andb orb negb tail_of];
    rewrite <- ?app_assoc; try reflexivity.
  rewrite !app_nil_r, app_assoc.
  rewrite (@concat_app (ps ++ us) [""] ltac:(now destruct ps, us) ltac:(easy)).
  reflexivity.
Qed.

(** What the scanner makes of a name [entry] of a directory listing
    under the directory [ps]: the URL of the directory [ps ++ [entry]]
    for a directory, the name under the URL of [ps] for a file, and the
    URL of [ps] itself for an index file. *)
Lemma createUrl_scanned (ps : list string) (entry : string) :
  forallb plain ps = true -> plain entry = true ->
  createUrl entry (Some (dir_url ps)) true = dir_url (ps ++ [entry])
  /\ createUrl entry (Some (dir_url ps)) false
     = (dir_url ps ++ entry)%string.
Proof.
  intros Pp Pe.
  assert (Pu : forallb plain [entry] = true) by (cbn; now rewrite Pe).
  pose proof (@createUrl_under ps [entry] false false true Pp Pu ltac:(easy))
    as D.
  pose proof (@createUrl_under ps [entry] false false false Pp Pu ltac:(easy))
    as F.
  unfold rel_path in D, F.
  cbn [app String.concat append orb tail_of] in D, F.
  split; [| exact F]. rewrite D. unfold dir_url. cbn [append]. f_equal.
  destruct ps as [| p ps]; [reflexivity |].
  rewrite (@concat_app (p :: ps) [""] ltac:(easy) ltac:(easy)).
  rewrite <- app_assoc.
  rewrite (@concat_app (p :: ps) ([entry] ++ [""]) ltac:(easy) ltac:(easy)).
  cbn [String.concat app]. now rewrite !append_assoc.
Qed.




(** C1, on the code. On the tree of the test "generate with processing
    instruction", with [includeSitemap] set, the generator returns two
    entries: the one of [about] and the one the embedded document lists.
    The processing instruction of the embedded document is not replaced
    by a scan of its directory: the entries of [a] and [a/include-it],
    which the scan without the short-circuit finds, are missing. *)
Theorem generate_ignores_processing_instruction :
  (exists sm,
     generate (host := exampleHost) (fs := exampleFS) 10 "site-pi"
       (Some (includeSitemapConfig true)) = Some (Ok sm)
     /\ map item_url (items sm)
        = [Some "/about/embedded-pi/foo/"; Some "/about/"])
  /\ (exists sm,
        generate (host := exampleHost) (fs := exampleFS) 10 "site-pi"
          (Some (includeSitemapConfig false)) = Some (Ok sm)
        /\ map item_url (items sm)
           = [Some "/about/embedded-pi/a/include-it/";
              Some "/about/embedded-pi/a/"; Some "/about/"]).
Proof.
  split; eexists; split; vm_compute; reflexivity.
Qed.

(** Had the parser put the marker in the item list, the scan would throw
    instead of expanding it. *)
Lemma getEmbeddedSitemap_marker {host : Host} {fs : FileSystem} (file text : string)
  (o : options) (sm : Sitemap) :
  readFile file = Ok text ->
  Sitemap_new (CValue (VStr text)) = Ok sm ->
  In GENERATE_MAP (items sm) ->
  getEmbeddedSitemap file o = Throw TypeError.
Proof.
  intros F P M. unfold getEmbeddedSitemap. rewrite F. cbn [bind].
  rewrite P. cbn [bind]. now apply mapM_inheritPrefix_marker.
Qed.

(* ================================================================== *)
(** * Further properties of entries *)

Lemma set_priority_frame {host : Host} (e e' : SitemapEntry) (v : jsval) :
  set_priority e v = Ok e' ->
  url e' = url e /\ changeFrequency e' = changeFrequency e
  /\ lastModified e' = lastModified e.
Proof.
  unfold set_priority. destruct (negb (truthy v)); [now intros [= <-] |].
  destruct v; cbn [bind];
    try (destruct (isNaN _); cbn [bind]; [discriminate |]);
    now intros [= <-].
Qed.

(** What an assignment to [lastModified] that does not throw leaves. *)
Lemma set_lastModified_frame {host : Host} (e e' : SitemapEntry) (v : jsval) :
  set_lastModified e v = Ok e' ->
  url e' = url e /\ changeFrequency e' = changeFrequency e
  /\ priority e' = priority e
  /\ (v = VUndefined -> e' = e)
  /\ (v <> VUndefined -> lastModified e' <> None)
  /\ (forall date, v = VDate date -> lastModified e' = Some date).
Proof.
  intros E. unfold set_lastModified in E.
  destruct v as [| | b | n | s | dt | r]; cbn [bind] in E;
    try discriminate E.
  - injection E as <-. repeat split; easy.
  - injection E as <-. repeat split; easy.
  - destruct (parseDate s); cbn [bind] in E; [| discriminate E].
    injection E as <-. repeat split; easy.
  - injection E as <-. repeat split; try easy. now intros date [= ->].
Qed.

Lemma first_char_append (a b : string) :
  a <> "" -> first_char (a ++ b) = first_char a.
Proof. destruct a; [easy | reflexivity]. Qed.

Lemma is_char_Some (a : ascii) (o : option ascii) :
  is_char a o = true -> o = Some a.
Proof.
  destruct o as [c |]; cbn; [| discriminate].
  intros E. apply Ascii.eqb_eq in E. now subst.
Qed.

(** The URL [createUrl] returns starts with a slash. *)
Lemma createUrl_first (entry : string) (prefix : option string) (ensure : bool) :
  first_char (createUrl entry prefix ensure) = Some "/"%char.
Proof.
  unfold createUrl.
  set (x := match prefix with
            | Some p => if is_empty p then _ else _
            | None => _
            end).
  set (r := if is_char "/" (first_char x) then x else ("/" ++ x)%string).
  assert (R : first_char r = Some "/"%char).
  { subst r. destruct (is_char "/" (first_char x)) eqn:E; [| reflexivity].
    now apply is_char_Some. }
  destruct (ensure && negb (is_char "/" (last_char r))); [| exact R].
  rewrite first_char_append; [exact R |]. now destruct r.
Qed.

(** X1. The setter of [lastModified] never clears the field and changes
    no other field: an assignment that does not throw leaves the URL,
    the change frequency and the priority as they were; [undefined]
    leaves the whole entry as it was, and any other value leaves a
    date. [null], a boolean and an object that is not a [Date] are
    refused with [InvalidLastModifiedType]; a number is always stored
    (as [new Date(number)]); a string that is not one of the accepted
    date forms is refused with [InvalidDateFormat]. *)
Theorem set_lastModified_never_clears {host : Host} (e : SitemapEntry) :
  (forall v e', set_lastModified e v = Ok e' ->
     url e' = url e /\ changeFrequency e' = changeFrequency e
     /\ priority e' = priority e
     /\ (v = VUndefined -> e' = e)
     /\ (v <> VUndefined -> lastModified e' <> None)
     /\ (lastModified e <> None -> lastModified e' <> None))
  /\ (forall v,
        v = VNull \/ (exists b, v = VBool b) \/ (exists repr, v = VObject repr) ->
        set_lastModified e v = Throw InvalidLastModifiedType)
  /\ (forall n,
        set_lastModified e (VNum n)
        = Ok (store_lastModified e (newDateOfNumber n)))
  /\ (forall s, ~ accepted_form s ->
        set_lastModified e (VStr s) = Throw (InvalidDateFormat s)).
Proof.
  split; [| split; [| split]].
  - intros v e' E.
    destruct (set_lastModified_frame _ _ E) as (U & C & P & Same & Stored & _).
    repeat split; try assumption.
    intros L. destruct v; try (apply Stored; discriminate).
    now rewrite (Same eq_refl).
  - intros v [-> | [[b ->] | [r ->]]]; reflexivity.
  - reflexivity.
  - intros s N. unfold set_lastModified.
    now rewrite (@parseDate_not_accepted _ s N).
Qed.

Lemma set_lastModified_never_clears_witness :
  lastModified
    (store_lastModified (set_url newSitemapEntry "/a/") example_mtime) <> None
  /\ set_lastModified (host := exampleHost) (set_url newSitemapEntry "/a/") VNull
     = Throw InvalidLastModifiedType
  /\ set_lastModified (host := exampleHost) newSitemapEntry (VStr "yesterday")
     = Throw (InvalidDateFormat "yesterday").
Proof.
  destruct (@set_lastModified_never_clears exampleHost
              (set_url newSitemapEntry "/a/")) as (Keeps & Rejects & _ & _).
  destruct (@set_lastModified_never_clears exampleHost newSitemapEntry)
    as (_ & _ & _ & Text).
  split; [| split].
  - destruct (Keeps (VDate example_mtime) _ eq_refl)
      as (_ & _ & _ & _ & Stored & _).
    apply Stored. discriminate.
  - apply Rejects. now left.
  - apply Text. intros A. apply (@parseDate_accepted exampleHost) in A.
    destruct A as [date E]. vm_compute in E. discriminate.
Defined.

(** X2. What the generator makes of a file. The entry has the URL
    [createUrl] gives for the name under the prefix of the directory.
    With [lastModified: true] its date is the modification time of the
    file; with [lastModified] left [undefined] it has none; with
    [lastModified: false] or [null] no entry is made: the setter refuses
    the value, with [InvalidLastModifiedType] when the priority is left
    to its default. With the default options the entry is the URL, the
    modification time and the default priority. *)
Theorem createSitemapEntry_lastModified {host : Host} (entry : string)
  (o : options) (stats : Stats) (isFile : bool) :
  (forall e, createSitemapEntry entry o stats isFile = Ok e ->
     url e = Some (createUrl entry (opt_prefix o) isFile)
     /\ (opt_lastModified o = Literal (VBool true) ->
         lastModified e = Some (mtime stats))
     /\ (opt_lastModified o = Literal VUndefined -> lastModified e = None))
  /\ (forall v, opt_lastModified o = Literal v ->
        v = VBool false \/ v = VNull ->
        exists err,
          createSitemapEntry entry o stats isFile = Throw err
          /\ (opt_priority o = Literal VUndefined ->
              err = InvalidLastModifiedType))
  /\ (opt_changeFrequency o = Literal VUndefined ->
      opt_priority o = Literal VUndefined ->
      opt_lastModified o = Literal (VBool true) ->
      createSitemapEntry entry o stats isFile
      = Ok {| url := Some (createUrl entry (opt_prefix o) isFile);
              changeFrequency := VUndefined;
              _lastModified := Some (mtime stats);
              _priority := VNum DEFAULT_PRIORITY |}).
Proof.
  split; [| split].
  - intros e. unfold createSitemapEntry.
    destruct (set_priority _ _) as [e1 |] eqn:P; cbn [bind]; [| discriminate].
    apply set_priority_frame in P as (U & _ & L). cbn in U, L.
    intros E.
    assert (F : exists v, set_lastModified e1 v = Ok e
                /\ (opt_lastModified o = Literal (VBool true) ->
                    v = VDate (mtime stats))
                /\ (opt_lastModified o = Literal VUndefined -> v = VUndefined)).
    { destruct (opt_lastModified o) as [[| | [|] | | | |] |];
        eexists; (split; [exact E |]); split; intros [=]; reflexivity. }
    destruct F as (v & F & T & N).
    destruct (set_lastModified_frame _ _ F) as (U' & _ & _ & Same & _ & Dated).
    split; [now rewrite U', U |]. split.
    + intros Ht. exact (Dated _ (T Ht)).
    + intros Hn. now rewrite (Same (N Hn)).
  - intros v Hv Hcase. unfold createSitemapEntry. rewrite Hv.
    destruct (set_priority _ _) as [e1 | err] eqn:P; cbn [bind].
    + exists InvalidLastModifiedType.
      split; [destruct Hcase as [-> | ->] |]; reflexivity.
    + exists err. split; [reflexivity |].
      intros Hp. rewrite Hp in P. discriminate P.
  - intros Hc Hp Hl. unfold createSitemapEntry. rewrite Hc, Hp, Hl.
    reflexivity.
Qed.

Lemma createSitemapEntry_lastModified_witness :
  createSitemapEntry (host := exampleHost) "a.html" defaultOptions
    example_stats false
  = Ok {| url := Some "/a.html"; changeFrequency := VUndefined;
          _lastModified := Some example_mtime;
          _priority := VNum DEFAULT_PRIORITY |}
  /\ createSitemapEntry (host := exampleHost) "a.html"
       (extend defaultOptions (lastModifiedConfig (Literal (VBool false))))
       example_stats false
     = Throw InvalidLastModifiedType.
Proof.
  split.
  - exact (proj2 (proj2 (@createSitemapEntry_lastModified exampleHost "a.html"
                           defaultOptions example_stats false))
             eq_refl eq_refl eq_refl).
  - destruct (proj1 (proj2 (@createSitemapEntry_lastModified exampleHost
                              "a.html"
                              (extend defaultOptions
                                 (lastModifiedConfig (Literal (VBool false))))
                              example_stats false))
                (VBool false) eq_refl (or_introl eq_refl))
      as (err & E & Kind).
    rewrite E. now rewrite (Kind eq_refl).
Defined.

(** X3. Every URL [createUrl] returns starts with a slash, and ends
    with one when a final slash is asked for, whatever the entry and the
    prefix are. A slash in front of the entry makes no difference, and
    an empty prefix is no prefix. *)
Theorem createUrl_slashes (entry : string) (prefix : option string) :
  (forall ensure, first_char (createUrl entry prefix ensure) = Some "/"%char)
  /\ last_char (createUrl entry prefix true) = Some "/"%char
  /\ (is_char "/" (first_char entry) = false ->
      forall ensure,
        createUrl (String "/" entry) prefix ensure
        = createUrl entry prefix ensure)
  /\ (forall ensure,
        createUrl entry (Some "") ensure = createUrl entry None ensure).
Proof.
  split; [intros ensure; apply createUrl_first |].
  split; [| split; [| reflexivity]].
  - unfold createUrl.
    set (x := match prefix with
              | Some p => if is_empty p then _ else _
              | None => _
              end).
    set (r := if is_char "/" (first_char x) then x else ("/" ++ x)%string).
    cbn [andb]. destruct (is_char "/" (last_char r)) eqn:E; cbn [negb].
    + now apply is_char_Some.
    + now rewrite last_char_append.
  - intros E ensure.
    unfold createUrl at 1. cbn [first_char is_char slice1].
    rewrite Ascii.eqb_refl. unfold createUrl. now rewrite E.
Qed.

Lemma createUrl_slashes_witness :
  createUrl "/about/" (Some "/docs") false = createUrl "about/" (Some "/docs") false
  /\ createUrl "about/" (Some "/docs") false = "/docs/about/"
  /\ last_char (createUrl "index" (Some "docs") true) = Some "/"%char.
Proof.
  destruct (@createUrl_slashes "about/" (Some "/docs")) as (_ & _ & Lead & _).
  split; [exact (Lead eq_refl false) |]. split; [reflexivity |].
  exact (proj1 (proj2 (@createUrl_slashes "index" (Some "docs")))).
Defined.

(* ================================================================== *)
(** * Further properties of documents *)

Lemma readNode_readChild {host : Host} (e : SitemapEntry) (n : node) :
  readNode e n = foldM readChild (children n) e.
Proof. reflexivity. Qed.

(** A fold that throws does so at one of the elements. *)
Lemma foldM_throw {A S : Type} (f : S -> A -> result S) (l : list A) (s : S)
  (err : error) :
  foldM f l s = Throw err -> exists s' a, In a l /\ f s' a = Throw err.
Proof.
  revert s. induction l as [| a l IH]; intros s; cbn [foldM]; [discriminate |].
  destruct (f s a) as [s1 |] eqn:E; cbn [bind].
  - intros T. destruct (IH _ T) as (s' & b & Hin & Hb).
    exists s', b. split; [now right | exact Hb].
  - intros [= ->]. exists s, a. split; [now left | exact E].
Qed.

(** A fold over a list with an element on which the step throws
    whatever the state, throws. *)
Lemma foldM_In_throws {A S : Type} (f : S -> A -> result S) (l : list A)
  (a : A) :
  In a l -> (forall s, exists err, f s a = Throw err) ->
  forall s, exists err, foldM f l s = Throw err.
Proof.
  intros Hin T. induction l as [| b l IH]; [easy |]. intros s. cbn [foldM].
  destruct Hin as [-> | Hin].
  - destruct (T s) as [err ->]. now exists err.
  - destruct (f s b) as [s1 |]; cbn [bind]; [now apply IH | eauto].
Qed.

(** [parseDate] throws nothing but [InvalidDateFormat]. *)
Lemma parseDate_throw {host : Host} (s : string) (err : error) :
  parseDate s = Throw err -> err = InvalidDateFormat s.
Proof.
  intros T.
  assert (A : accepted_form s -> False).
  { intros A. apply parseDate_accepted in A as [date E]. congruence. }
  unfold parseDate in T.
  destruct (exec re_YYYY s) eqn:E1;
    [now apply exec_YYYY_accepted in E1 |].
  destruct (exec re_YYYY_MM s) eqn:E2;
    [now apply exec_YYYY_MM_accepted in E2 |].
  destruct (exec re_YYYY_MM_DD s) eqn:E3;
    [now apply exec_YYYY_MM_DD_accepted in E3 |].
  destruct (exec re_datetime s) eqn:E4;
    [now apply exec_datetime_accepted in E4 |].
  congruence.
Qed.

Lemma set_priority_throw {host : Host} (e : SitemapEntry) (v : jsval)
  (err : error) :
  set_priority e v = Throw err -> err = InvalidPriority.
Proof.
  unfold set_priority. destruct (negb (truthy v)); [discriminate |].
  destruct v; cbn [bind]; try discriminate;
    destruct (isNaN _); cbn [bind]; congruence.
Qed.

(** The errors of reading a child of a [url] element. *)
Lemma readChild_throw {host : Host} (e : SitemapEntry) (child : node)
  (err : error) :
  readChild e child = Throw err ->
  err = InvalidPriority \/ exists s, err = InvalidDateFormat s.
Proof.
  unfold readChild. destruct (name child) as [nm |]; [| discriminate].
  destruct (is_empty nm); [discriminate |].
  destruct (nodeMapping nm) as [[| | |] |]; cbn [assign]; try discriminate.
  - unfold set_lastModified.
    destruct (parseDate _) eqn:P; cbn [bind]; [discriminate |].
    intros [= <-]. right. eexists. exact (parseDate_throw _ P).
  - intros T. left. exact (set_priority_throw _ _ T).
Qed.

Lemma SitemapEntry_new_throw {host : Host} (n : option node) (err : error) :
  SitemapEntry_new n = Throw err ->
  err = InvalidPriority \/ exists s, err = InvalidDateFormat s.
Proof.
  destruct n as [n |]; cbn [SitemapEntry_new]; [| discriminate].
  rewrite readNode_readChild. intros T.
  apply foldM_throw in T as (e & child & _ & T).
  exact (readChild_throw _ _ T).
Qed.

Lemma parseUrlsetNode_throw {host : Host} (n : node) (err : error) :
  parseUrlsetNode n = Throw err ->
  err = InvalidPriority \/ exists s, err = InvalidDateFormat s.
Proof.
  unfold parseUrlsetNode. intros T.
  apply foldM_throw in T as (out & child & _ & T).
  destruct (name_is child "url").
  - destruct (SitemapEntry_new (Some child)) eqn:E; cbn [bind] in T;
      [discriminate |].
    injection T as <-. exact (SitemapEntry_new_throw _ E).
  - destruct (String.eqb (type n) "pi"); discriminate.
Qed.

Lemma parseSitemap_throw {host : Host} (text : string) (err : error) :
  parseSitemap text = Throw err ->
  err = InvalidPriority \/ exists s, err = InvalidDateFormat s.
Proof.
  unfold parseSitemap. intros T.
  apply foldM_throw in T as (out & n & _ & T).
  destruct (name_is n "urlset"); [| discriminate].
  destruct (parseUrlsetNode n) eqn:E; cbn [bind] in T; [discriminate |].
  injection T as <-. exact (parseUrlsetNode_throw _ E).
Qed.

Lemma Sitemap_new_text {host : Host} (text : string) :
  Sitemap_new (CValue (VStr text))
  = if is_empty text then Ok {| items := [] |}
    else (its <- parseSitemap text ;; Ok {| items := its |}).
Proof.
  unfold Sitemap_new. destruct text as [| c text]; [reflexivity |].
  cbn [truthy is_empty negb]. now destruct (parseSitemap _).
Qed.

Lemma Sitemap_new_throw {host : Host} (text : string) (err : error) :
  Sitemap_new (CValue (VStr text)) = Throw err ->
  err = InvalidPriority \/ exists s, err = InvalidDateFormat s.
Proof.
  rewrite Sitemap_new_text. destruct (is_empty text); [discriminate |].
  destruct (parseSitemap text) eqn:E; cbn [bind]; [discriminate |].
  intros [= <-]. exact (parseSitemap_throw _ E).
Qed.

(** What reading one child leaves in the fields of the entry. *)
Lemma readChild_fields {host : Host} (e e1 : SitemapEntry) (child : node) :
  readChild e child = Ok e1 ->
  url e1 = (if name_is child "loc" then Some (innerText child) else url e)
  /\ changeFrequency e1
     = (if name_is child "changefreq" then VStr (innerText child)
        else changeFrequency e)
  /\ (if name_is child "lastmod"
      then exists date, parseDate (innerText child) = Ok date
                        /\ lastModified e1 = Some date
      else lastModified e1 = lastModified e)
  /\ (name_is child "priority" = false -> priority e1 = priority e).
Proof.
  unfold readChild, name_is. destruct (name child) as [nm |];
    [| intros [= <-]; repeat split].
  destruct (is_empty nm) eqn:Ne.
  { destruct nm; [| discriminate]. intros [= <-]. repeat split. }
  unfold nodeMapping.
  destruct (String.eqb_spec nm "loc") as [-> | N1];
    [intros [= <-]; repeat split |].
  destruct (String.eqb_spec nm "lastmod") as [-> | N2].
  { cbn [assign]. unfold set_lastModified.
    destruct (parseDate _) as [date |]; cbn [bind]; [| discriminate].
    intros [= <-]. repeat split. now exists date. }
  destruct (String.eqb_spec nm "changefreq") as [-> | N3];
    [intros [= <-]; repeat split |].
  destruct (String.eqb_spec nm "priority") as [-> | N4].
  { cbn [assign]. intros P. apply set_priority_frame in P as (U & C & L).
    repeat split; try assumption. discriminate. }
  intros [= <-]. repeat split.
Qed.

(** The accumulating fold of [parseUrlsetNode] is a map over the [url]
    children. *)
Lemma parseUrlsetNode_fold {host : Host} (cs : list node) (out : list item) :
  foldM (fun out child =>
           if name_is child "url"
           then e <- SitemapEntry_new (Some child) ;; Ok (out ++ [Entry e])
           else Ok out) cs out
  = (its <- mapM url_item (filter is_url cs) ;; Ok (out ++ its)).
Proof.
  revert out. induction cs as [| c cs IH]; intros out; cbn [foldM filter mapM bind].
  - now rewrite app_nil_r.
  - unfold is_url at 1. destruct (name_is c "url"); [| apply IH].
    cbn [mapM]. unfold url_item at 1.
    destruct (SitemapEntry_new (Some c)) as [e |]; cbn [bind]; [| reflexivity].
    rewrite IH. destruct (mapM url_item _); cbn [bind]; [| reflexivity].
    now rewrite <- app_assoc.
Qed.

Lemma parseUrlsetNode_map {host : Host} (n : node) :
  String.eqb (type n) "pi" = false ->
  parseUrlsetNode n = mapM url_item (filter is_url (children n)).
Proof.
  intros T. unfold parseUrlsetNode. rewrite T.
  rewrite (parseUrlsetNode_fold (children n) []).
  now destruct (mapM url_item _).
Qed.

Lemma parseSitemap_fold {host : Host} (dom : list node) (out : list item) :
  foldM (fun result n =>
           if name_is n "urlset"
           then its <- parseUrlsetNode n ;; Ok (result ++ its)
           else Ok result) dom out
  = (lists <- mapM parseUrlsetNode (filter is_urlset dom) ;;
     Ok (out ++ List.concat lists)).
Proof.
  revert out. induction dom as [| n dom IH]; intros out;
    cbn [foldM filter mapM bind List.concat].
  - now rewrite app_nil_r.
  - unfold is_urlset at 1. destruct (name_is n "urlset"); [| apply IH].
    cbn [mapM]. destruct (parseUrlsetNode n) as [its |]; cbn [bind];
      [| reflexivity].
    rewrite IH. destruct (mapM parseUrlsetNode _); cbn [bind List.concat];
      [| reflexivity].
    now rewrite <- app_assoc.
Qed.

Lemma parseSitemap_map {host : Host} (text : string) :
  parseSitemap text
  = (lists <- mapM parseUrlsetNode (filter is_urlset (parseDOM text)) ;;
     Ok (List.concat lists)).
Proof. unfold parseSitemap. now rewrite parseSitemap_fold. Qed.

(** X4. Of several children of a [url] element with the same name the
    last one counts: the URL of the entry read is the text of the last
    [loc] child, its change frequency the text of the last [changefreq]
    child and its date the date the text of the last [lastmod] child
    parses to; without such a child the field is as it was, [null] in a
    new entry. Children with other names change none of the fields. *)
Theorem readNode_last_wins {host : Host} (n : node) (e0 e : SitemapEntry) :
  readNode e0 n = Ok e ->
  url e = match last_named "loc" (children n) with
          | Some c => Some (innerText c)
          | None => url e0
          end
  /\ changeFrequency e
     = match last_named "changefreq" (children n) with
       | Some c => VStr (innerText c)
       | None => changeFrequency e0
       end
  /\ match last_named "lastmod" (children n) with
     | Some c => exists date, parseDate (innerText c) = Ok date
                              /\ lastModified e = Some date
     | None => lastModified e = lastModified e0
     end
  /\ (last_named "priority" (children n) = None -> priority e = priority e0).
Proof.
  rewrite readNode_readChild. generalize (children n) as cs. intros cs.
  revert e0. induction cs as [| c cs IH]; intros e0; cbn [foldM last_named].
  - intros [= <-]. repeat split.
  - destruct (readChild e0 c) as [e1 |] eqn:E1; cbn [bind]; [| discriminate].
    intros E. destruct (IH _ E) as (U & C & L & P).
    destruct (readChild_fields _ _ E1) as (U1 & C1 & L1 & P1).
    split; [| split; [| split]].
    + destruct (last_named "loc" cs); [exact U |].
      rewrite U, U1. now destruct (name_is c "loc").
    + destruct (last_named "changefreq" cs); [exact C |].
      rewrite C, C1. now destruct (name_is c "changefreq").
    + destruct (last_named "lastmod" cs); [exact L |].
      rewrite L. destruct (name_is c "lastmod"); exact L1.
    + destruct (last_named "priority" cs); [discriminate |].
      destruct (name_is c "priority") eqn:N; [discriminate |].
      intros _. now rewrite (P eq_refl), (P1 eq_refl).
Qed.

Lemma readNode_last_wins_witness :
  let e := {| url := Some "/b/"; changeFrequency := VNull;
              _lastModified := Some (MkDate (Some 1709164800000));
              _priority := VNum DEFAULT_PRIORITY |} in
  readNode (host := exampleHost) newSitemapEntry
    (Node "tag" (Some "url") ""
       [element "loc" "/a/"; element "lastmod" "2024-02-29";
        element "title" "A"; element "loc" "/b/"]) = Ok e
  /\ url e = Some (innerText (element "loc" "/b/"))
  /\ changeFrequency e = changeFrequency newSitemapEntry
  /\ priority e = priority newSitemapEntry.
Proof.
  intros e.
  assert (R : readNode (host := exampleHost) newSitemapEntry
                (Node "tag" (Some "url") ""
                   [element "loc" "/a/"; element "lastmod" "2024-02-29";
                    element "title" "A"; element "loc" "/b/"]) = Ok e)
    by (vm_compute; reflexivity).
  split; [exact R |].
  destruct (@readNode_last_wins exampleHost _ newSitemapEntry e R)
    as (U & C & _ & P).
  split; [exact U |]. split; [exact C | exact (P eq_refl)].
Defined.

(** X5. The items of a document are read in document order: a [urlset]
    element (any node whose type is not ['pi']) gives one entry for each
    of its children named [url], in their order, and nothing for any
    other child; a text gives the items of its top-level [urlset]
    nodes, one after the other, and nothing for any other top-level
    node. The first error met ends the reading. *)
Theorem parseSitemap_document_order {host : Host} :
  (forall n, String.eqb (type n) "pi" = false ->
     parseUrlsetNode n = mapM url_item (filter is_url (children n)))
  /\ (forall text,
        parseSitemap text
        = (lists <- mapM parseUrlsetNode
                      (filter is_urlset (parseDOM text)) ;;
           Ok (List.concat lists)))
  /\ (forall n its, String.eqb (type n) "pi" = false ->
        parseUrlsetNode n = Ok its ->
        List.length its = List.length (filter is_url (children n))).
Proof.
  split; [exact parseUrlsetNode_map |]. split; [exact parseSitemap_map |].
  intros n its T. rewrite (parseUrlsetNode_map n T).
  generalize (filter is_url (children n)) as cs. intros cs. revert its.
  induction cs as [| c cs IH]; intros its; cbn [mapM].
  - now intros [= <-].
  - destruct (url_item c); cbn [bind]; [| discriminate].
    destruct (mapM url_item cs); cbn [bind]; [| discriminate].
    intros [= <-]. cbn [List.length]. f_equal. now apply IH.
Qed.

Lemma parseSitemap_document_order_witness :
  parseUrlsetNode (host := exampleHost) example_urlset
  = mapM (url_item (host := exampleHost))
      [Node "tag" (Some "url") ""
         [Node "tag" (Some "loc") "" [Node "text" None "/foo/" []]]].
Proof.
  exact (proj1 (@parseSitemap_document_order exampleHost) example_urlset
           eq_refl).
Defined.

(** X6. A text whose top-level nodes hold no [urlset] element is read
    as an empty document, without an error: a sitemap index, a page of
    HTML, a [urlset] nested in another element. *)
Theorem Sitemap_new_without_urlset {host : Host} (text : string) :
  (forall n, In n (parseDOM text) -> name_is n "urlset" = false) ->
  Sitemap_new (CValue (VStr text)) = Ok {| items := [] |}.
Proof.
  intros N. rewrite Sitemap_new_text. destruct (is_empty text); [reflexivity |].
  rewrite parseSitemap_map.
  replace (filter is_urlset (parseDOM text)) with (@nil node); [reflexivity |].
  symmetry. induction (parseDOM text) as [| n dom IH]; [reflexivity |].
  cbn [filter]. unfold is_urlset at 1. rewrite (N n (or_introl eq_refl)).
  apply IH. intros m Hm. apply N. now right.
Qed.

Lemma Sitemap_new_without_urlset_witness :
  Sitemap_new (host := hostParsing example_index)
    (CValue (VStr "<sitemapindex>...</sitemapindex>"))
  = Ok {| items := [] |}.
Proof.
  apply (@Sitemap_new_without_urlset (hostParsing example_index)).
  intros n [<- | [<- | []]]; reflexivity.
Defined.

(** X7. One malformed field spoils the whole document: when a [url]
    element of a top-level [urlset] has a [lastmod] child whose text is
    not one of the accepted date forms (an empty text included), or a
    [priority] child whose text is not empty and does not start with a
    number, reading the text throws, whatever else the document
    holds. *)
Theorem Sitemap_new_malformed_field {host : Host} (text : string)
  (n c l : node) :
  text <> "" ->
  In n (parseDOM text) -> name_is n "urlset" = true ->
  In c (children n) -> name_is c "url" = true ->
  In l (children c) ->
  (name_is l "lastmod" = true /\ ~ accepted_form (innerText l))
  \/ (name_is l "priority" = true /\ innerText l <> ""
      /\ isNaN (parseFloat (innerText l)) = true) ->
  exists err,
    Sitemap_new (CValue (VStr text)) = Throw err
    /\ (err = InvalidPriority \/ exists s, err = InvalidDateFormat s).
Proof.
  intros Ht Hn Un Hc Uc Hl Bad.
  assert (L : forall e, exists err, readChild e l = Throw err).
  { intros e. unfold readChild.
    destruct Bad as [[Nm B] | [Nm [Ne B]]]; unfold name_is in Nm;
      destruct (name l) as [nm |]; try discriminate;
      apply String.eqb_eq in Nm; subst nm.
    - cbn -[set_lastModified innerText].
      unfold set_lastModified. rewrite (@parseDate_not_accepted _ _ B).
      cbn [bind]. eauto.
    - cbn -[set_priority innerText].
      unfold set_priority. apply truthy_string in Ne. rewrite Ne.
      cbn [negb ToString bind]. rewrite B. cbn [bind]. eauto. }
  assert (C : forall out, exists err,
             (if name_is c "url"
              then e <- SitemapEntry_new (Some c) ;; Ok (out ++ [Entry e])
              else if String.eqb (type n) "pi" then Ok (out ++ [GENERATE_MAP])
                   else Ok out) = Throw err).
  { intros out. rewrite Uc. cbn [SitemapEntry_new].
    rewrite readNode_readChild.
    destruct (foldM_In_throws readChild (children c) l Hl L newSitemapEntry)
      as [err ->].
    cbn [bind]. eauto. }
  assert (U : forall out, exists err,
             (if name_is n "urlset"
              then its <- parseUrlsetNode n ;; Ok (out ++ its)
              else Ok out) = Throw err).
  { intros out. rewrite Un. unfold parseUrlsetNode.
    destruct (foldM_In_throws
                (fun out child =>
                   if name_is child "url"
                   then e <- SitemapEntry_new (Some child) ;;
                        Ok (out ++ [Entry e])
                   else if String.eqb (type n) "pi"
                        then Ok (out ++ [GENERATE_MAP])
                        else Ok out)
                (children n) c Hc C []) as [err ->].
    cbn [bind]. eauto. }
  destruct (foldM_In_throws
              (fun result n =>
                 if name_is n "urlset"
                 then its <- parseUrlsetNode n ;; Ok (result ++ its)
                 else Ok result)
              (parseDOM text) n Hn U []) as [err E].
  exists err.
  assert (S : Sitemap_new (CValue (VStr text)) = Throw err).
  { rewrite Sitemap_new_text. destruct text; [easy |].
    cbn [is_empty]. unfold parseSitemap. now rewrite E. }
  split; [exact S | exact (Sitemap_new_throw _ S)].
Qed.

Lemma Sitemap_new_malformed_field_witness :
  (exists err,
     Sitemap_new (host := hostParsing (example_dated "29/02/2024"))
       (CValue (VStr "<urlset>...</urlset>")) = Throw err)
  /\ exists sm,
       Sitemap_new (host := hostParsing (example_dated "2024-02-29"))
         (CValue (VStr "<urlset>...</urlset>")) = Ok sm.
Proof.
  split.
  - destruct (@Sitemap_new_malformed_field
                (hostParsing (example_dated "29/02/2024"))
                "<urlset>...</urlset>"
                (Node "tag" (Some "urlset") ""
                   [Node "tag" (Some "url") "" [element "loc" "/a/"];
                    Node "tag" (Some "url") ""
                      [element "loc" "/b/"; element "lastmod" "29/02/2024"]])
                (Node "tag" (Some "url") ""
                   [element "loc" "/b/"; element "lastmod" "29/02/2024"])
                (element "lastmod" "29/02/2024"))
      as (err & E & _).
    + discriminate.
    + now left.
    + reflexivity.
    + right. now left.
    + reflexivity.
    + right. now left.
    + left. split; [reflexivity |]. intros A.
      apply (@parseDate_accepted exampleHost) in A.
      destruct A as [date E]. vm_compute in E. discriminate.
    + now exists err.
  - eexists. vm_compute. reflexivity.
Defined.

(** X8. Reading a text or a file throws nothing but the errors of the
    fields: [InvalidDateFormat] for a [lastmod] and [InvalidPriority]
    for a [priority]; it never throws [InvalidSitemapContents]. Reading
    a file throws, besides, what reading the file throws; an empty file
    is an empty document. *)
Theorem parse_errors {host : Host} {fs : FileSystem} :
  (forall text err,
     Sitemap_new (CValue (VStr text)) = Throw err ->
     err = InvalidPriority \/ exists s, err = InvalidDateFormat s)
  /\ (forall file err,
        fromFile file = Throw err ->
        readFile file = Throw err
        \/ err = InvalidPriority \/ exists s, err = InvalidDateFormat s)
  /\ (forall file err, readFile file = Throw err -> fromFile file = Throw err)
  /\ (forall file, readFile file = Ok "" ->
        fromFile file = Ok {| items := [] |}).
Proof.
  split; [exact Sitemap_new_throw |]. split; [| split].
  - intros file err. unfold fromFile.
    destruct (readFile file) as [text | e]; cbn [bind].
    + intros T. right. exact (Sitemap_new_throw _ T).
    + intros [= ->]. now left.
  - intros file err R. unfold fromFile. now rewrite R.
  - intros file R. unfold fromFile. now rewrite R.
Qed.

Lemma parse_errors_witness :
  fromFile (host := exampleHost) (fs := exampleFS) "site-pi/sitemap.xml"
  = Throw (IOError "ENOENT")
  /\ fromFile (host := exampleHost) (fs := exampleFS)
       "site-pi/about/embedded-pi/sitemap.xml"
     = Ok {| items := [Entry (set_url newSitemapEntry "/foo/")] |}.
Proof.
  split; [| vm_compute; reflexivity].
  apply (proj1 (proj2 (proj2 (@parse_errors exampleHost exampleFS)))).
  reflexivity.
Defined.

Lemma parseSitemap_no_marker {host : Host} (text : string) (its : list item) :
  (forall n, In n (parseDOM text) -> String.eqb (type n) "pi" = false) ->
  parseSitemap text = Ok its -> ~ In GENERATE_MAP its.
Proof.
  unfold parseSitemap. generalize (parseDOM text) as dom. intros dom T.
  assert (G : forall out its,
             ~ In GENERATE_MAP out ->
             foldM (fun result n =>
                      if name_is n "urlset"
                      then its <- parseUrlsetNode n ;; Ok (result ++ its)
                      else Ok result) dom out = Ok its ->
             ~ In GENERATE_MAP its).
  { induction dom as [| n dom IH]; intros out its0 I; cbn [foldM].
    - now intros [= <-].
    - assert (Tn := T n (or_introl eq_refl)).
      assert (Td : forall m, In m dom -> String.eqb (type m) "pi" = false)
        by (intros m Hm; apply T; now right).
      destruct (name_is n "urlset"); cbn [bind]; [| now apply IH].
      destruct (parseUrlsetNode n) as [l |] eqn:E; cbn [bind];
        [| discriminate].
      apply IH; [exact Td |]. intros Hin. apply in_app_or in Hin as [? | Hin];
        [now apply I |].
      exact (parseUrlsetNode_no_marker n Tn E Hin). }
  now apply G.
Qed.

(** Writing a list of entries never throws. *)
Lemma mapM_toXml {host : Host} (its : list item) :
  ~ In GENERATE_MAP its ->
  mapM (fun it => match it with
                  | Entry e => Ok (toXml e "  ")
                  | GENERATE_MAP => Throw TypeError
                  end) its
  = Ok (map (fun e => toXml e "  ") (entries_of its)).
Proof.
  induction its as [| [e |] its IH]; intros N; cbn [mapM entries_of map bind].
  - reflexivity.
  - now rewrite IH by (intros H; apply N; now right).
  - destruct N. now left.
Qed.

Lemma mapM_toXml_marker {host : Host} (its : list item) :
  In GENERATE_MAP its ->
  mapM (fun it => match it with
                  | Entry e => Ok (toXml e "  ")
                  | GENERATE_MAP => Throw TypeError
                  end) its
  = Throw TypeError.
Proof.
  induction its as [| [e |] its IH]; [easy | |]; intros Hin; cbn [mapM bind].
  - destruct Hin as [? | Hin]; [discriminate |]. now rewrite (IH Hin).
  - reflexivity.
Qed.

Lemma Sitemap_toXml_entries {host : Host} (sm : Sitemap) :
  ~ In GENERATE_MAP (items sm) ->
  Sitemap_toXml sm
  = Ok (document_of (map (fun e => toXml e "  ") (entries_of (items sm)))).
Proof.
  intros N. unfold Sitemap_toXml. now rewrite (mapM_toXml _ N).
Qed.

(** X9. Writing a document: when its items are entries the text is the
    XML declaration, the [urlset] start tag, the [url] elements of the
    entries at an indent of two spaces, one per line and in order, then
    the end tag (an empty document has an empty line between the tags);
    when an item is the marker object writing throws, the marker having
    no [toXml]. A document read from a text whose top-level nodes are
    not of type ['pi'] holds no marker, and so can be written. *)
Theorem Sitemap_toXml_document {host : Host} :
  (forall sm, ~ In GENERATE_MAP (items sm) ->
     Sitemap_toXml sm
     = Ok (document_of (map (fun e => toXml e "  ") (entries_of (items sm)))))
  /\ (forall sm, In GENERATE_MAP (items sm) ->
        Sitemap_toXml sm = Throw TypeError)
  /\ (forall text sm,
        (forall n, In n (parseDOM text) -> String.eqb (type n) "pi" = false) ->
        Sitemap_new (CValue (VStr text)) = Ok sm ->
        exists xml, Sitemap_toXml sm = Ok xml)
  /\ Sitemap_toXml {| items := [] |}
     = Ok ("<?xml version=" ++ dq ++ "1.0" ++ dq ++ " encoding=" ++ dq
             ++ "UTF-8" ++ dq ++ "?>" ++ nl
             ++ "<urlset xmlns=" ++ dq
             ++ "http://www.sitemaps.org/schemas/sitemap/0.9" ++ dq ++ ">"
             ++ nl ++ nl ++ "</urlset>" ++ nl)%string.
Proof.
  split; [exact Sitemap_toXml_entries |]. split; [| split; [| reflexivity]].
  - intros sm M. unfold Sitemap_toXml. now rewrite (mapM_toXml_marker _ M).
  - intros text sm T. rewrite Sitemap_new_text.
    destruct (is_empty text).
    + intros [= <-]. eexists. reflexivity.
    + destruct (parseSitemap text) as [its |] eqn:P; cbn [bind];
        [| discriminate].
      intros [= <-]. eexists. apply Sitemap_toXml_entries.
      exact (parseSitemap_no_marker text T P).
Qed.

Lemma Sitemap_toXml_document_witness :
  Sitemap_toXml (host := exampleHost)
    {| items := [Entry (set_url newSitemapEntry "/a/");
                 Entry (set_url newSitemapEntry "/b/")] |}
  = Ok (document_of
          [("  <url>" ++ nl ++ "    <loc>/a/</loc>" ++ nl ++ "  </url>")%string;
           ("  <url>" ++ nl ++ "    <loc>/b/</loc>" ++ nl ++ "  </url>")%string])
  /\ Sitemap_toXml (host := exampleHost)
       {| items := [Entry (set_url newSitemapEntry "/a/"); GENERATE_MAP] |}
     = Throw TypeError.
Proof.
  destruct (@Sitemap_toXml_document exampleHost) as (Entries & Marker & _).
  split.
  - rewrite Entries; [reflexivity |].
    intros [E | [E | []]]; discriminate E.
  - apply Marker. right. now left.
Defined.

(* ================================================================== *)
(** * Further properties of the generator *)

(** One step of [scanDir]. *)
Lemma scanDir_unfold {host : Host} {fs : FileSystem} (fuel : nat)
  (dir : string) (o : options) :
  scanDir (S fuel) dir o
  = match readdir dir with
    | Throw err => Some (Throw err)
    | Ok entries =>
        let kept := filterEntries entries (opt_ext o) (opt_includeSitemap o) in
        if truthy (opt_includeSitemap o) && contains kept "sitemap.xml"
        then Some (getEmbeddedSitemap (Path.join dir "sitemap.xml") o)
        else scan_entries (scanDir fuel) dir o kept []
    end.
Proof. reflexivity. Qed.

Lemma scan_entries_cons {host : Host} {fs : FileSystem}
  (scan : string -> options -> option items_or_error) (dir : string)
  (o : options) (entry : string) (entries : list string)
  (result : list item) :
  scan_entries scan dir o (entry :: entries) result
  = match contribution scan dir o entry with
    | None => None
    | Some (Throw err) => Some (Throw err)
    | Some (Ok its) => scan_entries scan dir o entries (result ++ its)
    end.
Proof.
  unfold contribution. cbn [scan_entries]. fold (is_index o entry).
  destruct (stat (Path.join dir entry)) as [stats | err]; [| reflexivity].
  destruct (isFile stats).
  - destruct (if is_index o entry then _ else _); reflexivity.
  - destruct (isDirectory stats); [reflexivity |].
    now rewrite app_nil_r.
Qed.

(** The loop of the scan puts the contributions of the entries one after
    the other. *)
Lemma scan_entries_collect {host : Host} {fs : FileSystem}
  (scan : string -> options -> option items_or_error) (dir : string)
  (o : options) (entries : list string) (result : list item) :
  scan_entries scan dir o entries result
  = match collect (map (contribution scan dir o) entries) with
    | None => None
    | Some (Throw err) => Some (Throw err)
    | Some (Ok its) => Some (Ok (result ++ its))
    end.
Proof.
  revert result. induction entries as [| entry entries IH]; intros result.
  - cbn. now rewrite app_nil_r.
  - rewrite scan_entries_cons. cbn [map collect].
    destruct (contribution scan dir o entry) as [[its | err] |];
      try reflexivity.
    rewrite IH.
    destruct (collect _) as [[rest | err] |]; try reflexivity.
    now rewrite app_assoc.
Qed.

Lemma filter_indexed_In (f : string -> nat -> bool) (x : string)
  (l : list string) (ix : nat) :
  In x (filter_indexed f l ix) -> In x l.
Proof.
  revert ix. induction l as [| y l IH]; intros ix; cbn [filter_indexed];
    [easy |].
  destruct (f y ix); [intros [-> | H]; [now left | right; eauto] |].
  intros H. right. eauto.
Qed.

Lemma filter_indexed_filter (f : string -> bool) (l : list string) (ix : nat) :
  filter_indexed (fun entry _ => f entry) l ix = filter f l.
Proof.
  revert ix. induction l as [| y l IH]; intros ix; cbn [filter_indexed filter];
    [reflexivity |].
  now rewrite IH.
Qed.

Lemma filterEntries_filter (entries exts : list string) (keep : jsval) :
  filterEntries entries (ExtList exts) keep
  = filter (kept_by exts keep) entries.
Proof.
  unfold filterEntries.
  rewrite <- (filter_indexed_filter (kept_by exts keep) entries O).
  generalize O. induction entries as [| x l IH]; intros ix; [reflexivity |].
  cbn [filter_indexed]. rewrite IH. unfold kept_by at 1 3.
  now destruct (truthy keep && String.eqb x "sitemap.xml").
Qed.

Lemma filterEntries_In (entries : list string) (ext : extFilter) (keep : jsval)
  (x : string) :
  In x (filterEntries entries ext keep) -> In x entries.
Proof. unfold filterEntries. apply filter_indexed_In. Qed.

Lemma from_last_dot_no_dot (s : string) :
  no_dot s = true -> Path.from_last_dot s = None.
Proof.
  induction s as [| c s IH]; [reflexivity |]. cbn [no_dot Path.from_last_dot].
  intros E. apply andb_prop in E as [Hc Hs]. apply negb_true_iff in Hc.
  now rewrite (IH Hs), Hc.
Qed.

Lemma extname_no_dot (c : ascii) (rest : string) :
  no_dot rest = true -> Path.extname (String c rest) = "".
Proof.
  intros N. unfold Path.extname. rewrite (from_last_dot_no_dot _ N).
  now destruct (String.eqb _ _).
Qed.

(** ** The items of a scan *)

Lemma createSitemapEntry_url {host : Host} (entry : string) (o : options)
  (stats : Stats) (isFile : bool) (e : SitemapEntry) :
  createSitemapEntry entry o stats isFile = Ok e ->
  url e = Some (createUrl entry (opt_prefix o) isFile).
Proof.
  unfold createSitemapEntry.
  destruct (set_priority _ _) as [e1 |] eqn:P; cbn [bind]; [| discriminate].
  apply set_priority_frame in P as (U & _ & _). cbn in U.
  intros E.
  assert (F : exists v, set_lastModified e1 v = Ok e).
  { destruct (opt_lastModified o) as [[| | [|] | | | |] |]; eauto. }
  destruct F as (v & F).
  destruct (set_lastModified_frame _ _ F) as (U' & _).
  now rewrite U', U.
Qed.

Lemma createSitemapEntry_rooted {host : Host} (entry : string) (o : options)
  (stats : Stats) (isFile : bool) (e : SitemapEntry) :
  createSitemapEntry entry o stats isFile = Ok e -> rooted (Entry e).
Proof.
  intros E. exists e, (createUrl entry (opt_prefix o) isFile).
  split; [reflexivity |]. split; [exact (createSitemapEntry_url _ _ _ _ E) |].
  left. apply createUrl_first.
Qed.

Lemma inheritPrefix_rooted (o : options) (it it' : item) :
  inheritPrefix o it = Ok it' -> rooted it'.
Proof.
  destruct it as [e |]; cbn [inheritPrefix]; [| discriminate].
  destruct (url e) as [u |] eqn:U; [| discriminate].
  destruct (test reProto u) eqn:T; intros [= <-].
  - exists e, u. split; [reflexivity |]. split; [exact U |].
    right. now apply test_reProto.
  - eexists _, _. split; [reflexivity |]. split; [reflexivity |].
    left. apply createUrl_first.
Qed.

Lemma mapM_Forall {A B : Type} (f : A -> result B) (P : B -> Prop)
  (l : list A) (l' : list B) :
  (forall a b, f a = Ok b -> P b) -> mapM f l = Ok l' -> Forall P l'.
Proof.
  intros H. revert l'. induction l as [| a l IH]; intros l'; cbn [mapM].
  - intros [= <-]. constructor.
  - destruct (f a) as [b |] eqn:E; cbn [bind]; [| discriminate].
    destruct (mapM f l) as [bs |]; cbn [bind]; [| discriminate].
    intros [= <-]. constructor; [exact (H _ _ E) | now apply IH].
Qed.

Lemma getEmbeddedSitemap_rooted {host : Host} {fs : FileSystem} (file : string)
  (o : options) (its : list item) :
  getEmbeddedSitemap file o = Ok its -> Forall rooted its.
Proof.
  unfold getEmbeddedSitemap.
  destruct (readFile file); cbn [bind]; [| discriminate].
  destruct (Sitemap_new _); cbn [bind]; [| discriminate].
  apply mapM_Forall. apply inheritPrefix_rooted.
Qed.

Lemma contribution_rooted {host : Host} {fs : FileSystem}
  (scan : string -> options -> option items_or_error) (dir : string)
  (o : options) (entry : string) (its : list item) :
  (forall d o' its', scan d o' = Some (Ok its') -> Forall rooted its') ->
  contribution scan dir o entry = Some (Ok its) -> Forall rooted its.
Proof.
  intros IH. unfold contribution.
  destruct (stat _) as [stats |]; [| discriminate].
  destruct (isFile stats).
  - destruct (if is_index o entry then _ else _) as [e |] eqn:E; cbn [bind];
      [| discriminate].
    intros [= <-]. constructor; [| constructor].
    destruct (is_index o entry); exact (createSitemapEntry_rooted _ _ _ _ E).
  - destruct (isDirectory stats); [apply IH |].
    intros [= <-]. constructor.
Qed.

Lemma collect_Forall (P : item -> Prop) (cs : list (option items_or_error))
  (its : list item) :
  (forall c l, In c cs -> c = Some (Ok l) -> Forall P l) ->
  collect cs = Some (Ok its) -> Forall P its.
Proof.
  revert its. induction cs as [| c cs IH]; intros its H; cbn [collect].
  - intros [= <-]. constructor.
  - destruct c as [[l | err] |]; try discriminate.
    destruct (collect cs) as [[rest | err] |] eqn:E; try discriminate.
    intros [= <-]. apply Forall_app. split.
    + exact (H _ _ (or_introl eq_refl) eq_refl).
    + apply IH; [| reflexivity]. intros c l0 Hin. apply H. now right.
Qed.

(** Every item a scan returns is an entry with a URL that starts with a
    slash or has a scheme. *)
Lemma scanDir_rooted {host : Host} {fs : FileSystem} (fuel : nat) :
  forall dir o its, scanDir fuel dir o = Some (Ok its) -> Forall rooted its.
Proof.
  induction fuel as [| fuel IH]; intros dir o its; [discriminate |].
  rewrite scanDir_unfold.
  destruct (readdir dir) as [entries |]; [| discriminate]. cbn zeta.
  destruct (truthy _ && contains _ _).
  - intros [= E]. exact (getEmbeddedSitemap_rooted _ _ E).
  - rewrite scan_entries_collect.
    destruct (collect _) as [[l | err] |] eqn:C; try discriminate.
    intros [= <-]. cbn [app].
    refine (@collect_Forall rooted _ l _ C).
    intros c l' Hin ->. apply in_map_iff in Hin as (entry & Hc & _).
    exact (contribution_rooted _ _ _ _ IH Hc).
Qed.

Lemma rooted_no_marker (its : list item) :
  Forall rooted its -> ~ In GENERATE_MAP its.
Proof.
  intros F Hin. rewrite Forall_forall in F.
  destruct (F _ Hin) as (e & u & E & _). discriminate E.
Qed.

(** ** The depth of a scan *)

Lemma contribution_mono {host : Host} {fs : FileSystem}
  (scan scan' : string -> options -> option items_or_error) (dir : string)
  (o : options) (entry : string) (r : items_or_error) :
  (forall d o' r', scan d o' = Some r' -> scan' d o' = Some r') ->
  contribution scan dir o entry = Some r ->
  contribution scan' dir o entry = Some r.
Proof.
  intros M. unfold contribution.
  destruct (stat _) as [stats |]; [| easy].
  destruct (isFile stats); [easy |].
  destruct (isDirectory stats); [apply M | easy].
Qed.

Lemma scan_entries_mono {host : Host} {fs : FileSystem}
  (scan scan' : string -> options -> option items_or_error) (dir : string)
  (o : options) (entries : list string) :
  (forall d o' r', scan d o' = Some r' -> scan' d o' = Some r') ->
  forall result r,
    scan_entries scan dir o entries result = Some r ->
    scan_entries scan' dir o entries result = Some r.
Proof.
  intros M. induction entries as [| entry entries IH]; intros result r;
    [easy |].
  rewrite !scan_entries_cons.
  destruct (contribution scan dir o entry) as [c |] eqn:C; [| discriminate].
  rewrite (contribution_mono _ _ _ _ _ M C).
  destruct c; [apply IH | easy].
Qed.

(** A scan that ends within some depth ends the same way within any
    larger one. *)
Lemma scanDir_more_fuel {host : Host} {fs : FileSystem} (fuel : nat) :
  forall dir o r, scanDir fuel dir o = Some r -> scanDir (S fuel) dir o = Some r.
Proof.
  induction fuel as [| fuel IH]; intros dir o r; [discriminate |].
  rewrite (scanDir_unfold (S fuel)), (scanDir_unfold fuel).
  destruct (readdir dir) as [entries |]; [| easy]. cbn zeta.
  destruct (truthy _ && contains _ _); [easy |].
  now apply scan_entries_mono.
Qed.

Lemma scanDir_fuel_le {host : Host} {fs : FileSystem} (fuel fuel' : nat)
  (dir : string) (o : options) (r : items_or_error) :
  (fuel <= fuel')%nat -> scanDir fuel dir o = Some r ->
  scanDir fuel' dir o = Some r.
Proof.
  intros L E. induction L as [| fuel' L IH]; [exact E |].
  now apply scanDir_more_fuel.
Qed.

Section Depth.

Context {host : Host} {fs : FileSystem}.
Variable depth : string -> nat.
Hypothesis nested :
  forall dir entries entry stats,
    readdir dir = Ok entries -> In entry entries ->
    stat (Path.join dir entry) = Ok stats ->
    isFile stats = false -> isDirectory stats = true ->
    (depth (Path.join dir entry) < depth dir)%nat.

Lemma scan_entries_ends (scan : string -> options -> option items_or_error)
  (dir : string) (o : options) (entries : list string) :
  readdir dir = Ok entries ->
  (forall entry o', In entry entries ->
     (depth (Path.join dir entry) < depth dir)%nat ->
     exists r, scan (Path.join dir entry) o' = Some r) ->
  forall l result,
    (forall x, In x l -> In x entries) ->
    exists r, scan_entries scan dir o l result = Some r.
Proof using nested.
  intros R Sub. induction l as [| entry l IH]; intros result Hin.
  - cbn. eauto.
  - rewrite scan_entries_cons. unfold contribution.
    assert (He : In entry entries) by (apply Hin; now left).
    assert (Hl : forall x, In x l -> In x entries)
      by (intros x Hx; apply Hin; now right).
    destruct (stat (Path.join dir entry)) as [stats | err] eqn:St; [| eauto].
    destruct (isFile stats) eqn:F.
    + destruct (if is_index o entry then _ else _); cbn [bind]; eauto.
    + destruct (isDirectory stats) eqn:D; [| eauto].
      destruct (Sub entry
                  (extend o (prefixConfig (createUrl entry (opt_prefix o) true)))
                  He (nested _ _ R He St F D)) as [[data | err] ->]; eauto.
Qed.

Lemma scanDir_ends (fuel : nat) :
  forall dir o, (depth dir < fuel)%nat -> exists r, scanDir fuel dir o = Some r.
Proof using nested.
  induction fuel as [| fuel IH]; intros dir o L; [lia |].
  rewrite scanDir_unfold.
  destruct (readdir dir) as [entries | err] eqn:R; [| eauto]. cbn zeta.
  destruct (truthy _ && contains _ _); [eauto |].
  apply scan_entries_ends with (entries := entries); [exact R | |].
  - intros entry o' _ Lt. apply IH. lia.
  - intros x. apply filterEntries_In.
Qed.

End Depth.

(** ** The URLs of a scan *)

Lemma dir_url_snoc (ps : list string) (entry : string) :
  dir_url (ps ++ [entry]) = (dir_url ps ++ entry ++ "/")%string.
Proof.
  unfold dir_url. cbn [append]. f_equal. rewrite <- app_assoc. cbn [app].
  destruct ps as [| p ps]; [reflexivity |].
  rewrite (@concat_app (p :: ps) [entry; ""] ltac:(easy) ltac:(easy)).
  rewrite (@concat_app (p :: ps) [""] ltac:(easy) ltac:(easy)).
  cbn [String.concat]. now rewrite !append_assoc.
Qed.

(** The URL of an index file is the URL of its directory. *)
Lemma createUrl_index (ps : list string) :
  forallb plain ps = true ->
  createUrl "" (Some (dir_url ps)) true = dir_url ps
  /\ createUrl "" None true = dir_url [].
Proof.
  intros Pp. split; [| reflexivity].
  destruct ps as [| p ps]; [reflexivity |].
  assert (Hne : p :: ps <> []) by easy.
  assert (Sp := @forallb_plain_slash_free _ Pp).
  assert (Fp := @filter_plain _ Pp).
  assert (N : Path.normalize (dir_url (p :: ps)) = dir_url (p :: ps)).
  { unfold dir_url. cbn [append].
    apply normalize_segments with (tr := true) (segs := p :: ps);
      try assumption.
    - rewrite forallb_app, Sp. reflexivity.
    - rewrite filter_app, Fp. cbn. now rewrite app_nil_r.
    - now rewrite last_last.
    - easy. }
  unfold createUrl. cbn [first_char is_char].
  change (is_empty (dir_url (p :: ps))) with false. cbn iota.
  assert (J : Path.join (dir_url (p :: ps)) "" = dir_url (p :: ps)).
  { unfold Path.join. cbn [filter is_empty negb].
    change (is_empty (dir_url (p :: ps))) with false.
    cbn [negb String.concat]. exact N. }
  rewrite J, N. unfold dir_url at 1 2. cbn [append first_char is_char].
  rewrite Ascii.eqb_refl.
  change (String "/" (String.concat "/" ((p :: ps) ++ [""])))
    with (dir_url (p :: ps)).
  assert (L : is_char "/" (last_char (dir_url (p :: ps))) = true).
  { unfold dir_url. cbn [append].
    rewrite (@last_char_concat ((p :: ps) ++ [""]) ltac:(easy)).
    - now rewrite last_last.
    - rewrite forallb_app, Sp. reflexivity. }
  now rewrite L.
Qed.

(** The URLs of the entries of the root directory of a scan without a
    prefix. *)
Lemma createUrl_top (entry : string) :
  plain entry = true ->
  createUrl entry None true = dir_url [entry]
  /\ createUrl entry None false = (dir_url [] ++ entry)%string.
Proof.
  intros Pe.
  pose proof (@plain_not_empty _ Pe) as Ne.
  pose proof (@plain_slash_free _ Pe) as Sf.
  destruct entry as [| c r]; [discriminate |].
  assert (Hc : Ascii.eqb c "/" = false).
  { cbn [slash_free] in Sf. apply andb_prop in Sf as [Hc _].
    now apply negb_true_iff in Hc. }
  unfold createUrl. cbn [first_char is_char]. rewrite Hc.
  cbn [append first_char is_char]. rewrite !Hc.
  split; [| reflexivity]. cbn [andb].
  change (String "/" (String c r)) with ("/" ++ String c r)%string.
  rewrite last_char_append, (@last_char_slash_free _ Sf). cbn [negb].
  change (dir_url [String c r]) with (dir_url ([] ++ [String c r])).
  rewrite (dir_url_snoc [] (String c r)). reflexivity.
Qed.

Lemma createUrl_listed (o : options) (ps : list string) (entry : string) :
  prefix_is o ps -> forallb plain ps = true -> plain entry = true ->
  createUrl entry (opt_prefix o) true = dir_url (ps ++ [entry])
  /\ createUrl entry (opt_prefix o) false = (dir_url ps ++ entry)%string
  /\ createUrl "" (opt_prefix o) true = dir_url ps.
Proof.
  intros [P | [-> P]] Pp Pe; rewrite P.
  - destruct (@createUrl_scanned ps entry Pp Pe) as [D F].
    destruct (@createUrl_index ps Pp) as [I _]. auto.
  - destruct (@createUrl_top entry Pe) as [D F].
    destruct (@createUrl_index [] eq_refl) as [_ I]. auto.
Qed.

Lemma mapM_inheritPrefix_no_url (o : options) (its : list item) :
  Exists (fun it => item_url it = None) its ->
  mapM (inheritPrefix o) its = Throw TypeError.
Proof.
  induction 1 as [it its N | it its _ IH]; cbn [mapM].
  - destruct it as [e |]; [| reflexivity]. cbn in N.
    cbn [inheritPrefix]. now rewrite N.
  - destruct it as [e |]; [| reflexivity]. cbn [inheritPrefix].
    destruct (url e) as [u |]; [| reflexivity].
    destruct (test reProto u); cbn [bind]; now rewrite IH.
Qed.

(** X10. The scan of a directory without an embedded sitemap puts the
    contributions of its entries one after the other, in the order of
    the listing, the entries being those the filter keeps: a file
    contributes one entry (for an index file, the entry of the directory
    itself), a directory the items of its own scan under its own
    prefix, anything else nothing. The first entry whose [stat] fails,
    whose entry cannot be made or whose scan fails ends the scan with
    that error. A listing that fails is the error of the scan. *)
Theorem scanDir_contributions {host : Host} {fs : FileSystem} (fuel : nat)
  (dir : string) (o : options) :
  (forall entries,
     readdir dir = Ok entries ->
     truthy (opt_includeSitemap o)
     && contains (filterEntries entries (opt_ext o) (opt_includeSitemap o))
          "sitemap.xml" = false ->
     scanDir (S fuel) dir o
     = collect (map (contribution (scanDir fuel) dir o)
                  (filterEntries entries (opt_ext o) (opt_includeSitemap o))))
  /\ (forall err, readdir dir = Throw err ->
        scanDir (S fuel) dir o = Some (Throw err))
  /\ (readdir dir = Ok [] -> scanDir (S fuel) dir o = Some (Ok [])).
Proof.
  split; [| split].
  - intros entries R N. rewrite scanDir_unfold, R. cbn zeta. rewrite N.
    rewrite scan_entries_collect.
    now destruct (collect _) as [[its | err] |].
  - intros err R. now rewrite scanDir_unfold, R.
  - intros R. rewrite scanDir_unfold, R. cbn.
    now rewrite andb_false_r.
Qed.

Lemma scanDir_contributions_witness :
  scanDir (host := exampleHost) (fs := exampleFS) 3 "site-pi/about"
    (extend defaultOptions (prefixConfig "/about/"))
  = collect
      [scanDir (host := exampleHost) (fs := exampleFS) 2
         "site-pi/about/embedded-pi"
         (extend defaultOptions (prefixConfig "/about/embedded-pi/"));
       Some (Ok [Entry {| url := Some "/about/";
                          changeFrequency := VUndefined;
                          _lastModified := Some example_mtime;
                          _priority := VNum DEFAULT_PRIORITY |}])]
  /\ scanDir (host := exampleHost) (fs := exampleFS) 3 "site-pi/missing"
       defaultOptions
     = Some (Throw (IOError "ENOENT")).
Proof.
  destruct (@scanDir_contributions exampleHost exampleFS 2 "site-pi/about"
              (extend defaultOptions (prefixConfig "/about/")))
    as (Listing & _).
  split.
  - rewrite (Listing ["embedded-pi"; "index.html"] eq_refl eq_refl).
    reflexivity.
  - apply (@scanDir_contributions exampleHost exampleFS 2 "site-pi/missing"
             defaultOptions).
    reflexivity.
Defined.

(** X11. Whatever the directory tree, the options and the embedded
    sitemaps met, every item of a sitemap the generator returns is an
    entry with a URL, and the URL starts with a slash or has a scheme:
    no marker object and no entry without a URL comes out of a scan. So
    the sitemap returned can always be written as XML. An error of the
    generator is an error of the scan: building the sitemap from the
    items found adds none. *)
Theorem generate_items {host : Host} {fs : FileSystem} (fuel : nat)
  (dir : string) (cfg : option config) :
  (forall sm, generate fuel dir cfg = Some (Ok sm) ->
     Forall rooted (items sm)
     /\ Sitemap_toXml sm
        = Ok (document_of
                (map (fun e => toXml e "  ") (entries_of (items sm)))))
  /\ (forall err, generate fuel dir cfg = Some (Throw err) ->
        scanDir fuel dir (extend defaultOptions (override emptyConfig cfg))
        = Some (Throw err)).
Proof.
  unfold generate.
  destruct (scanDir fuel dir _) as [[its | e] |] eqn:E; split;
    try discriminate.
  - intros sm [= <-]. cbn [items].
    pose proof (scanDir_rooted _ _ _ E) as R. split; [exact R |].
    apply Sitemap_toXml_entries. exact (rooted_no_marker R).
  - intros err [= <-]. reflexivity.
Qed.

Lemma generate_items_witness :
  Forall rooted
    [Entry (set_url newSitemapEntry "/about/embedded-pi/foo/");
     Entry {| url := Some "/about/"; changeFrequency := VUndefined;
              _lastModified := Some example_mtime;
              _priority := VNum DEFAULT_PRIORITY |}]
  /\ generate (host := exampleHost) (fs := exampleFS) 10 "site-pi" None
     = Some (Ok {| items :=
                     [Entry (set_url newSitemapEntry "/about/embedded-pi/foo/");
                      Entry {| url := Some "/about/";
                               changeFrequency := VUndefined;
                               _lastModified := Some example_mtime;
                               _priority := VNum DEFAULT_PRIORITY |}] |}).
Proof.
  assert (G : generate (host := exampleHost) (fs := exampleFS) 10 "site-pi" None
              = Some (Ok {| items :=
                     [Entry (set_url newSitemapEntry "/about/embedded-pi/foo/");
                      Entry {| url := Some "/about/";
                               changeFrequency := VUndefined;
                               _lastModified := Some example_mtime;
                               _priority := VNum DEFAULT_PRIORITY |}] |}))
    by (vm_compute; reflexivity).
  split; [| exact G].
  exact (proj1 (proj1 (@generate_items exampleHost exampleFS 10 "site-pi" None)
                  _ G)).
Defined.

Lemma example_nested (dir : string) (entries : list string) (entry : string)
  (stats : Stats) :
  readdir (FileSystem := exampleFS) dir = Ok entries -> In entry entries ->
  stat (FileSystem := exampleFS) (Path.join dir entry) = Ok stats ->
  isFile stats = false -> isDirectory stats = true ->
  (example_depth (Path.join dir entry) < example_depth dir)%nat.
Proof.
  intros R Hin St F D.
  cbn -[String.eqb] in R.
  repeat match type of R with
         | context [String.eqb ?k dir] =>
             destruct (String.eqb_spec k dir) as [<- | _]
         end;
    [.. | discriminate R];
    injection R as <-;
    repeat (destruct Hin as [<- | Hin]; [| try easy]);
    vm_compute in St; injection St as <-; try discriminate F;
    vm_compute; lia.
Qed.

(** X12. The scan ends on every tree whose directories nest finitely:
    when some measure of the directories decreases from each directory
    to the directories listed in it, the generator returns, for every
    depth allowed beyond the measure of the root, one and the same
    outcome: a sitemap or the first error met. And a scan that ends
    within some depth ends the same way within any larger one. *)
Theorem generate_terminates {host : Host} {fs : FileSystem}
  (depth : string -> nat) :
  (forall dir entries entry stats,
     readdir dir = Ok entries -> In entry entries ->
     stat (Path.join dir entry) = Ok stats ->
     isFile stats = false -> isDirectory stats = true ->
     (depth (Path.join dir entry) < depth dir)%nat) ->
  (forall dir cfg,
     exists r, forall fuel,
       (depth dir < fuel)%nat -> generate fuel dir cfg = Some r)
  /\ (forall fuel fuel' dir o r,
        (fuel <= fuel')%nat -> scanDir fuel dir o = Some r ->
        scanDir fuel' dir o = Some r).
Proof.
  intros nested. split.
  - intros dir cfg.
    destruct (scanDir_ends depth nested (fuel := S (depth dir)) dir
                (extend defaultOptions (override emptyConfig cfg))
                ltac:(lia)) as [r E].
    exists (match r with
            | Ok its => Sitemap_new (CArray its)
            | Throw err => Throw err
            end).
    intros fuel L. unfold generate.
    rewrite (@scanDir_fuel_le _ _ (S (depth dir)) fuel _ _ r ltac:(lia) E).
    now destruct r.
  - intros fuel fuel' dir o r. apply scanDir_fuel_le.
Qed.

Lemma generate_terminates_witness :
  exists r, forall fuel,
    (example_depth "site-pi" < fuel)%nat ->
    generate (host := exampleHost) (fs := exampleFS) fuel "site-pi" None
    = Some r.
Proof.
  exact (proj1 (@generate_terminates exampleHost exampleFS example_depth
                  example_nested) "site-pi" None).
Defined.

(** X13. The filter of a directory listing, for a list of extensions:
    it keeps, in the order of the listing, the names whose extension is
    in the list, the names without an extension (directories, but also
    files such as [Makefile] or [.htaccess]) and, when [includeSitemap]
    is set, [sitemap.xml]. It adds no name. Any other name is dropped
    before it is looked at, so a directory whose name has an extension
    that is not in the list, such as [v1.2], is not scanned; and when
    [includeSitemap] is not set and [.xml] is not in the list,
    [sitemap.xml] is dropped like any other file. *)
Theorem filterEntries_extensions (entries exts : list string) (keep : jsval) :
  filterEntries entries (ExtList exts) keep
  = filter (kept_by exts keep) entries
  /\ (forall c rest,
        no_dot rest = true -> In (String c rest) entries ->
        In (String c rest) (filterEntries entries (ExtList exts) keep))
  /\ (forall x,
        In x entries -> In (Path.extname x) exts ->
        In x (filterEntries entries (ExtList exts) keep))
  /\ (forall x,
        Path.extname x <> "" -> ~ In (Path.extname x) exts ->
        truthy keep = false \/ x <> "sitemap.xml" ->
        ~ In x (filterEntries entries (ExtList exts) keep))
  /\ (truthy keep = false -> contains exts ".xml" = false ->
      ~ In "sitemap.xml" (filterEntries entries (ExtList exts) keep))
  /\ (forall ext x, In x (filterEntries entries ext keep) -> In x entries).
Proof.
  split; [apply filterEntries_filter |].
  rewrite filterEntries_filter.
  split; [| split; [| split; [| split]]].
  - intros c rest N Hin. apply filter_In. split; [exact Hin |].
    unfold kept_by. rewrite (@extname_no_dot c rest N). cbn [is_empty].
    now rewrite orb_true_r.
  - intros x Hin He. apply filter_In. split; [exact Hin |].
    unfold kept_by. apply contains_In in He. rewrite He.
    now rewrite orb_true_r.
  - intros x Ne Nin Hs Hin. apply filter_In in Hin as [_ K].
    unfold kept_by in K.
    assert (S : truthy keep && String.eqb x "sitemap.xml" = false).
    { destruct Hs as [-> | Hx]; [reflexivity |].
      apply String.eqb_neq in Hx. rewrite Hx. apply andb_false_r. }
    rewrite S in K. cbn [orb] in K.
    apply orb_prop in K as [K | K].
    + destruct (Path.extname x); [now apply Ne | discriminate K].
    + apply contains_In in K. now apply Nin.
  - intros T X Hin. apply filter_In in Hin as [_ K].
    unfold kept_by in K. rewrite T in K.
    change (Path.extname "sitemap.xml") with ".xml" in K.
    rewrite X in K. discriminate K.
  - intros ext x. apply filterEntries_In.
Qed.

Lemma filterEntries_extensions_witness :
  filterEntries ["about"; ".htaccess"; "a.html"; "b.txt"; "sitemap.xml"]
    (opt_ext defaultOptions) (VBool false)
  = ["about"; ".htaccess"; "a.html"]
  /\ In ".htaccess"
       (filterEntries ["about"; ".htaccess"; "a.html"; "b.txt"; "sitemap.xml"]
          (ExtList [".html"; ".htm"]) (VBool false))
  /\ ~ In "v1.2"
         (filterEntries ["about"; "v1.2"] (ExtList [".html"; ".htm"])
            (VBool true)).
Proof.
  destruct (@filterEntries_extensions
              ["about"; ".htaccess"; "a.html"; "b.txt"; "sitemap.xml"]
              [".html"; ".htm"] (VBool false)) as (E & Plain & _).
  split; [| split].
  - change (opt_ext defaultOptions) with (ExtList [".html"; ".htm"]).
    rewrite E. reflexivity.
  - apply (Plain "."%char "htaccess"); [reflexivity | right; now left].
  - apply (proj1 (proj2 (proj2 (proj2 (@filterEntries_extensions
             ["about"; "v1.2"] [".html"; ".htm"] (VBool true)))))).
    + discriminate.
    + intros [H | [H | []]]; discriminate H.
    + right. discriminate.
Defined.

(** X14. The items of an embedded sitemap need a URL each. When the
    file is read and parsed, the scan of the directory returns the items
    of the document, rewritten under the prefix, if every item has a
    URL; if an item has none (a [url] element without [loc], or the
    marker object), the rewriting throws a [TypeError]. *)
Theorem getEmbeddedSitemap_urls {host : Host} {fs : FileSystem}
  (file text : string) (o : options) (sm : Sitemap) :
  readFile file = Ok text ->
  Sitemap_new (CValue (VStr text)) = Ok sm ->
  (Forall has_url (items sm) ->
   getEmbeddedSitemap file o = Ok (map (contributed o) (items sm)))
  /\ (Exists (fun it => item_url it = None) (items sm) ->
      getEmbeddedSitemap file o = Throw TypeError)
  /\ (forall c e,
        SitemapEntry_new (Some c) = Ok e ->
        last_named "loc" (children c) = None ->
        item_url (Entry e) = None).
Proof.
  intros F P. unfold getEmbeddedSitemap. rewrite F. cbn [bind].
  rewrite P. cbn [bind]. split; [| split].
  - apply mapM_inheritPrefix.
  - apply mapM_inheritPrefix_no_url.
  - intros c e E N. cbn [SitemapEntry_new] in E. cbn [item_url].
    rewrite readNode_readChild in E. revert E N.
    generalize (children c) as cs.
    assert (G : forall cs e0, url e0 = None ->
                  foldM readChild cs e0 = Ok e ->
                  last_named "loc" cs = None -> url e = None);
      [| intros cs; now apply G].
    induction cs as [| x cs IH]; intros e0 U; cbn [foldM last_named].
    + now intros [= <-].
    + destruct (readChild e0 x) as [e1 |] eqn:E1; cbn [bind]; [| discriminate].
      intros E N. destruct (last_named "loc" cs) eqn:L; [discriminate |].
      destruct (name_is x "loc") eqn:X; [discriminate |].
      apply (IH e1); [| exact E | reflexivity].
      destruct (readChild_fields _ _ E1) as (U1 & _). now rewrite U1, X.
Qed.

Lemma getEmbeddedSitemap_urls_witness :
  getEmbeddedSitemap (host := hostParsing example_unlocated) (fs := exampleFS)
    "site-pi/about/embedded-pi/sitemap.xml"
    (extend defaultOptions (prefixConfig "/about/embedded-pi/"))
  = Throw TypeError
  /\ getEmbeddedSitemap (host := exampleHost) (fs := exampleFS)
       "site-pi/about/embedded-pi/sitemap.xml"
       (extend defaultOptions (prefixConfig "/about/embedded-pi/"))
     = Ok [Entry (set_url newSitemapEntry "/about/embedded-pi/foo/")].
Proof.
  split.
  - apply (proj1 (proj2 (@getEmbeddedSitemap_urls
                           (hostParsing example_unlocated) exampleFS
                           "site-pi/about/embedded-pi/sitemap.xml" example_xml
                           (extend defaultOptions
                              (prefixConfig "/about/embedded-pi/"))
                           {| items :=
                                [Entry (set_url newSitemapEntry "/a/");
                                 Entry (store_priority newSitemapEntry
                                          (VNum (parseFloat "0.8")))] |}
                           eq_refl eq_refl))).
    right. now left.
  - apply (proj1 (@getEmbeddedSitemap_urls exampleHost exampleFS
                    "site-pi/about/embedded-pi/sitemap.xml" example_xml
                    (extend defaultOptions
                       (prefixConfig "/about/embedded-pi/"))
                    {| items := [Entry (set_url newSitemapEntry "/foo/")] |}
                    eq_refl eq_refl)).
    repeat constructor. discriminate.
Defined.

(** X15. The URLs of a scan follow the directory tree. In the scan of
    the directory reached from the root by the segments [ps], whose
    prefix is the URL [/p1/.../pn/] of that directory (or absent, at the
    root), a file named [entry] contributes one entry with the URL
    [/p1/.../pn/entry], an index file one entry with the URL of the
    directory itself, and a directory named [entry] is scanned with the
    prefix [/p1/.../pn/entry/], the other options unchanged. Names are
    as a listing gives them: not empty, without a slash, neither [.] nor
    [..]. *)
Theorem scan_urls {host : Host} {fs : FileSystem}
  (scan : string -> options -> option items_or_error) (dir : string)
  (o : options) (ps : list string) (entry : string) :
  prefix_is o ps -> forallb plain ps = true -> plain entry = true ->
  (forall stats its,
     stat (Path.join dir entry) = Ok stats -> isFile stats = true ->
     contribution scan dir o entry = Some (Ok its) ->
     map item_url its
     = [Some (if is_index o entry then dir_url ps
              else (dir_url ps ++ entry)%string)])
  /\ (forall stats,
        stat (Path.join dir entry) = Ok stats ->
        isFile stats = false -> isDirectory stats = true ->
        contribution scan dir o entry
        = scan (Path.join dir entry)
            (extend o (prefixConfig (dir_url (ps ++ [entry])))))
  /\ prefix_is (extend o (prefixConfig (dir_url (ps ++ [entry]))))
       (ps ++ [entry])
  /\ forallb plain (ps ++ [entry]) = true.
Proof.
  intros P Pp Pe.
  destruct (@createUrl_listed o ps entry P Pp Pe) as (D & F & I).
  split; [| split; [| split]].
  - intros stats its St Fi. unfold contribution. rewrite St, Fi.
    destruct (is_index o entry).
    + destruct (createSitemapEntry "" o stats true) as [e |] eqn:E;
        cbn [bind]; [| discriminate].
      intros [= <-]. cbn [map item_url].
      now rewrite (createSitemapEntry_url _ _ _ _ E), I.
    + destruct (createSitemapEntry entry o stats false) as [e |] eqn:E;
        cbn [bind]; [| discriminate].
      intros [= <-]. cbn [map item_url].
      now rewrite (createSitemapEntry_url _ _ _ _ E), F.
  - intros stats St Fi Di. unfold contribution.
    now rewrite St, Fi, Di, D.
  - now left.
  - rewrite forallb_app, Pp. cbn [forallb]. now rewrite Pe.
Qed.

Lemma scan_urls_witness :
  contribution (host := exampleHost) (fs := exampleFS)
    (scanDir (host := exampleHost) (fs := exampleFS) 2)
    "site-pi/about" (extend defaultOptions (prefixConfig "/about/"))
    "embedded-pi"
  = scanDir (host := exampleHost) (fs := exampleFS) 2
      "site-pi/about/embedded-pi"
      (extend (extend defaultOptions (prefixConfig "/about/"))
         (prefixConfig "/about/embedded-pi/"))
  /\ map item_url
       [Entry {| url := Some "/about/"; changeFrequency := VUndefined;
                 _lastModified := Some example_mtime;
                 _priority := VNum DEFAULT_PRIORITY |}]
     = [Some "/about/"].
Proof.
  split.
  - exact (proj1 (proj2 (@scan_urls exampleHost exampleFS
                           (scanDir (host := exampleHost) (fs := exampleFS) 2)
                           "site-pi/about"
                           (extend defaultOptions (prefixConfig "/about/"))
                           ["about"] "embedded-pi"
                           (or_introl eq_refl) eq_refl eq_refl))
             {| isFile := false; isDirectory := true; mtime := example_mtime |}
             eq_refl eq_refl eq_refl).
  - exact (proj1 (@scan_urls exampleHost exampleFS
                    (scanDir (host := exampleHost) (fs := exampleFS) 2)
                    "site-pi/about"
                    (extend defaultOptions (prefixConfig "/about/"))
                    ["about"] "index.html"
                    (or_introl eq_refl) eq_refl eq_refl)
             example_stats _ eq_refl eq_refl eq_refl).
Defined.

(* ================================================================== *)
(** * Further properties of the date codec *)

Lemma digit_val_range (c : ascii) : is_digit c = true -> 0 <= digit_val c <= 9.
Proof.
  unfold is_digit, digit_val. intros E. apply andb_prop in E as [L U].
  apply Nat.leb_le in L, U. lia.
Qed.

(** A year written [00ab] is the year [19ab] to the [Date] constructor
    and to [Date.UTC]. *)
Lemma FullYear_two_digits (a b : ascii) :
  is_digit a = true -> is_digit b = true ->
  FullYear (toNumberDigits (str4 "0" "0" a b))
  = 1900 + toNumberDigits (str2 a b)
  /\ FullYear (toNumberDigits (str4 "1" "9" a b))
     = 1900 + toNumberDigits (str2 a b)
  /\ FullYear (1900 + toNumberDigits (str2 a b))
     = 1900 + toNumberDigits (str2 a b).
Proof.
  intros Ha Hb. apply digit_val_range in Ha, Hb.
  assert (E0 : toNumberDigits (str4 "0" "0" a b)
               = 10 * digit_val a + digit_val b).
  { unfold toNumberDigits, str4. cbn [digits_value_from].
    change (digit_val "0") with 0. lia. }
  assert (E19 : toNumberDigits (str4 "1" "9" a b)
                = 1900 + (10 * digit_val a + digit_val b)).
  { unfold toNumberDigits, str4. cbn [digits_value_from].
    change (digit_val "1") with 1. change (digit_val "9") with 9. lia. }
  assert (E2 : toNumberDigits (str2 a b) = 10 * digit_val a + digit_val b).
  { unfold toNumberDigits, str2. cbn [digits_value_from]. lia. }
  rewrite E0, E19, E2. unfold FullYear.
  repeat match goal with
         | |- context [?x <=? ?y] => destruct (Z.leb_spec x y)
         end; cbn [andb]; lia.
Qed.

Lemma newDateLocal_FullYear {host : Host} (y y' m d : Z) :
  FullYear y = FullYear y' -> newDateLocal y m d = newDateLocal y' m d.
Proof. intros E. unfold newDateLocal. now rewrite E. Qed.

Lemma UTC_FullYear (y y' m d h mi s ms : Z) :
  FullYear y = FullYear y' -> UTC y m d h mi s ms = UTC y' m d h mi s ms.
Proof. intros E. unfold UTC. now rewrite E. Qed.

Lemma TimeClip_idempotent (x : Z) :
  match TimeClip x with
  | Some t => TimeClip t
  | None => None
  end = TimeClip x.
Proof.
  unfold TimeClip. destruct (8640000000000000 <? Z.abs x) eqn:E;
    [reflexivity | now rewrite E].
Qed.

Lemma whole_seconds_same (t u : Z) :
  t / 1000 = u / 1000 <-> t - t mod 1000 = u - u mod 1000.
Proof. split; intros E; Z.div_mod_to_equations; lia. Qed.

(** X16. Two instants whose UTC years have four digits are written
    alike by [formatDate] exactly when they fall in the same second. *)
Theorem formatDate_injective (t u : Z) :
  1000 <= YearFromTime t <= 9999 -> 1000 <= YearFromTime u <= 9999 ->
  formatDate (MkDate (Some t)) = formatDate (MkDate (Some u))
  <-> t / 1000 = u / 1000.
Proof.
  intros Ht Hu. rewrite whole_seconds_same. split.
  - intros E.
    pose proof (@parseDate_formatDate exampleHost t Ht) as Pt.
    pose proof (@parseDate_formatDate exampleHost u Hu) as Pu.
    rewrite E in Pt. congruence.
  - intros E. rewrite <- (formatDate_whole_seconds t),
      <- (formatDate_whole_seconds u). now rewrite E.
Qed.

Lemma formatDate_injective_witness :
  formatDate (MkDate (Some 1709209815999))
  = formatDate (MkDate (Some 1709209815000)).
Proof.
  apply (@formatDate_injective 1709209815999 1709209815000);
    [vm_compute; split; discriminate | vm_compute; split; discriminate
     | reflexivity].
Defined.

(** X17. A year written with two leading zeros is read as a year of the
    twentieth century: in each of the accepted forms the text [00ab...]
    parses to the same date as [19ab...], the [Date] constructor and
    [Date.UTC] taking a year from 0 to 99 as 1900 plus that year. *)
Theorem parseDate_two_digit_year {host : Host} (a b : ascii) :
  is_digit a = true -> is_digit b = true ->
  parseDate (str4 "0" "0" a b) = parseDate (str4 "1" "9" a b)
  /\ parseDate (str4 "0" "0" a b)
     = Ok (newDateLocal (1900 + toNumberDigits (str2 a b)) 0 1)
  /\ (forall MM, digits 2 MM ->
        parseDate (str4 "0" "0" a b ++ "-" ++ MM)
        = parseDate (str4 "1" "9" a b ++ "-" ++ MM))
  /\ (forall MM DD, digits 2 MM -> digits 2 DD ->
        parseDate (str4 "0" "0" a b ++ "-" ++ MM ++ "-" ++ DD)
        = parseDate (str4 "1" "9" a b ++ "-" ++ MM ++ "-" ++ DD))
  /\ (forall MM DD hh mm sec zone,
        digits 2 MM -> digits 2 DD -> digits 2 hh -> digits 2 mm ->
        seconds_part sec -> zone_part zone ->
        parseDate (str4 "0" "0" a b ++ "-" ++ MM ++ "-" ++ DD ++ "T" ++ hh
                     ++ ":" ++ mm ++ sec ++ zone)
        = parseDate (str4 "1" "9" a b ++ "-" ++ MM ++ "-" ++ DD ++ "T" ++ hh
                       ++ ":" ++ mm ++ sec ++ zone)).
Proof.
  intros Ha Hb.
  destruct (FullYear_two_digits a b Ha Hb) as (Y0 & Y19 & Y).
  assert (E : FullYear (toNumberDigits (str4 "0" "0" a b))
              = FullYear (toNumberDigits (str4 "1" "9" a b)))
    by (now rewrite Y0, Y19).
  assert (D0 : is_digit "0" = true) by reflexivity.
  assert (D1 : is_digit "1" = true) by reflexivity.
  assert (D9 : is_digit "9" = true) by reflexivity.
  split; [| split; [| split; [| split]]].
  - rewrite !parseDate_YYYY by assumption.
    f_equal. now apply newDateLocal_FullYear.
  - rewrite parseDate_YYYY by assumption. f_equal.
    apply newDateLocal_FullYear. now rewrite Y0, Y.
  - intros MM HM. apply digits_2 in HM as (m1 & m2 & -> & ? & ?).
    rewrite !parseDate_YYYY_MM by assumption.
    f_equal. now apply newDateLocal_FullYear.
  - intros MM DD HM HD.
    apply digits_2 in HM as (m1 & m2 & -> & ? & ?).
    apply digits_2 in HD as (d1 & d2 & -> & ? & ?).
    rewrite !parseDate_YYYY_MM_DD by assumption.
    f_equal. now apply newDateLocal_FullYear.
  - intros MM DD hh mm sec zone HM HD Hh Hm Hsec Hzone.
    apply digits_2 in HM as (m1 & m2 & -> & ? & ?).
    apply digits_2 in HD as (d1 & d2 & -> & ? & ?).
    apply digits_2 in Hh as (h1 & h2 & -> & ? & ?).
    apply digits_2 in Hm as (i1 & i2 & -> & ? & ?).
    rewrite (@parseDate_datetime "0" "0" a b m1 m2 d1 d2 h1 h2 i1 i2)
      by assumption.
    rewrite (@parseDate_datetime "1" "9" a b m1 m2 d1 d2 h1 h2 i1 i2)
      by assumption.
    do 3 f_equal. unfold datetime_utc.
    destruct (fraction_ms _); [| reflexivity].
    now apply UTC_FullYear.
Qed.

Lemma parseDate_two_digit_year_witness :
  parseDate (host := exampleHost) "0070-01-01T00:00Z"
  = parseDate (host := exampleHost) "1970-01-01T00:00Z"
  /\ parseDate (host := exampleHost) "1970-01-01T00:00Z" = Ok (MkDate (Some 0)).
Proof.
  split; [| vm_compute; reflexivity].
  assert (D2 : forall w, (String.length w =? 2)%nat && all_digits w = true ->
                         digits 2 w) by (intros w; apply digits_intro).
  exact (proj2 (proj2 (proj2 (proj2
           (@parseDate_two_digit_year exampleHost "7" "0" eq_refl eq_refl))))
           "01" "01" "00" "00" "" "Z"
           (D2 "01" eq_refl) (D2 "01" eq_refl) (D2 "00" eq_refl)
           (D2 "00" eq_refl) no_seconds zone_Z).
Defined.

(** X18. A date without a time is read as midnight of that day in the
    local zone, while the same date followed by [T00:00Z] is midnight
    UTC: the two differ by the offset of the local zone. A year alone is
    its first of January and a year and month the first of that
    month. *)
Theorem parseDate_local_midnight {host : Host} (YYYY MM DD : string) :
  digits 4 YYYY -> digits 2 MM -> digits 2 DD ->
  let t := MakeDate (MakeDay (FullYear (toNumberDigits YYYY))
                             (toNumberDigits MM - 1) (toNumberDigits DD)) 0 in
  parseDate (YYYY ++ "-" ++ MM ++ "-" ++ DD)
  = Ok (MkDate (TimeClip (t - LocalTZA t)))
  /\ parseDate (YYYY ++ "-" ++ MM ++ "-" ++ DD ++ "T00:00Z")
     = Ok (MkDate (TimeClip t))
  /\ parseDate (YYYY ++ "-" ++ MM) = parseDate (YYYY ++ "-" ++ MM ++ "-01")
  /\ parseDate YYYY = parseDate (YYYY ++ "-01-01").
Proof.
  intros HY HM HD t. subst t.
  apply digits_4 in HY as (y1 & y2 & y3 & y4 & -> & Hy1 & Hy2 & Hy3 & Hy4).
  apply digits_2 in HM as (m1 & m2 & -> & Hm1 & Hm2).
  apply digits_2 in HD as (d1 & d2 & -> & Hd1 & Hd2).
  assert (D0 : is_digit "0" = true) by reflexivity.
  assert (D1 : is_digit "1" = true) by reflexivity.
  split; [| split; [| split]].
  - rewrite parseDate_YYYY_MM_DD by assumption. reflexivity.
  - pose proof (@parseDate_datetime y1 y2 y3 y4 m1 m2 d1 d2 "0" "0" "0" "0"
                  Hy1 Hy2 Hy3 Hy4 Hm1 Hm2 Hd1 Hd2 D0 D0 D0 D0
                  _ "" "Z" no_seconds zone_Z) as P.
    cbn [append str2] in P |- *. rewrite P. clear P.
    unfold in_zone, datetime_utc.
    cbn [String.eqb Ascii.eqb Bool.eqb fraction_of seconds_of].
    rewrite fraction_ms_absent. unfold UTC, newDate.
    change (toNumberDigits "00") with 0. change (MakeTime 0 0 0 0) with 0.
    now rewrite TimeClip_idempotent.
  - rewrite parseDate_YYYY_MM by assumption.
    change "-01" with ("-" ++ str2 "0" "1")%string.
    rewrite parseDate_YYYY_MM_DD by assumption. reflexivity.
  - rewrite parseDate_YYYY by assumption.
    change "-01-01" with ("-" ++ str2 "0" "1" ++ "-" ++ str2 "0" "1")%string.
    rewrite parseDate_YYYY_MM_DD by assumption. reflexivity.
Qed.

Lemma parseDate_local_midnight_witness :
  parseDate (host := hostEast) "2024-02-29"
  = Ok (MkDate (Some (1709164800000 - 10800000)))
  /\ parseDate (host := hostEast) "2024-02-29T00:00Z"
     = Ok (MkDate (Some 1709164800000))
  /\ formatDate (MkDate (Some (1709164800000 - 10800000)))
     = "2024-02-28T21:00:00Z".
Proof.
  assert (D2 : forall n w, (String.length w =? n)%nat && all_digits w = true ->
                           digits n w) by (intros n w; apply digits_intro).
  destruct (@parseDate_local_midnight hostEast "2024" "02" "29"
              (D2 4%nat "2024" eq_refl) (D2 2%nat "02" eq_refl)
              (D2 2%nat "29" eq_refl)) as (Local & Utc & _).
  split; [exact Local |]. split; [exact Utc | reflexivity].
Defined.

(** X19. A number that is not a time value (NaN, an infinity, or beyond
    8.64e15 milliseconds either side of the epoch) is stored by the
    setter of [lastModified] as an invalid date, without an error;
    [formatDate] writes an invalid date as [NaN-NaN-NaNTNaN:NaN:NaNZ],
    a text that [parseDate] refuses: the document written with such an
    entry cannot be read back. *)
Theorem lastModified_invalid_date {host : Host} (e : SitemapEntry)
  (n : number) :
  match truncate n with
  | Some t => 8640000000000000 < Z.abs t
  | None => True
  end ->
  set_lastModified e (VNum n) = Ok (store_lastModified e (MkDate None))
  /\ formatDate (MkDate None) = "NaN-NaN-NaNTNaN:NaN:NaNZ"
  /\ parseDate (formatDate (MkDate None))
     = Throw (InvalidDateFormat "NaN-NaN-NaNTNaN:NaN:NaNZ")
  /\ forall indent,
       toXml (store_lastModified (set_url newSitemapEntry "/") (MkDate None))
         indent
       = (indent ++ "<url>" ++ nl
          ++ innerIndentOf indent ++ "<loc>/</loc>" ++ nl
          ++ innerIndentOf indent
          ++ "<lastmod>NaN-NaN-NaNTNaN:NaN:NaNZ</lastmod>" ++ nl
          ++ indent ++ "</url>")%string.
Proof.
  intros H. split; [| split; [reflexivity | split]].
  - unfold set_lastModified, newDateOfNumber, newDate. cbn [bind].
    destruct (truncate n) as [t |]; [| reflexivity].
    unfold TimeClip. apply Z.ltb_lt in H. now rewrite H.
  - reflexivity.
  - intros indent. unfold toXml.
    change (priority (store_lastModified (set_url newSitemapEntry "/")
                        (MkDate None)))
      with (VNum DEFAULT_PRIORITY).
    change (priority_is_emitted (VNum DEFAULT_PRIORITY)) with false.
    cbn [url changeFrequency lastModified _lastModified store_lastModified
         set_url newSitemapEntry truthy ToString_url].
    change (formatDate (MkDate None)) with "NaN-NaN-NaNTNaN:NaN:NaNZ".
    repeat (rewrite ?append_assoc; cbn [append]). reflexivity.
Qed.

Lemma lastModified_invalid_date_witness :
  set_lastModified (host := exampleHost) newSitemapEntry (VNum NaN)
  = Ok (store_lastModified newSitemapEntry (MkDate None))
  /\ parseDate (host := exampleHost) (formatDate (MkDate None))
     = Throw (InvalidDateFormat "NaN-NaN-NaNTNaN:NaN:NaNZ").
Proof.
  destruct (@lastModified_invalid_date exampleHost newSitemapEntry NaN I)
    as (Stored & _ & Refused & _).
  now split.
Defined.

(** ** Dot segments *)

(** The fold of [normalizeArray]. *)
Lemma normalizeArray_fold_dotdot (l1 rest : list string) (p : string) :
  plain p = true ->
  fold_right
    (fun part acc =>
       let '(kept, up) := acc in
       if String.eqb part "." then (kept, up)
       else if String.eqb part ".." then (kept, S up)
       else match up with
            | S up' => (kept, up')
            | O => (part :: kept, O)
            end) ([], O) (l1 ++ p :: ".." :: rest)
  = fold_right
      (fun part acc =>
         let '(kept, up) := acc in
         if String.eqb part "." then (kept, up)
         else if String.eqb part ".." then (kept, S up)
         else match up with
              | S up' => (kept, up')
              | O => (part :: kept, O)
              end) ([], O) (l1 ++ rest).
Proof.
  intros Pp. rewrite !fold_right_app. f_equal. cbn [fold_right].
  destruct (fold_right _ _ rest) as [kept up].
  unfold plain in Pp. repeat (apply andb_prop in Pp as [Pp ?]).
  repeat match goal with
         | H : negb _ = true |- _ => apply negb_true_iff in H; rewrite ?H
         end.
  reflexivity.
Qed.

Lemma normalizeArray_dotdot (l1 rest : list string) (p : string) (above : bool) :
  plain p = true ->
  normalizeArray (l1 ++ p :: ".." :: rest) above
  = normalizeArray (l1 ++ rest) above.
Proof.
  intros Pp. unfold normalizeArray.
  now rewrite (@normalizeArray_fold_dotdot l1 rest p Pp).
Qed.

Lemma normalizeArray_dot (l1 rest : list string) (above : bool) :
  normalizeArray (l1 ++ "." :: rest) above = normalizeArray (l1 ++ rest) above.
Proof.
  unfold normalizeArray. rewrite !fold_right_app. cbn [fold_right].
  now destruct (fold_right _ _ rest) as [kept up].
Qed.

(** At the root a [..] has nothing to remove. *)
Lemma normalizeArray_root (rest : list string) :
  forallb plain rest = true -> normalizeArray (".." :: rest) false = rest.
Proof.
  intros P. pose proof (@normalizeArray_plain rest false P) as E.
  unfold normalizeArray in *. cbn [fold_right].
  destruct (fold_right _ _ rest) as [kept up]. exact E.
Qed.

(** [path.normalize] on an absolute path, given what its segments
    resolve to. *)
Lemma normalize_resolved (l segs : list string) :
  l <> [] -> forallb slash_free l = true ->
  normalizeArray (filter not_empty l) false = segs ->
  normalize (String "/" (String.concat "/" l))
  = let p := String.concat "/" segs in
    String "/" (if not_empty p && is_empty (last l ".")
                then p ++ "/" else p)%string.
Proof.
  intros Hne F R. unfold normalize.
  rewrite (@last_char_concat l Hne F).
  cbn [first_char is_char split]. rewrite Ascii.eqb_refl.
  rewrite (@split_concat l Hne F). cbn [filter is_empty negb].
  change (fun x : string => negb (is_empty x)) with not_empty.
  rewrite R. cbn [negb andb]. rewrite andb_false_r. reflexivity.
Qed.

Lemma normalize_resolved_segments (l segs : list string) (tr : bool) :
  segs <> [] -> forallb plain segs = true ->
  forallb slash_free l = true ->
  normalizeArray (filter not_empty l) false = segs ->
  is_empty (last l ".") = tr -> l <> [] ->
  normalize (String "/" (String.concat "/" l))
  = String "/" (String.concat "/" (segs ++ tail_of tr)).
Proof.
  intros Hne P F R L Hl. rewrite (@normalize_resolved l segs Hl F R).
  cbn zeta. rewrite L.
  destruct (@concat_plain_not_empty segs Hne P) as (c & r & Ec & _).
  unfold not_empty. rewrite Ec. cbn [is_empty negb andb]. rewrite <- Ec.
  destruct tr; cbn [tail_of].
  - rewrite (@concat_app segs [""] Hne ltac:(easy)). cbn [String.concat].
    reflexivity.
  - now rewrite app_nil_r.
Qed.

(** A relative path whose first segment is not empty does not start
    with a slash. *)
Lemma rel_path_first_segment (u : string) (us : list string) (tr : bool) :
  is_empty u = false -> slash_free u = true ->
  exists c r, rel_path (u :: us) tr = String c r /\ Ascii.eqb c "/" = false.
Proof.
  intros Ne Sf. destruct u as [| c u]; [discriminate |].
  cbn [slash_free] in Sf. apply andb_prop in Sf as [Hc _].
  apply negb_true_iff in Hc. exists c. unfold rel_path.
  destruct (us ++ tail_of tr) eqn:E; cbn [app]; rewrite E; cbn; eauto.
Qed.

(** Joining a relative path to the URL of a directory, given what the
    segments of the two resolve to. *)
Lemma join_resolved (ps : list string) (u : string) (us segs : list string)
  (tr tr' : bool) :
  forallb plain ps = true ->
  is_empty u = false -> forallb slash_free (u :: us) = true ->
  normalizeArray (ps ++ filter not_empty (u :: us)) false = segs ->
  segs <> [] -> forallb plain segs = true ->
  is_empty (last ((u :: us) ++ tail_of tr) ".") = tr' ->
  join (dir_url ps) (rel_path (u :: us) tr)
  = String "/" (String.concat "/" (segs ++ tail_of tr'))
  /\ normalize (String "/" (String.concat "/" (segs ++ tail_of tr')))
     = String "/" (String.concat "/" (segs ++ tail_of tr')).
Proof.
  intros Pp Ne Su R Hs Ps L.
  assert (Hu : slash_free u = true)
    by (cbn [forallb] in Su; now apply andb_prop in Su as [? _]).
  destruct (@rel_path_first_segment u us tr Ne Hu) as (c & r & Eu & Hc).
  assert (Sp := @forallb_plain_slash_free ps Pp).
  assert (St := forallb_slash_free_tail tr).
  assert (Fp := @filter_plain ps Pp).
  assert (Ft := filter_tail_of tr).
  split.
  - unfold join, dir_url. cbn [filter is_empty negb append]. rewrite Eu.
    cbn [is_empty negb]. rewrite <- Eu. cbn [String.concat append].
    replace (String.concat "/" (ps ++ [""]) ++ String "/" (rel_path (u :: us) tr))%string
      with (String.concat "/" ((ps ++ [""]) ++ (u :: us) ++ tail_of tr)).
    2: { rewrite (@concat_app (ps ++ [""]) ((u :: us) ++ tail_of tr));
           [reflexivity | now destruct ps | easy]. }
    apply normalize_resolved_segments; try assumption.
    + now rewrite !forallb_app, Sp, Su, St.
    + rewrite !filter_app, Fp, Ft. cbn [filter is_empty negb not_empty].
      change (negb (is_empty "")) with false. cbn iota.
      now rewrite !app_nil_r.
    + rewrite (@last_app_r _ ((u :: us) ++ tail_of tr) "." ltac:(easy)).
      exact L.
    + now destruct ps.
  - apply normalize_resolved_segments; try assumption.
    + rewrite forallb_app, (@forallb_plain_slash_free segs Ps).
      now rewrite (forallb_slash_free_tail tr').
    + rewrite filter_app, (@filter_plain segs Ps), (filter_tail_of tr').
      rewrite app_nil_r. apply normalizeArray_plain. exact Ps.
    + destruct tr'; cbn [tail_of].
      * now rewrite last_last.
      * rewrite app_nil_r.
        assert (In (last segs ".") segs).
        { destruct segs as [| s segs]; [easy |]. clear.
          revert s. induction segs as [| v segs IH]; intros s; [now left |].
          right. exact (IH v). }
        rewrite forallb_forall in Ps. now apply plain_not_empty, Ps.
    + now destruct segs.
Qed.

(** The URL [createUrl] makes of a relative path under the URL of a
    directory, given what the segments of the two resolve to. *)
Lemma createUrl_resolved (ps : list string) (u : string) (us segs : list string)
  (tr tr' ensure : bool) :
  forallb plain ps = true ->
  is_empty u = false -> forallb slash_free (u :: us) = true ->
  normalizeArray (ps ++ filter not_empty (u :: us)) false = segs ->
  segs <> [] -> forallb plain segs = true ->
  is_empty (last ((u :: us) ++ tail_of tr) ".") = tr' ->
  createUrl (rel_path (u :: us) tr) (Some (dir_url ps)) ensure
  = String "/" (String.concat "/" (segs ++ tail_of (tr' || ensure))).
Proof.
  intros Pp Ne Su R Hs Ps L.
  assert (Hu : slash_free u = true)
    by (cbn [forallb] in Su; now apply andb_prop in Su as [? _]).
  destruct (@rel_path_first_segment u us tr Ne Hu) as (c & r & Eu & Hc).
  destruct (@join_resolved ps u us segs tr tr' Pp Ne Su R Hs Ps L) as [J N].
  unfold createUrl. rewrite Eu. cbn [first_char is_char]. rewrite Hc.
  rewrite <- Eu. change (is_empty (dir_url ps)) with false. cbn iota.
  rewrite J, N. cbn [first_char is_char]. rewrite Ascii.eqb_refl.
  assert (Hl : segs ++ tail_of tr' <> []) by (now destruct segs).
  rewrite (@last_char_concat _ Hl).
  2: { rewrite forallb_app, (@forallb_plain_slash_free segs Ps).
       now rewrite forallb_slash_free_tail. }
  assert (Lt : is_empty (last (segs ++ tail_of tr') ".") = tr').
  { destruct tr'; cbn [tail_of]; [now rewrite last_last |].
    rewrite app_nil_r.
    assert (In (last segs ".") segs).
    { destruct segs as [| s segs]; [easy |]. clear.
      revert s. induction segs as [| v segs IH]; intros s; [now left |].
      right. exact (IH v). }
    rewrite forallb_forall in Ps. now apply plain_not_empty, Ps. }
  rewrite Lt.
  destruct tr', ensure; cbn [andb orb negb tail_of]; try reflexivity.
  rewrite !app_nil_r.
  rewrite (@concat_app segs [""] Hs ltac:(easy)). reflexivity.
Qed.

(** X20. [createUrl] resolves the dot segments of the entry against the
    prefix: under the URL of a directory, [./path] is [path], and
    [../path] is [path] under the parent directory, so a URL of an
    embedded sitemap can point outside the directory of that sitemap;
    under the root [../path] is [path], a URL never climbing above the
    root. The segments are plain names, and the path is not empty. *)
Theorem createUrl_dot_segments (ps us : list string) (p : string)
  (tr ensure : bool) :
  forallb plain ps = true -> plain p = true ->
  forallb plain us = true -> us <> [] ->
  createUrl (rel_path (".." :: us) tr) (Some (dir_url (ps ++ [p]))) ensure
  = createUrl (rel_path us tr) (Some (dir_url ps)) ensure
  /\ createUrl (rel_path ("." :: us) tr) (Some (dir_url ps)) ensure
     = createUrl (rel_path us tr) (Some (dir_url ps)) ensure
  /\ createUrl (rel_path (".." :: us) tr) (Some (dir_url [])) ensure
     = createUrl (rel_path us tr) (Some (dir_url [])) ensure
  /\ createUrl (rel_path us tr) (Some (dir_url ps)) ensure
     = (dir_url ps ++ rel_path us (tr || ensure))%string.
Proof.
  intros Pp Pe Pu Hne.
  assert (Su := @forallb_plain_slash_free us Pu).
  assert (Fu := @filter_plain us Pu).
  assert (Ppu : forallb plain (ps ++ us) = true)
    by (rewrite forallb_app; now rewrite Pp, Pu).
  assert (Hpu : ps ++ us <> []) by (now destruct ps, us).
  assert (Lt : forall x, is_empty (last ((x :: us) ++ tail_of tr) ".") = tr).
  { intros x. change ((x :: us) ++ tail_of tr)
      with ([x] ++ (us ++ tail_of tr)).
    rewrite (@last_app_r [x] (us ++ tail_of tr) "." ltac:(now destruct us)).
    exact (@last_plain_tail us tr Hne Pu). }
  (* what each of the URLs resolves to *)
  assert (Plain : createUrl (rel_path us tr) (Some (dir_url ps)) ensure
                  = String "/" (String.concat "/"
                                  ((ps ++ us) ++ tail_of (tr || ensure)))).
  { destruct us as [| u us'] eqn:Eus; [easy |]. rewrite <- Eus in *.
    assert (Pu0 : plain u = true).
    { rewrite Eus in Pu. cbn [forallb] in Pu.
      now apply andb_prop in Pu as [? _]. }
    rewrite Eus at 1. rewrite Eus in Su, Fu, Lt.
    apply (@createUrl_resolved ps u us' (ps ++ us) tr tr ensure).
    - exact Pp.
    - exact (@plain_not_empty _ Pu0).
    - exact Su.
    - rewrite Fu, <- Eus. exact (@normalizeArray_plain _ false Ppu).
    - exact Hpu.
    - exact Ppu.
    - rewrite <- Eus. exact (@last_plain_tail us tr Hne Pu). }
  assert (Root : createUrl (rel_path us tr) (Some (dir_url [])) ensure
                 = String "/" (String.concat "/"
                                 (us ++ tail_of (tr || ensure)))).
  { destruct us as [| u us'] eqn:Eus; [easy |]. rewrite <- Eus in *.
    assert (Pu0 : plain u = true).
    { rewrite Eus in Pu. cbn [forallb] in Pu.
      now apply andb_prop in Pu as [? _]. }
    rewrite Eus at 1. rewrite Eus in Su, Fu, Lt.
    apply (@createUrl_resolved [] u us' us tr tr ensure).
    - reflexivity.
    - exact (@plain_not_empty _ Pu0).
    - exact Su.
    - cbn [app]. rewrite Fu, <- Eus. exact (@normalizeArray_plain _ false Pu).
    - exact Hne.
    - exact Pu.
    - rewrite <- Eus. exact (@last_plain_tail us tr Hne Pu). }
  split; [| split; [| split]].
  - rewrite Plain.
    apply (@createUrl_resolved (ps ++ [p]) ".." us (ps ++ us) tr tr ensure).
    + rewrite forallb_app, Pp. cbn [forallb]. now rewrite Pe.
    + reflexivity.
    + cbn [forallb slash_free]. exact Su.
    + cbn [filter not_empty is_empty negb]. fold not_empty. rewrite Fu.
      rewrite <- app_assoc. cbn [app].
      rewrite (@normalizeArray_dotdot ps us p false Pe).
      exact (@normalizeArray_plain _ false Ppu).
    + exact Hpu.
    + exact Ppu.
    + apply Lt.
  - rewrite Plain.
    apply (@createUrl_resolved ps "." us (ps ++ us) tr tr ensure).
    + exact Pp.
    + reflexivity.
    + cbn [forallb slash_free]. exact Su.
    + cbn [filter not_empty is_empty negb]. fold not_empty. rewrite Fu.
      rewrite (@normalizeArray_dot ps us false).
      exact (@normalizeArray_plain _ false Ppu).
    + exact Hpu.
    + exact Ppu.
    + apply Lt.
  - rewrite Root.
    apply (@createUrl_resolved [] ".." us us tr tr ensure).
    + reflexivity.
    + reflexivity.
    + cbn [forallb slash_free]. exact Su.
    + cbn [app filter not_empty is_empty negb]. fold not_empty. rewrite Fu.
      exact (@normalizeArray_root us Pu).
    + exact Hne.
    + exact Pu.
    + apply Lt.
  - exact (@createUrl_under ps us tr false ensure Pp Pu Hne).
Qed.

Lemma createUrl_dot_segments_witness :
  createUrl "../img/logo.png" (Some "/about/team/") false
  = createUrl "img/logo.png" (Some "/about/") false
  /\ createUrl "img/logo.png" (Some "/about/") false = "/about/img/logo.png"
  /\ createUrl "../x/" (Some "/") false = createUrl "x/" (Some "/") false.
Proof.
  destruct (@createUrl_dot_segments ["about"] ["img"; "logo.png"] "team"
              false false eq_refl eq_refl eq_refl ltac:(discriminate))
    as (Up & _ & _ & Under).
  destruct (@createUrl_dot_segments [] ["x"] "team" true false
              eq_refl eq_refl eq_refl ltac:(discriminate))
    as (_ & _ & Root & _).
  split; [exact Up |]. split; [exact Under | exact Root].
Defined.

(* ================================================================== *)
(** * The text of a node *)

Lemma concat_empty_cons (x : string) (l : list string) :
  String.concat "" (x :: l) = (x ++ String.concat "" l)%string.
Proof.
  destruct l as [| y l]; cbn [String.concat]; [now rewrite append_nil_r |].
  reflexivity.
Qed.

Lemma concat_empty_app (l1 l2 : list string) :
  String.concat "" (l1 ++ l2)
  = (String.concat "" l1 ++ String.concat "" l2)%string.
Proof.
  induction l1 as [| x l1 IH]; [reflexivity |].
  cbn [app]. rewrite !concat_empty_cons, IH. now rewrite append_assoc.
Qed.

(** Induction on a node, with the property at hand for its children. *)
Lemma node_induction (P : node -> Prop) :
  (forall type name data children,
     Forall P children -> P (Node type name data children)) ->
  forall n, P n.
Proof.
  intros H. fix F 1. intros [type name data children]. apply H.
  induction children as [| c cs IH]; constructor; [apply F | exact IH].
Qed.

Lemma innerText_leaves (n : node) :
  innerText n = String.concat "" (text_leaves n).
Proof.
  induction n as [type name data children IH] using node_induction.
  cbn [innerText text_leaves].
  destruct (String.eqb type "text"); [reflexivity |].
  destruct (String.eqb type "tag"); [| reflexivity].
  induction IH as [| c cs Hc _ IHcs]; [reflexivity |].
  cbn [map flat_map]. rewrite concat_empty_cons, concat_empty_app, Hc.
  now rewrite IHcs.
Qed.

(** X21. The text of a node is the data of the text nodes under it, one
    after the other in document order, as far as they are reached
    through elements: an element is transparent, while a node of any
    other type (a comment, a directive, a CDATA section) gives no text,
    whatever it holds, so a URL written in a CDATA section reads as the
    empty string. *)
Theorem innerText_text_nodes :
  (forall n, innerText n = String.concat "" (text_leaves n))
  /\ (forall name data cs1 cs2,
        innerText (Node "tag" name data (cs1 ++ cs2))
        = (innerText (Node "tag" name data cs1)
           ++ innerText (Node "tag" name data cs2))%string)
  /\ (forall name data c, innerText (Node "tag" name data [c]) = innerText c)
  /\ (forall type name data children,
        type <> "text" -> type <> "tag" ->
        innerText (Node type name data children) = "")
  /\ (forall nm text, innerText (Node "tag" (Some nm) "" [cdata text]) = "").
Proof.
  split; [exact innerText_leaves |]. split; [| split; [| split]].
  - intros name data cs1 cs2. cbn [innerText String.eqb Ascii.eqb Bool.eqb].
    now rewrite map_app, concat_empty_app.
  - intros name data c. cbn [innerText String.eqb Ascii.eqb Bool.eqb map].
    reflexivity.
  - intros type name data children T1 T2. cbn [innerText].
    apply String.eqb_neq in T1, T2. now rewrite T1, T2.
  - reflexivity.
Qed.

Lemma innerText_text_nodes_witness :
  innerText (Node "tag" (Some "loc") ""
               [Node "text" None "/a" []; Node "comment" None "x" [];
                Node "tag" (Some "b") "" [Node "text" None "/b" []]])
  = "/a/b"
  /\ innerText (Node "directive" (Some "?x") "?x y?" [Node "text" None "z" []])
     = "".
Proof.
  destruct innerText_text_nodes as (Leaves & _ & _ & Other & _).
  split.
  - rewrite Leaves. reflexivity.
  - apply Other; discriminate.
Defined.

Lemma filter_indexed_nth (g : string -> nat -> bool) (l : list string)
  (ix : nat) (x : string) :
  In x (filter_indexed g l ix)
  <-> exists i, nth_error l i = Some x /\ g x (ix + i)%nat = true.
Proof.
  revert ix. induction l as [| y l IH]; intros ix; cbn [filter_indexed].
  - split; [easy |]. intros (i & E & _). now destruct i.
  - split.
    + intros Hin.
      assert (C : (y = x /\ g y ix = true)
                  \/ In x (filter_indexed g l (S ix))).
      { destruct (g y ix) eqn:G; [destruct Hin as [-> | Hin] |]; auto. }
      clear Hin. destruct C as [[-> G] | Hin].
      * exists O. split; [reflexivity |]. now rewrite Nat.add_0_r.
      * apply IH in Hin as (i & E & G). exists (S i).
        split; [exact E |]. now rewrite Nat.add_succ_r.
    + intros ([| i] & E & G).
      * cbn in E. injection E as ->. rewrite Nat.add_0_r in G.
        rewrite G. now left.
      * cbn [nth_error] in E. rewrite Nat.add_succ_r in G.
        assert (Hin : In x (filter_indexed g l (S ix)))
          by (apply IH; eauto).
        destruct (g y ix); [now right | exact Hin].
Qed.

(** X22. The filter of a directory listing, for a filter function: the
    function is called with the name and its position in the listing as
    [readdir] gave it, and a name is kept when the function returns
    true for it. When [includeSitemap] is set, [sitemap.xml] is kept
    without the function being asked, so the function cannot exclude
    it. *)
Theorem filterEntries_function (entries : list string)
  (f : string -> nat -> bool) (keep : jsval) :
  (forall x,
     In x (filterEntries entries (ExtFn f) keep)
     <-> exists i,
           nth_error entries i = Some x
           /\ (truthy keep && String.eqb x "sitemap.xml") || f x i = true)
  /\ (truthy keep = true -> In "sitemap.xml" entries ->
      In "sitemap.xml" (filterEntries entries (ExtFn f) keep)).
Proof.
  split.
  - intros x. unfold filterEntries. rewrite filter_indexed_nth.
    split; intros (i & E & G); exists i; (split; [exact E |]);
      cbn [Nat.add] in *;
      destruct (truthy keep && String.eqb x "sitemap.xml"); auto.
  - intros T Hin. apply contains_In.
    now apply filterEntries_keeps_sitemap.
Qed.

Lemma filterEntries_function_witness :
  filterEntries ["a.html"; "b.html"; "sitemap.xml"; "c.html"]
    (ExtFn (fun _ ix => Nat.even ix)) (VBool true)
  = ["a.html"; "sitemap.xml"]
  /\ In "sitemap.xml"
       (filterEntries ["a.html"; "b.html"; "c.html"; "sitemap.xml"]
          (ExtFn (fun _ _ => false)) (VBool true)).
Proof.
  split; [reflexivity |].
  apply (proj2 (@filterEntries_function
                  ["a.html"; "b.html"; "c.html"; "sitemap.xml"]
                  (fun _ _ => false) (VBool true)));
    [reflexivity | do 3 right; now left].
Defined.

(* ================================================================== *)
(** * Errors of a scan *)

(** A list of contributions is collected only when each of them is a
    list of items. *)
Lemma collect_Ok (cs : list (option items_or_error)) (its : list item) :
  collect cs = Some (Ok its) ->
  forall c, In c cs -> exists l, c = Some (Ok l).
Proof.
  revert its. induction cs as [| c0 cs IH]; intros its E c Hin; [easy |].
  cbn [collect] in E. destruct c0 as [[l | err] |]; try discriminate.
  destruct (collect cs) as [[rest | err] |] eqn:C; try discriminate.
  destruct Hin as [<- | Hin]; [eauto |]. exact (IH _ eq_refl _ Hin).
Qed.

(** X23. A scan returns no partial result: it returns items only when
    every entry the filter keeps was dealt with without an error. When
    the [stat] of a kept entry fails, when the scan of a kept
    subdirectory fails, or when a kept entry is a file and
    [lastModified] is [false] or [null] (values the setter refuses), the
    scan of the directory returns no items; and when the embedded
    sitemap of a directory cannot be read, the scan of the directory is
    that error. *)
Theorem scanDir_no_partial_result {host : Host} {fs : FileSystem} (fuel : nat)
  (dir : string) (o : options) (entries : list string) :
  readdir dir = Ok entries ->
  (truthy (opt_includeSitemap o)
   && contains (filterEntries entries (opt_ext o) (opt_includeSitemap o))
        "sitemap.xml" = false ->
   forall entry,
     In entry (filterEntries entries (opt_ext o) (opt_includeSitemap o)) ->
     (forall err its,
        contribution (scanDir fuel) dir o entry = Some (Throw err) ->
        scanDir (S fuel) dir o <> Some (Ok its))
     /\ (forall err its,
           stat (Path.join dir entry) = Throw err ->
           scanDir (S fuel) dir o <> Some (Ok its))
     /\ (forall stats v its,
           stat (Path.join dir entry) = Ok stats -> isFile stats = true ->
           opt_lastModified o = Literal v -> v = VBool false \/ v = VNull ->
           scanDir (S fuel) dir o <> Some (Ok its)))
  /\ (truthy (opt_includeSitemap o)
      && contains (filterEntries entries (opt_ext o) (opt_includeSitemap o))
           "sitemap.xml" = true ->
      forall err,
        readFile (Path.join dir "sitemap.xml") = Throw err ->
        scanDir (S fuel) dir o = Some (Throw err)).
Proof.
  intros R. split.
  - intros N entry Hin.
    assert (G : forall err its,
               contribution (scanDir fuel) dir o entry = Some (Throw err) ->
               scanDir (S fuel) dir o <> Some (Ok its)).
    { intros err its C E. rewrite scanDir_unfold, R in E. cbn zeta in E.
      rewrite N, scan_entries_collect in E.
      destruct (collect _) as [[l | e] |] eqn:Col; try discriminate.
      destruct (collect_Ok _ Col (contribution (scanDir fuel) dir o entry))
        as [l' El]; [| congruence].
      apply in_map_iff. now exists entry. }
    split; [exact G |]. split.
    + intros err its St. apply (G err). unfold contribution. now rewrite St.
    + intros stats v its St Fi Hv Hcase.
      assert (T : exists err,
                 (if is_index o entry
                  then createSitemapEntry "" o stats true
                  else createSitemapEntry entry o stats false) = Throw err).
      { destruct (is_index o entry); unfold createSitemapEntry; rewrite Hv;
          destruct (set_priority _ _) as [e1 | err]; cbn [bind]; eauto;
          destruct Hcase as [-> | ->]; cbn; eauto. }
      destruct T as [err T]. apply (G err). unfold contribution.
      now rewrite St, Fi, T.
  - intros Y err F. rewrite scanDir_unfold, R. cbn zeta. rewrite Y.
    unfold getEmbeddedSitemap. now rewrite F.
Qed.

Lemma scanDir_no_partial_result_witness :
  scanDir (host := exampleHost) (fs := exampleFS) 3 "site-pi/about"
    (extend defaultOptions (lastModifiedConfig (Literal (VBool false))))
  <> Some (Ok [])
  /\ scanDir (host := exampleHost) (fs := exampleFS) 3 "site-pi/about"
       (extend defaultOptions (lastModifiedConfig (Literal (VBool false))))
     = Some (Throw InvalidLastModifiedType).
Proof.
  split; [| vm_compute; reflexivity].
  destruct (@scanDir_no_partial_result exampleHost exampleFS 2 "site-pi/about"
              (extend defaultOptions
                 (lastModifiedConfig (Literal (VBool false))))
              ["embedded-pi"; "index.html"] eq_refl) as (Files & _).
  destruct (Files eq_refl "index.html" ltac:(right; now left))
    as (_ & _ & Refused).
  exact (Refused example_stats (VBool false) [] eq_refl eq_refl eq_refl
           (or_introl eq_refl)).
Defined.

(* ================================================================== *)
(** * The URLs of a tree *)

Lemma under_url_snoc (ps : list string) (entry u : string) :
  under_url (dir_url (ps ++ [entry])) u -> under_url (dir_url ps) u.
Proof.
  intros [rest ->]. rewrite dir_url_snoc. exists (entry ++ "/" ++ rest)%string.
  now rewrite !append_assoc.
Qed.

Lemma extend_prefix_includeSitemap (o : options) (p : string) :
  opt_includeSitemap (extend o (prefixConfig p)) = opt_includeSitemap o.
Proof. reflexivity. Qed.

Section PlainListings.

Context {host : Host} {fs : FileSystem}.
Hypothesis listed_plain :
  forall dir entries, readdir dir = Ok entries -> forallb plain entries = true.

Lemma scanDir_under (fuel : nat) :
  forall dir o ps its,
    truthy (opt_includeSitemap o) = false ->
    prefix_is o ps -> forallb plain ps = true ->
    scanDir fuel dir o = Some (Ok its) ->
    Forall (item_under (dir_url ps)) its.
Proof using listed_plain.
  induction fuel as [| fuel IH]; intros dir o ps its T P Pp; [discriminate |].
  rewrite scanDir_unfold.
  destruct (readdir dir) as [entries |] eqn:R; [| discriminate]. cbn zeta.
  rewrite T. cbn [andb]. rewrite scan_entries_collect.
  destruct (collect _) as [[l | err] |] eqn:C; try discriminate.
  intros [= <-]. cbn [app].
  refine (@collect_Forall (item_under (dir_url ps)) _ l _ C).
  intros c l' Hin ->. apply in_map_iff in Hin as (entry & Hc & Hin).
  assert (Pe : plain entry = true).
  { pose proof (listed_plain _ R) as A. rewrite forallb_forall in A.
    apply A. exact (filterEntries_In _ _ _ _ Hin). }
  destruct (@createUrl_listed o ps entry P Pp Pe) as (D & F & I).
  unfold contribution in Hc.
  destruct (stat _) as [stats |]; [| discriminate].
  destruct (isFile stats).
  - destruct (is_index o entry).
    + destruct (createSitemapEntry "" o stats true) as [e |] eqn:E;
        cbn [bind] in Hc; [| discriminate].
      injection Hc as <-. constructor; [| constructor].
      exists e, (dir_url ps). split; [reflexivity |].
      split; [now rewrite (createSitemapEntry_url _ _ _ _ E), I |].
      exists "". now rewrite append_nil_r.
    + destruct (createSitemapEntry entry o stats false) as [e |] eqn:E;
        cbn [bind] in Hc; [| discriminate].
      injection Hc as <-. constructor; [| constructor].
      exists e, (dir_url ps ++ entry)%string. split; [reflexivity |].
      split; [now rewrite (createSitemapEntry_url _ _ _ _ E), F |].
      now exists entry.
  - destruct (isDirectory stats); [| injection Hc as <-; constructor].
    rewrite D in Hc.
    assert (Sub : Forall (item_under (dir_url (ps ++ [entry]))) l').
    { apply (IH (join dir entry)
                (extend o (prefixConfig (dir_url (ps ++ [entry]))))
                (ps ++ [entry]) l').
      - exact T.
      - now left.
      - rewrite forallb_app, Pp. cbn [forallb]. now rewrite Pe.
      - exact Hc. }
    apply Forall_impl with (2 := Sub).
    intros it (e & u & -> & U & Un). exists e, u.
    split; [reflexivity |]. split; [exact U |].
    exact (under_url_snoc _ _ Un).
Qed.

End PlainListings.

(** X24. Without embedded sitemaps the URLs of a scan stay under the
    URL of the directory scanned: when [includeSitemap] is off and the
    listings hold plain names (as [readdir] gives them), every item of
    the scan of a directory, to any depth, is an entry whose URL starts
    with the URL [/p1/.../pn/] of that directory; for the generator,
    whose scan starts without a prefix, with a slash. *)
Theorem scanDir_urls_under {host : Host} {fs : FileSystem} :
  (forall dir entries, readdir dir = Ok entries -> forallb plain entries = true) ->
  (forall fuel dir o ps its,
     truthy (opt_includeSitemap o) = false ->
     prefix_is o ps -> forallb plain ps = true ->
     scanDir fuel dir o = Some (Ok its) ->
     Forall (item_under (dir_url ps)) its)
  /\ (forall fuel dir cfg sm,
        cfg_includeSitemap cfg = Some (VBool false) ->
        cfg_prefix cfg = None ->
        generate fuel dir (Some cfg) = Some (Ok sm) ->
        Forall (item_under "/") (items sm)).
Proof.
  intros listed_plain. split.
  - intros fuel dir o ps its.
    exact (@scanDir_under host fs listed_plain fuel dir o ps its).
  - intros fuel dir cfg sm Inc Pre. unfold generate. cbn [override].
    destruct (scanDir fuel dir _) as [[its | err] |] eqn:E; try discriminate.
    intros [= <-]. cbn [items].
    apply (@scanDir_under host fs listed_plain fuel dir
             (extend defaultOptions cfg) [] its); [| | reflexivity | exact E].
    + cbn. now rewrite Inc.
    + right. split; [reflexivity |]. cbn. now rewrite Pre.
Qed.

Lemma example_plain (dir : string) (entries : list string) :
  readdir (FileSystem := exampleFS) dir = Ok entries ->
  forallb plain entries = true.
Proof.
  intros R. cbn -[String.eqb] in R.
  repeat match type of R with
         | context [String.eqb ?k dir] =>
             destruct (String.eqb_spec k dir) as [<- | _]
         end;
    [.. | discriminate R]; injection R as <-; reflexivity.
Qed.

Lemma scanDir_urls_under_witness :
  generate (host := exampleHost) (fs := exampleFS) 10 "site-pi"
    (Some (includeSitemapConfig false))
  = Some (Ok {| items :=
                  [Entry (example_entry "/about/embedded-pi/a/include-it/");
                   Entry (example_entry "/about/embedded-pi/a/");
                   Entry (example_entry "/about/")] |})
  /\ Forall (item_under "/")
       [Entry (example_entry "/about/embedded-pi/a/include-it/");
        Entry (example_entry "/about/embedded-pi/a/");
        Entry (example_entry "/about/")].
Proof.
  assert (G : generate (host := exampleHost) (fs := exampleFS) 10 "site-pi"
                (Some (includeSitemapConfig false))
              = Some (Ok {| items :=
                  [Entry (example_entry "/about/embedded-pi/a/include-it/");
                   Entry (example_entry "/about/embedded-pi/a/");
                   Entry (example_entry "/about/")] |}))
    by (vm_compute; reflexivity).
  split; [exact G |].
  exact (proj2 (@scanDir_urls_under exampleHost exampleFS example_plain)
           10%nat "site-pi" (includeSitemapConfig false) _ eq_refl eq_refl G).
Defined.

(* ================================================================== *)
(** * The range of the dates read *)

Lemma toNumberDigits_2 (w : string) : digits 2 w -> 0 <= toNumberDigits w <= 99.
Proof.
  intros D. apply digits_2 in D as (a & b & -> & Ha & Hb).
  apply digit_val_range in Ha, Hb.
  unfold toNumberDigits, str2. cbn [digits_value_from]. lia.
Qed.

Lemma toNumberDigits_4 (w : string) :
  digits 4 w -> 0 <= toNumberDigits w <= 9999.
Proof.
  intros D. apply digits_4 in D as (a & b & c & e & -> & Ha & Hb & Hc & He).
  apply digit_val_range in Ha, Hb, Hc, He.
  unfold toNumberDigits, str4. cbn [digits_value_from]. lia.
Qed.

Lemma MonthStart_range (m leap : Z) :
  0 <= leap <= 1 -> 0 <= MonthStart m leap <= 335.
Proof.
  intros L. unfold MonthStart.
  repeat match goal with
         | |- context [match ?x with _ => _ end] => destruct x
         end; lia.
Qed.

(** The day [MakeDay] gives for a year of up to four digits and a month
    and date of up to two. *)
Lemma MakeDay_range (y m d : Z) :
  0 <= y <= 9999 -> -1 <= m <= 98 -> 0 <= d <= 99 ->
  -700000 <= MakeDay (FullYear y) m d <= 3000000.
Proof.
  intros Hy Hm Hd. unfold MakeDay.
  set (ym := FullYear y + m / 12).
  assert (Hym : 99 <= ym <= 10007).
  { subst ym. unfold FullYear.
    destruct ((0 <=? y) && (y <=? 99)) eqn:E.
    - apply andb_prop in E as [E1 E2]. apply Z.leb_le in E1, E2.
      Z.div_mod_to_equations. lia.
    - apply andb_false_iff in E as [E | E];
        [apply Z.leb_gt in E | apply Z.leb_gt in E];
        Z.div_mod_to_equations; lia. }
  pose proof (@DayFromYear_mono 99 ym ltac:(lia)) as Lo.
  pose proof (@DayFromYear_mono ym 10007 ltac:(lia)) as Hi.
  change (DayFromYear 99) with (-683368) in Lo.
  change (DayFromYear 10007) with 2935454 in Hi.
  pose proof (@MonthStart_range (m mod 12)
                (if DaysInYear ym =? 366 then 1 else 0)
                ltac:(destruct (DaysInYear ym =? 366); lia)) as Ms.
  lia.
Qed.

Lemma MakeDate_range (y m d h mi s : Z) :
  0 <= y <= 9999 -> -1 <= m <= 98 -> 0 <= d <= 99 ->
  0 <= h <= 99 -> 0 <= mi <= 99 -> 0 <= s <= 99 ->
  Z.abs (MakeDate (MakeDay (FullYear y) m d) (MakeTime h mi s 0))
  <= 300000000000000.
Proof.
  intros Hy Hm Hd Hh Hmi Hs.
  pose proof (@MakeDay_range y m d Hy Hm Hd) as D.
  unfold MakeDate, MakeTime, msPerDay, msPerHour, msPerMinute, msPerSecond.
  lia.
Qed.

Lemma newDateLocal_valid {host : Host} (y m d : Z) :
  (forall t, Z.abs (LocalTZA t) <= msPerDay) ->
  0 <= y <= 9999 -> -1 <= m <= 98 -> 0 <= d <= 99 ->
  exists t, newDateLocal y m d = MkDate (Some t).
Proof.
  intros Z Hy Hm Hd. unfold newDateLocal. eexists. f_equal.
  apply TimeClip_in_range.
  pose proof (@MakeDate_range y m d 0 0 0 Hy Hm Hd
                ltac:(lia) ltac:(lia) ltac:(lia)) as R.
  change (MakeTime 0 0 0 0) with 0 in R.
  pose proof (Z (MakeDate (MakeDay (FullYear y) m d) 0)) as Zt.
  unfold msPerDay in Zt. lia.
Qed.

Lemma offset_ms_range (off : string) :
  offset_part off -> Z.abs (offset_ms off) <= 400000000.
Proof.
  intros [sign hh mm Hs Hh Hm].
  pose proof (@toNumberDigits_2 hh Hh) as Rh.
  pose proof (@toNumberDigits_2 mm Hm) as Rm.
  apply digits_2 in Hh as (h1 & h2 & -> & _ & _).
  apply digits_2 in Hm as (m1 & m2 & -> & _ & _).
  destruct Hs as [-> | ->]; unfold offset_ms, str2 in *;
    cbn -[toNumberDigits Z.mul Z.add Z.abs]; lia.
Qed.

(** X25. [parseDate] gives a valid date for every accepted text without
    a fraction of a second, whatever its digits are: fields out of
    range, such as a month 13 or a day 00, are carried over by the
    [Date] constructor and never make the date invalid. For the forms
    without a time the local zone is taken to be within a day of UTC. *)
Theorem parseDate_valid {host : Host} :
  (forall YYYY MM DD hh mm sec zone,
     digits 4 YYYY -> digits 2 MM -> digits 2 DD -> digits 2 hh ->
     digits 2 mm ->
     sec = "" \/ (exists ss, digits 2 ss /\ sec = (":" ++ ss)%string) ->
     zone_part zone ->
     exists t,
       parseDate (YYYY ++ "-" ++ MM ++ "-" ++ DD ++ "T" ++ hh ++ ":" ++ mm
                       ++ sec ++ zone)
       = Ok (MkDate (Some t)))
  /\ ((forall t, Z.abs (LocalTZA t) <= msPerDay) ->
      (forall YYYY, digits 4 YYYY ->
         exists t, parseDate YYYY = Ok (MkDate (Some t)))
      /\ (forall YYYY MM, digits 4 YYYY -> digits 2 MM ->
            exists t, parseDate (YYYY ++ "-" ++ MM) = Ok (MkDate (Some t)))
      /\ (forall YYYY MM DD, digits 4 YYYY -> digits 2 MM -> digits 2 DD ->
            exists t,
              parseDate (YYYY ++ "-" ++ MM ++ "-" ++ DD)
              = Ok (MkDate (Some t)))).
Proof.
  split.
  - intros Y M D h mi sec zone HY HM HD Hh Hmi Hsec Hzone.
    pose proof (@toNumberDigits_4 Y HY) as RY.
    pose proof (@toNumberDigits_2 M HM) as RM.
    pose proof (@toNumberDigits_2 D HD) as RD.
    pose proof (@toNumberDigits_2 h Hh) as Rh.
    pose proof (@toNumberDigits_2 mi Hmi) as Rmi.
    assert (S : seconds_part sec /\ fraction_of sec = None
                /\ 0 <= seconds_of sec <= 99).
    { destruct Hsec as [-> | (ss & Hss & ->)].
      - split; [constructor |]. split; [reflexivity | cbn; lia].
      - pose proof (@toNumberDigits_2 ss Hss) as Rs.
        split; [now constructor |].
        apply digits_2 in Hss as (s1 & s2 & -> & _ & _).
        split; [reflexivity | exact Rs]. }
    destruct S as (Ssec & Fr & Rs).
    assert (U : exists t0,
               datetime_utc Y M D h mi sec = Some t0
               /\ Z.abs t0 <= 300000000000000).
    { unfold datetime_utc. rewrite Fr, fraction_ms_absent. unfold UTC.
      pose proof (@MakeDate_range (toNumberDigits Y) (toNumberDigits M - 1)
                    (toNumberDigits D) (toNumberDigits h) (toNumberDigits mi)
                    (seconds_of sec) RY ltac:(lia) RD Rh Rmi Rs) as R.
      eexists. split; [apply TimeClip_in_range; lia | exact R]. }
    destruct U as (t0 & U & R0).
    apply digits_4 in HY as (y1 & y2 & y3 & y4 & -> & Hy1 & Hy2 & Hy3 & Hy4).
    apply digits_2 in HM as (m1 & m2 & -> & Hm1 & Hm2).
    apply digits_2 in HD as (d1 & d2 & -> & Hd1 & Hd2).
    apply digits_2 in Hh as (h1 & h2 & -> & Hh1 & Hh2).
    apply digits_2 in Hmi as (i1 & i2 & -> & Hi1 & Hi2).
    rewrite (@parseDate_datetime y1 y2 y3 y4 m1 m2 d1 d2 h1 h2 i1 i2
               Hy1 Hy2 Hy3 Hy4 Hm1 Hm2 Hd1 Hd2 Hh1 Hh2 Hi1 Hi2
               _ sec zone Ssec Hzone).
    rewrite U. unfold in_zone, newDate.
    destruct Hzone as [| off Hoff].
    + cbn [String.eqb Ascii.eqb Bool.eqb]. eexists. do 2 f_equal.
      apply TimeClip_in_range. lia.
    + rewrite (offset_is_not_Z Hoff). cbn [option_map].
      pose proof (offset_ms_range Hoff) as Ro.
      eexists. do 2 f_equal. apply TimeClip_in_range. lia.
  - intros Z. split; [| split].
    + intros Y HY. pose proof (@toNumberDigits_4 Y HY) as RY.
      apply digits_4 in HY as (y1 & y2 & y3 & y4 & -> & ? & ? & ? & ?).
      rewrite parseDate_YYYY by assumption.
      destruct (@newDateLocal_valid _ _ 0 1 Z RY ltac:(lia) ltac:(lia))
        as [t ->].
      eauto.
    + intros Y M HY HM. pose proof (@toNumberDigits_4 Y HY) as RY.
      pose proof (@toNumberDigits_2 M HM) as RM.
      apply digits_4 in HY as (y1 & y2 & y3 & y4 & -> & ? & ? & ? & ?).
      apply digits_2 in HM as (m1 & m2 & -> & ? & ?).
      rewrite parseDate_YYYY_MM by assumption.
      destruct (@newDateLocal_valid _ _ (toNumberDigits (str2 m1 m2) - 1) 1
                  Z RY ltac:(lia) ltac:(lia)) as [t ->].
      eauto.
    + intros Y M D HY HM HD. pose proof (@toNumberDigits_4 Y HY) as RY.
      pose proof (@toNumberDigits_2 M HM) as RM.
      pose proof (@toNumberDigits_2 D HD) as RD.
      apply digits_4 in HY as (y1 & y2 & y3 & y4 & -> & ? & ? & ? & ?).
      apply digits_2 in HM as (m1 & m2 & -> & ? & ?).
      apply digits_2 in HD as (d1 & d2 & -> & ? & ?).
      rewrite parseDate_YYYY_MM_DD by assumption.
      destruct (@newDateLocal_valid _ _ (toNumberDigits (str2 m1 m2) - 1)
                  (toNumberDigits (str2 d1 d2)) Z RY ltac:(lia) RD)
        as [t ->].
      eauto.
Qed.

Lemma parseDate_valid_witness :
  (exists t,
     parseDate (host := hostEast) "2024-13-00T24:60:60+99:99"
     = Ok (MkDate (Some t)))
  /\ parseDate (host := hostEast) "2024-13-00T24:60:60+99:99"
     = parseDate (host := hostEast) "2024-12-27T20:22:00Z"
  /\ (exists t, parseDate (host := hostEast) "2024-13-00" = Ok (MkDate (Some t))).
Proof.
  assert (D2 : forall n w, (String.length w =? n)%nat && all_digits w = true ->
                           digits n w) by (intros n w; apply digits_intro).
  split; [| split; [vm_compute; reflexivity |]].
  - apply (proj1 (@parseDate_valid hostEast) "2024" "13" "00" "24" "60" ":60"
             "+99:99"
             (D2 4%nat "2024" eq_refl) (D2 2%nat "13" eq_refl)
             (D2 2%nat "00" eq_refl) (D2 2%nat "24" eq_refl)
             (D2 2%nat "60" eq_refl)).
    + right. exists "60". split; [apply D2 |]; reflexivity.
    + apply zone_offset. apply (@offset_form "+" "99" "99"); [now left | |];
        apply D2; reflexivity.
  - assert (Z : forall t, Z.abs (LocalTZA (Host := hostEast) t) <= msPerDay)
      by (intros t; vm_compute; discriminate).
    exact (proj2 (proj2 (proj2 (@parseDate_valid hostEast) Z))
             "2024" "13" "00"
             (D2 4%nat "2024" eq_refl) (D2 2%nat "13" eq_refl)
             (D2 2%nat "00" eq_refl)).
Defined.

(* ================================================================== *)
(** * The embedded sitemap of a directory *)






